(** * AI code-completion extension: the context / fingerprint / cache /
    dispatch pipeline

    A shallow embedding of the TypeScript sources of the editor extension
    ([completion_provider.ts], [api_client.ts], [statistics_manager.ts],
    [context_extracter.ts], [configuration_manager.ts])
    and the properties its specification states about them.

    Conventions of the embedding:
    - a JavaScript string is a [string]: a sequence of code units, each an
      [ascii];
    - a JavaScript number that the code only ever uses as a counter, a
      size or a time stamp is a [Z]; a number that is fractional (a
      confidence, a rate, an average) is an exact rational [Q];
    - an optional property ([x?: T]) and a nullable one ([T | null]) are
      [option T];
    - a [Map] is an association list in insertion order with unique keys;
    - an object literal used as a table is such a list too, and a lookup
      in it also finds the members inherited from [Object.prototype];
    - a setting has the type that the schema of the extension declares for
      it;
    - a call that may raise returns a [completion]: [Normal v] or
      [Throw e];
    - [async] code is cut at its [await]: the part before it and the part
      after it are two state transformers. *)

From Stdlib Require Import ZArith QArith Qround Lia Ascii.
From stdpp Require Import base list strings gmap pretty sorting.

Local Open Scope Z_scope.

(* ================================================================== *)
(** * Part I: the embedding *)
(* ================================================================== *)

(** ** JavaScript runtime notions the sources rely on *)

Module JS.

(** The body of an HTTP error reply, as [getErrorMessage] reads it:
    [error.response.status], [error.response.data?.message] and
    [error.response.statusText]. *)
Record ErrorReply := {
  reply_status : Z;
  reply_data_message : option string;
  reply_statusText : string
}.

(** A raised value, with the properties the sources inspect:
    [error.response], [error.request] (present or not), [error.code] and
    [error.message]. *)
Record Error := {
  err_response : option ErrorReply;
  err_request : bool;
  err_code : option string;
  err_message : string
}.

(** [new Error(msg)]: no [response], no [request], no [code]. *)
Definition new_Error (msg : string) : Error :=
  {| err_response := None; err_request := false; err_code := None;
     err_message := msg |}.

(** The outcome of evaluating an expression or a call. *)
Inductive completion (A : Type) : Type :=
| Normal (a : A)
| Throw (e : Error).
Arguments Normal {A} a.
Arguments Throw {A} e.

Definition bind {A B} (c : completion A) (k : A -> completion B) : completion B :=
  match c with
  | Normal a => k a
  | Throw e => Throw e
  end.

Notation "x <- c ;; k" := (bind c (fun x => k))
  (at level 100, c at next level, right associativity).

(** [xs.map(f)] where [f] may raise: elements are visited left to right
    and the first exception aborts the traversal. *)
Fixpoint map_index {A B} (f : A -> Z -> completion B) (i : Z) (xs : list A)
  : completion (list B) :=
  match xs with
  | [] => Normal []
  | x :: rest =>
      y <- f x i ;;
      ys <- map_index f (i + 1) rest ;;
      Normal (y :: ys)
  end.

(** A string is truthy when it is not empty. *)
Definition truthy_string (s : string) : bool :=
  match s with EmptyString => false | _ => true end.

(** [a || b] on an optional string: the first truthy operand. *)
Definition or_string (a : option string) (b : string) : string :=
  match a with
  | Some s => if truthy_string s then s else b
  | None => b
  end.

(** [a || b] on an optional number: [0] and [undefined] are falsy. *)
Definition or_number (a : option Z) (b : Z) : Z :=
  match a with
  | Some n => if n =? 0 then b else n
  | None => b
  end.

Definition newline : ascii := "010"%char.
Definition tab : ascii := "009"%char.
Definition space : ascii := " "%char.

(** [s.split(sep)] for a one-character separator: never empty. *)
Fixpoint split (sep : ascii) (s : string) : list string :=
  match s with
  | EmptyString => [EmptyString]
  | String c rest =>
      if Ascii.eqb c sep then EmptyString :: split sep rest
      else match split sep rest with
           | piece :: pieces => String c piece :: pieces
           | [] => [String c EmptyString]
           end
  end.

(** [pieces.join(sep)]. *)
Fixpoint join (sep : ascii) (pieces : list string) : string :=
  match pieces with
  | [] => EmptyString
  | [piece] => piece
  | piece :: rest => piece +:+ String sep (join sep rest)
  end.

(** [xs.pop()] on a fresh array: its last element. *)
Definition pop (xs : list string) : option string := last xs.

(** [xs.slice(-n)]: the last [n] elements (all of them when there are
    fewer). *)
Definition slice_last {A} (n : nat) (xs : list A) : list A :=
  drop (length xs - n) xs.

(** [xs.slice(0, n)]. *)
Definition slice_first {A} (n : nat) (xs : list A) : list A := take n xs.

(** [String(n)] for an integer below [10^21] in magnitude, which is
    written with all its digits. *)
Definition String_of (n : Z) : string := pretty n.

(** The longest string of the engine (V8 on a 64-bit platform):
    [2^29 - 24] code units. *)
Definition max_string_length : Z := 536870888.

(** [c.repeat(n)] for a one-character string; a negative count raises a
    [RangeError], and so does a count beyond the longest string. *)
Fixpoint replicate_char (n : nat) (c : ascii) : string :=
  match n with
  | O => EmptyString
  | S m => String c (replicate_char m c)
  end.

Definition repeat (c : ascii) (n : Z) : completion string :=
  if n <? 0 then Throw (new_Error ("Invalid count value: " +:+ String_of n))
  else if max_string_length <? n then Throw (new_Error "Invalid string length")
  else Normal (replicate_char (Z.to_nat n) c).

(** [s.padStart(n, c)] for a one-character pad. *)
Definition padStart (n : nat) (c : ascii) (s : string) : string :=
  replicate_char (n - String.length s) c +:+ s.

(** [Math.round(x)]: the nearest integer, halves rounded up. *)
Definition Math_round (x : Q) : Z := Qfloor (x + (1 # 2)).

(** The class [\s] of regular expressions, on code units below 256. *)
Definition is_whitespace (c : ascii) : bool :=
  match nat_of_ascii c with
  | 9%nat | 10%nat | 11%nat | 12%nat | 13%nat | 32%nat | 160%nat => true
  | _ => false
  end.

(** The rest of a string after its leading whitespace. *)
Fixpoint skip_whitespace (s : string) : string :=
  match s with
  | EmptyString => EmptyString
  | String c rest => if is_whitespace c then skip_whitespace rest else s
  end.

(** [line.replace(re, r)] where [re] is the pattern "start of input, then
    any run of whitespace, captured" and the replacement [r] has no dollar
    sign: the pattern matches once, at the start, the longest run of
    whitespace (possibly empty), and [r] takes its place. *)
Definition replace_leading_whitespace (r line : string) : string :=
  r +:+ skip_whitespace line.

(** [a < b] on strings: by code units, left to right. *)
Definition string_lt (a b : string) : bool := String.ltb a b.

End JS.

Import JS.

(** ** The data model ([completion_provider.ts], lines 8-80) *)

Record Position := {
  line : Z;
  character : Z
}.

Record FunctionContext := {
  fn_name : string;
  fn_parameters : list string;
  fn_returnType : option string
}.

Record ClassContext := {
  cls_name : string;
  cls_methods : list string;
  cls_properties : list string
}.

Inductive Scope := scope_local | scope_global | scope_parameter.

Record VariableBinding := {
  var_name : string;
  var_type : string;
  var_scope : Scope
}.

Inductive IndentStyle := spaces | tabs.

Record CodeContext := {
  currentLine : string;
  filePath : option string;
  previousLines : list string;
  position : Position;
  language : string;
  functionContext : option FunctionContext;
  classContext : option ClassContext;
  imports : list string;
  variables : list VariableBinding;
  fileExtension : option string;
  indentStyle : option IndentStyle;
  indentSize : option Z;
  contextWindow : option Z
}.

Record ReplaceRange := {
  range_start : Z;
  range_end : Z
}.

Record Suggestion := {
  text : string;
  confidence : Q;
  type : string;
  description : option string;
  cursorOffset : Z;
  replaceRange : option ReplaceRange;
  languageSpecific : option bool;
  formattingApplied : option bool
}.

Record Metadata := {
  processingTimeMs : Z;
  modelVersion : string;
  cacheHit : bool;
  contextHash : string;
  languageDetected : option string;
  configUsed : option string;
  modelType : option string
}.

Record SuggestionResponse := {
  suggestions : list Suggestion;
  metadata : Metadata;
  status : string;
  errorMessage : option string
}.

Record LanguageConfig := {
  maxTokens : Z;
  temperature : Q;
  topP : Q;
  cfg_contextWindow : Z;
  commentStyle : string;
  cfg_indentStyle : IndentStyle;
  cfg_indentSize : Z;
  fileExtensions : list string
}.

(** ** [JSON.stringify] on the values the fingerprint serialises *)

Module Json.

(** The values that occur in the fingerprint's object literal. A property
    whose value is [undefined] is [None]: [JSON.stringify] leaves it
    out. *)
#[local] Unset Elimination Schemes.
Inductive value :=
| Null
| Num (n : Z)
| Str (s : string)
| Arr (xs : list value)
| Obj (props : list (string * option value)).
#[local] Set Elimination Schemes.

Definition hex_digit (n : nat) : ascii :=
  match n with
  | 0%nat => "0" | 1%nat => "1" | 2%nat => "2" | 3%nat => "3"
  | 4%nat => "4" | 5%nat => "5" | 6%nat => "6" | 7%nat => "7"
  | 8%nat => "8" | 9%nat => "9" | 10%nat => "a" | 11%nat => "b"
  | 12%nat => "c" | 13%nat => "d" | 14%nat => "e" | _ => "f"
  end%char.

Definition double_quote : ascii := "034"%char.

(** One code unit inside a JSON string literal. *)
Definition escape (c : ascii) : string :=
  let n := nat_of_ascii c in
  match n with
  | 34%nat => String "\" (String double_quote EmptyString)
  | 92%nat => String "\" (String "\" EmptyString)
  | 8%nat => String "\" (String "b" EmptyString)
  | 9%nat => String "\" (String "t" EmptyString)
  | 10%nat => String "\" (String "n" EmptyString)
  | 12%nat => String "\" (String "f" EmptyString)
  | 13%nat => String "\" (String "r" EmptyString)
  | _ =>
      if (n <? 32)%nat then
        String "\" (String "u" (String "0" (String "0"
          (String (hex_digit (n / 16)) (String (hex_digit (n mod 16)) EmptyString)))))
      else String c EmptyString
  end.

Fixpoint escape_all (s : string) : string :=
  match s with
  | EmptyString => EmptyString
  | String c rest => escape c +:+ escape_all rest
  end.

Definition quote (s : string) : string :=
  String double_quote (escape_all s +:+ String double_quote EmptyString).

Fixpoint commas (pieces : list string) : string :=
  match pieces with
  | [] => EmptyString
  | [piece] => piece
  | piece :: rest => piece +:+ String "," (commas rest)
  end.

Fixpoint stringify (v : value) : string :=
  match v with
  | Null => "null"
  | Num n => String_of n
  | Str s => quote s
  | Arr xs =>
      "[" +:+ commas ((fix elements (vs : list value) : list string :=
                         match vs with
                         | [] => []
                         | x :: rest => stringify x :: elements rest
                         end) xs) +:+ "]"
  | Obj props =>
      "{" +:+ commas ((fix members (ps : list (string * option value)) : list string :=
                         match ps with
                         | [] => []
                         | (k, Some x) :: rest =>
                             (quote k +:+ String ":" (stringify x)) :: members rest
                         | (_, None) :: rest => members rest
                         end) props) +:+ "}"
  end.

Definition strings (xs : list string) : value := Arr (map Str xs).

End Json.

(** ** The MD5 digest of [crypto.createHash('md5')] (RFC 1321) *)

Module Md5.

Definition mask : Z := 4294967295.

Definition add32 (a b : Z) : Z := Z.land (a + b) mask.

Definition not32 (a : Z) : Z := Z.lxor a mask.

Definition rotl32 (x c : Z) : Z :=
  Z.land (Z.lor (Z.shiftl x c) (Z.shiftr x (32 - c))) mask.

Definition shifts : list Z :=
  [ 7; 12; 17; 22; 7; 12; 17; 22; 7; 12; 17; 22; 7; 12; 17; 22;
    5; 9; 14; 20; 5; 9; 14; 20; 5; 9; 14; 20; 5; 9; 14; 20;
    4; 11; 16; 23; 4; 11; 16; 23; 4; 11; 16; 23; 4; 11; 16; 23;
    6; 10; 15; 21; 6; 10; 15; 21; 6; 10; 15; 21; 6; 10; 15; 21 ].

Definition sines : list Z :=
  [ 3614090360; 3905402710; 606105819; 3250441966;
    4118548399; 1200080426; 2821735955; 4249261313;
    1770035416; 2336552879; 4294925233; 2304563134;
    1804603682; 4254626195; 2792965006; 1236535329;
    4129170786; 3225465664; 643717713; 3921069994;
    3593408605; 38016083; 3634488961; 3889429448;
    568446438; 3275163606; 4107603335; 1163531501;
    2850285829; 4243563512; 1735328473; 2368359562;
    4294588738; 2272392833; 1839030562; 4259657740;
    2763975236; 1272893353; 4139469664; 3200236656;
    681279174; 3936430074; 3572445317; 76029189;
    3654602809; 3873151461; 530742520; 3299628645;
    4096336452; 1126891415; 2878612391; 4237533241;
    1700485571; 2399980690; 4293915773; 2240044497;
    1873313359; 4264355552; 2734768916; 1309151649;
    4149444226; 3174756917; 718787259; 3951481745 ].

(** The bytes [update(s)] feeds to the digest: the UTF-8 encoding of the
    code units of [s] (all below 256). *)
Fixpoint utf8 (s : string) : list Z :=
  match s with
  | EmptyString => []
  | String c rest =>
      let n := Z.of_nat (nat_of_ascii c) in
      if n <? 128 then n :: utf8 rest
      else Z.lor 192 (Z.shiftr n 6) :: Z.lor 128 (Z.land n 63) :: utf8 rest
  end.

(** [n] as [k] bytes, least significant first. *)
Fixpoint little_endian (k : nat) (n : Z) : list Z :=
  match k with
  | O => []
  | S k' => Z.land n 255 :: little_endian k' (Z.shiftr n 8)
  end.

Definition pad (message : list Z) : list Z :=
  let len := Z.of_nat (length message) in
  let zeros := Z.to_nat ((55 - len) mod 64) in
  message ++ [128] ++ replicate zeros 0 ++ little_endian 8 (Z.land (8 * len) 18446744073709551615).

Fixpoint word_of (bytes : list Z) : Z :=
  match bytes with
  | [] => 0
  | b :: rest => b + 256 * word_of rest
  end.

(** The sixteen 32-bit words of a 64-byte block. *)
Fixpoint words (k : nat) (block : list Z) : list Z :=
  match k with
  | O => []
  | S k' => word_of (take 4 block) :: words k' (drop 4 block)
  end.

Record registers := { A : Z; B : Z; C : Z; D : Z }.

Definition initial : registers :=
  {| A := 1732584193; B := 4023233417; C := 2562383102; D := 271733878 |}.

Definition round (M : list Z) (r : registers) (i : Z) : registers :=
  let '(F, g) :=
    if i <? 16 then (Z.lor (Z.land (B r) (C r)) (Z.land (not32 (B r)) (D r)), i)
    else if i <? 32 then
      (Z.lor (Z.land (D r) (B r)) (Z.land (not32 (D r)) (C r)), (5 * i + 1) mod 16)
    else if i <? 48 then (Z.lxor (B r) (Z.lxor (C r) (D r)), (3 * i + 5) mod 16)
    else (Z.lxor (C r) (Z.lor (B r) (not32 (D r))), (7 * i) mod 16) in
  let F := add32 (add32 (add32 F (A r)) (nth (Z.to_nat i) sines 0)) (nth (Z.to_nat g) M 0) in
  {| A := D r; D := C r; C := B r;
     B := add32 (B r) (rotl32 F (nth (Z.to_nat i) shifts 0)) |}.

Definition process_block (r : registers) (block : list Z) : registers :=
  let M := words 16 block in
  let r' := foldl (round M) r (map Z.of_nat (seq 0 64)) in
  {| A := add32 (A r) (A r'); B := add32 (B r) (B r');
     C := add32 (C r) (C r'); D := add32 (D r) (D r') |}.

Fixpoint process (blocks : nat) (r : registers) (bytes : list Z) : registers :=
  match blocks with
  | O => r
  | S n => process n (process_block r (take 64 bytes)) (drop 64 bytes)
  end.

Definition hex_digit (n : Z) : ascii :=
  match n with
  | 0 => "0" | 1 => "1" | 2 => "2" | 3 => "3" | 4 => "4" | 5 => "5"
  | 6 => "6" | 7 => "7" | 8 => "8" | 9 => "9" | 10 => "a" | 11 => "b"
  | 12 => "c" | 13 => "d" | 14 => "e" | _ => "f"
  end%char.

Fixpoint hex (bytes : list Z) : string :=
  match bytes with
  | [] => EmptyString
  | b :: rest => String (hex_digit (Z.shiftr b 4)) (String (hex_digit (Z.land b 15)) (hex rest))
  end.

(** [crypto.createHash('md5').update(s).digest('hex')]. *)
Definition md5 (s : string) : string :=
  let bytes := pad (utf8 s) in
  let r := process (length bytes / 64) initial bytes in
  hex (little_endian 4 (A r) ++ little_endian 4 (B r)
       ++ little_endian 4 (C r) ++ little_endian 4 (D r)).

End Md5.

(** ** [Map<string, V>]: insertion-ordered, one entry per key *)

Module JsMap.

Section Operations.
Context {V : Type}.

Definition t := list (string * V).

Definition empty : t := [].

Fixpoint get (k : string) (m : t) : option V :=
  match m with
  | [] => None
  | (k', v) :: rest => if String.eqb k k' then Some v else get k rest
  end.

Definition has (k : string) (m : t) : bool :=
  match get k m with Some _ => true | None => false end.

(** [m.set(k, v)]: an existing key keeps its place and takes the new
    value; a new key goes last. *)
Fixpoint set (k : string) (v : V) (m : t) : t :=
  match m with
  | [] => [(k, v)]
  | (k', v') :: rest =>
      if String.eqb k k' then (k, v) :: rest else (k', v') :: set k v rest
  end.

Fixpoint delete (k : string) (m : t) : t :=
  match m with
  | [] => []
  | (k', v') :: rest =>
      if String.eqb k k' then rest else (k', v') :: delete k rest
  end.

(** [Array.from(m.keys())]: the keys in insertion order. *)
Definition keys (m : t) : list string := fst <$> m.

Definition size (m : t) : nat := length m.

(** [ks.forEach(key => m.delete(key))]. *)
Definition delete_each (ks : list string) (m : t) : t :=
  foldl (fun acc k => delete k acc) m ks.

End Operations.

Arguments t V : clear implicits.

End JsMap.

(** ** Object literals used as tables *)

Module JsObject.

(** The members that every object literal inherits from
    [Object.prototype]; all of them are truthy objects. *)
Definition Object_prototype : list string :=
  [ "constructor"; "__defineGetter__"; "__defineSetter__"; "hasOwnProperty";
    "__lookupGetter__"; "__lookupSetter__"; "isPrototypeOf";
    "propertyIsEnumerable"; "toString"; "valueOf"; "__proto__"; "toLocaleString" ].

(** [obj[key]] on an object literal: the own property, else the member
    inherited under that name, else [undefined]. *)
Inductive Property (A : Type) :=
| Own (v : A)
| Inherited (name : string)
| Missing.
Arguments Own {A} v.
Arguments Inherited {A} name.
Arguments Missing {A}.

Definition inherited (key : string) : bool := bool_decide (key ∈ Object_prototype).

(** On a table whose keys are kept in order. *)
Definition member {A} (key : string) (obj : JsMap.t A) : Property A :=
  match JsMap.get key obj with
  | Some v => Own v
  | None => if bool_decide (key ∈ Object_prototype) then Inherited key else Missing
  end.

(** On a table whose order plays no part. *)
Definition property {A} (key : string) (obj : gmap string A) : Property A :=
  match obj !! key with
  | Some v => Own v
  | None => if inherited key then Inherited key else Missing
  end.

(** A property of an object literal that is spread over another
    ([{...base, ...update}]): absent, present with the value
    [undefined], or present with a value. *)
Inductive Supplied (A : Type) :=
| Absent
| Cleared
| Given (v : A).
Arguments Absent {A}.
Arguments Cleared {A}.
Arguments Given {A} v.

End JsObject.

(** ** [statistics_manager.ts] *)

Module StatisticsManager.

Record LanguageStats := {
  requests : Z;
  lang_suggestions : Z;
  accepted : Z;
  avgResponseTime : Q
}.

Record DailyStats := {
  day_requests : Z;
  day_accepted : Z
}.

Record CompletionStats := {
  totalRequests : Z;
  totalSuggestions : Z;
  acceptedSuggestions : Z;
  cacheHits : Z;
  averageResponseTime : Q;
  errorCount : Z;
  languageStats : gmap string LanguageStats;
  dailyStats : gmap string DailyStats;
  sessionStartTime : Z
}.

(** The manager's two fields: [stats] and [responseTimes]. *)
Record t := {
  stats : CompletionStats;
  responseTimes : list Z
}.

Definition maxResponseTimeHistory : nat := 100.

(** The zero-initialised aggregate of [loadStatistics] and
    [resetStatistics]; [now] is the reading of [Date.now()]. *)
Definition zero_stats (now : Z) : CompletionStats :=
  {| totalRequests := 0; totalSuggestions := 0; acceptedSuggestions := 0;
     cacheHits := 0; averageResponseTime := 0%Q; errorCount := 0;
     languageStats := ∅; dailyStats := ∅; sessionStartTime := now |}.

Definition fresh (now : Z) : t :=
  {| stats := zero_stats now; responseTimes := [] |}.

Definition sum (xs : list Z) : Z := foldl Z.add 0 xs.

(** [recordCompletion]; [today] is the calendar day read from the clock
    ([new Date().toISOString().split('T')[0]]).

    [languageStats] and [dailyStats] are object literals: under the name
    of a member of [Object.prototype] the lookup finds that member, so no
    entry is made, and the counters that the code then writes are
    properties of that member, not of the statistics. *)
Definition recordCompletion (language : string) (suggestionCount responseTime : Z)
    (cacheHit : bool) (today : string) (m : t) : t :=
  let s := stats m in
  let times := responseTimes m ++ [responseTime] in
  let times :=
    if (maxResponseTimeHistory <? length times)%nat then drop 1 times else times in
  let counted (lang : LanguageStats) : LanguageStats :=
    let lang_requests := requests lang + 1 in
    {| requests := lang_requests;
       lang_suggestions := lang_suggestions lang + suggestionCount;
       accepted := accepted lang;
       avgResponseTime :=
         ((avgResponseTime lang * inject_Z (lang_requests - 1)
           + inject_Z responseTime) / inject_Z lang_requests)%Q |} in
  let dated (day : DailyStats) : DailyStats :=
    {| day_requests := day_requests day + 1; day_accepted := day_accepted day |} in
  {| stats :=
       {| totalRequests := totalRequests s + 1;
          totalSuggestions := totalSuggestions s + suggestionCount;
          acceptedSuggestions := acceptedSuggestions s;
          cacheHits := if cacheHit then cacheHits s + 1 else cacheHits s;
          averageResponseTime :=
            (inject_Z (sum times) / inject_Z (Z.of_nat (length times)))%Q;
          errorCount := errorCount s;
          languageStats :=
            match JsObject.property language (languageStats s) with
            | JsObject.Own lang => <[language := counted lang]> (languageStats s)
            | JsObject.Missing =>
                <[language := counted {| requests := 0; lang_suggestions := 0;
                                         accepted := 0; avgResponseTime := 0%Q |}]>
                  (languageStats s)
            | JsObject.Inherited _ => languageStats s
            end;
          dailyStats :=
            match JsObject.property today (dailyStats s) with
            | JsObject.Own day => <[today := dated day]> (dailyStats s)
            | JsObject.Missing =>
                <[today := dated {| day_requests := 0; day_accepted := 0 |}]>
                  (dailyStats s)
            | JsObject.Inherited _ => dailyStats s
            end;
          sessionStartTime := sessionStartTime s |};
     responseTimes := times |}.

Definition with_stats (f : CompletionStats -> CompletionStats) (m : t) : t :=
  {| stats := f (stats m); responseTimes := responseTimes m |}.

Definition recordCacheHit (m : t) : t :=
  with_stats (fun s =>
    {| totalRequests := totalRequests s;
       totalSuggestions := totalSuggestions s;
       acceptedSuggestions := acceptedSuggestions s;
       cacheHits := cacheHits s + 1;
       averageResponseTime := averageResponseTime s;
       errorCount := errorCount s;
       languageStats := languageStats s;
       dailyStats := dailyStats s;
       sessionStartTime := sessionStartTime s |}) m.

Definition recordError (errorType : string) (m : t) : t :=
  with_stats (fun s =>
    {| totalRequests := totalRequests s;
       totalSuggestions := totalSuggestions s;
       acceptedSuggestions := acceptedSuggestions s;
       cacheHits := cacheHits s;
       averageResponseTime := averageResponseTime s;
       errorCount := errorCount s + 1;
       languageStats := languageStats s;
       dailyStats := dailyStats s;
       sessionStartTime := sessionStartTime s |}) m.

(** The value of a JavaScript division or product of numbers: a finite
    number, or what IEEE arithmetic yields when a divisor is zero. *)
Inductive number :=
| Finite (q : Q)
| Infinite (negative : bool)
| NaN.

(** [a / b] on integer counters. *)
Definition divide (a b : Z) : number :=
  if b =? 0 then
    if a =? 0 then NaN else Infinite (a <? 0)
  else Finite (inject_Z a / inject_Z b)%Q.

(** [x * k] for a positive integer constant [k]. *)
Definition times (x : number) (k : positive) : number :=
  match x with
  | Finite q => Finite (q * inject_Z (Zpos k))%Q
  | Infinite negative => Infinite negative
  | NaN => NaN
  end.

Definition getAcceptanceRate (m : t) : number :=
  if totalSuggestions (stats m) =? 0 then Finite 0%Q
  else times (divide (acceptedSuggestions (stats m)) (totalSuggestions (stats m))) 100.

Definition getCacheHitRate (m : t) : number :=
  if totalRequests (stats m) =? 0 then Finite 0%Q
  else times (divide (cacheHits (stats m)) (totalRequests (stats m))) 100.

(** [recordAcceptance]: the global counter always grows; the language's
    and the day's counters grow only when their entries exist. (Under the
    name of a member of [Object.prototype] without an entry the counter
    that grows is a property of that member, not of the statistics.) *)
Definition recordAcceptance (language today : string) (m : t) : t :=
  with_stats (fun s =>
    {| totalRequests := totalRequests s;
       totalSuggestions := totalSuggestions s;
       acceptedSuggestions := acceptedSuggestions s + 1;
       cacheHits := cacheHits s;
       averageResponseTime := averageResponseTime s;
       errorCount := errorCount s;
       languageStats :=
         match languageStats s !! language with
         | Some l =>
             <[language := {| requests := requests l;
                              lang_suggestions := lang_suggestions l;
                              accepted := accepted l + 1;
                              avgResponseTime := avgResponseTime l |}]> (languageStats s)
         | None => languageStats s
         end;
       dailyStats :=
         match dailyStats s !! today with
         | Some d =>
             <[today := {| day_requests := day_requests d;
                           day_accepted := day_accepted d + 1 |}]> (dailyStats s)
         | None => dailyStats s
         end;
       sessionStartTime := sessionStartTime s |}) m.

(** [loadStatistics] in a new manager: [saved] is what the extension's
    global state holds under ['completionStats'], [now] the reading of
    [Date.now()]. The window of response times always starts empty. *)
Definition loadStatistics (saved : option CompletionStats) (now : Z) : t :=
  match saved with
  | Some s =>
      {| stats :=
           {| totalRequests := totalRequests s;
              totalSuggestions := totalSuggestions s;
              acceptedSuggestions := acceptedSuggestions s;
              cacheHits := cacheHits s;
              averageResponseTime := averageResponseTime s;
              errorCount := errorCount s;
              languageStats := languageStats s;
              dailyStats := dailyStats s;
              sessionStartTime := now |};
         responseTimes := [] |}
  | None => fresh now
  end.

(** [saveStatistics]: what the global state holds afterwards. *)
Definition saveStatistics (m : t) : option CompletionStats := Some (stats m).

(** [resetStatistics]: the manager and the global state afterwards. *)
Definition resetStatistics (now : Z) : t * option CompletionStats :=
  (fresh now, saveStatistics (fresh now)).

Definition getSessionDuration (now : Z) (m : t) : Z :=
  now - sessionStartTime (stats m).

End StatisticsManager.

(** ** [api_client.ts] *)

Module APIClient.

(** The body of a reply before any validation: an arbitrary JSON value
    (TypeScript types it [any]). *)
#[local] Unset Elimination Schemes.
Inductive body :=
| Undefined
| BNull
| BBool (b : bool)
| BNum (q : Q)
| BStr (s : string)
| BArr (xs : list body)
| BObj (props : list (string * body)).
#[local] Set Elimination Schemes.

Fixpoint lookup_prop (k : string) (props : list (string * body)) : body :=
  match props with
  | [] => Undefined
  | (k', v) :: rest => if String.eqb k k' then v else lookup_prop k rest
  end.

(** [v.k] on a truthy [v]: the own property of an object, [undefined] on
    anything else. *)
Definition prop (v : body) (k : string) : body :=
  match v with
  | BObj props => lookup_prop k props
  | _ => Undefined
  end.

Definition truthy (v : body) : bool :=
  match v with
  | Undefined | BNull => false
  | BBool b => b
  | BNum q => negb (Qeq_bool q 0)
  | BStr s => truthy_string s
  | BArr _ | BObj _ => true
  end.

Definition isArray (v : body) : bool :=
  match v with BArr _ => true | _ => false end.

Definition typeof_number (v : body) : bool :=
  match v with BNum _ => true | _ => false end.

Definition typeof_string (v : body) : bool :=
  match v with BStr _ => true | _ => false end.

Definition typeof_boolean (v : body) : bool :=
  match v with BBool _ => true | _ => false end.

Definition isValidSuggestionResponse (data : body) : bool :=
  truthy data &&
  isArray (prop data "suggestions") &&
  truthy (prop data "metadata") &&
  typeof_number (prop (prop data "metadata") "processingTimeMs") &&
  typeof_string (prop (prop data "metadata") "modelVersion") &&
  typeof_boolean (prop (prop data "metadata") "cacheHit") &&
  typeof_string (prop data "status").

(** What [httpClient.post] settles to: the promise is fulfilled with the
    body of a reply, or rejected with an error. *)
Inductive HttpOutcome :=
| Fulfilled (data : body)
| Rejected (error : Error).

Record Preferences := {
  model : string;
  auto_trigger : bool;
  context_window : Z
}.

Record CompletionRequest := {
  req_context : CodeContext;
  req_language : string;
  max_suggestions : Z;
  max_length : Z;
  req_temperature : Q;
  user_id : string;
  session_id : string;
  preferences : Preferences
}.

(** [c.toLowerCase()] on a code unit below 256. *)
Definition lower (c : ascii) : ascii :=
  let n := nat_of_ascii c in
  if ((65 <=? n) && (n <=? 90))%nat then ascii_of_nat (n + 32)
  else if ((192 <=? n) && (n <=? 222) && negb (n =? 215))%nat then ascii_of_nat (n + 32)
  else c.

Fixpoint toLowerCase (s : string) : string :=
  match s with
  | EmptyString => EmptyString
  | String c rest => String (lower c) (toLowerCase rest)
  end.

Definition langMap : list (string * string) :=
  [ ("py", "python"); ("js", "javascript"); ("ts", "typescript");
    ("jsx", "javascript"); ("tsx", "typescript"); ("java", "java");
    ("cpp", "cpp"); ("cc", "cpp"); ("cxx", "cpp"); ("c", "c");
    ("cs", "c#"); ("go", "go"); ("rs", "rust"); ("php", "php");
    ("rb", "ruby"); ("swift", "swift"); ("kt", "kotlin");
    ("scala", "scala"); ("html", "html"); ("css", "css"); ("sql", "sql");
    ("sh", "bash"); ("ps1", "powershell") ].

(** [detectLanguage]. Without a language the file extension is looked up
    in [langMap]. (An extension that is the name of a member of
    [Object.prototype] finds that member there, which is no language
    name; the embedding covers the other extensions.) *)
Definition detectLanguage (context : CodeContext) : string :=
  if truthy_string (language context) then toLowerCase (language context)
  else
    let from_extension :=
      match filePath context with
      | Some path =>
          if truthy_string path then
            match pop (split "." path) with
            | Some ext =>
                let ext := toLowerCase ext in
                if truthy_string ext then JsMap.get ext langMap else None
            | None => None
            end
          else None
      | None => None
      end in
    default "unknown" from_extension.

Definition getErrorMessage (error : Error) : string :=
  match err_response error with
  | Some reply =>
      "Server error: " +:+ String_of (reply_status reply) +:+ " - "
        +:+ or_string (reply_data_message reply) (reply_statusText reply)
  | None =>
      if err_request error then
        "No response from server. Please check your connection and API URL."
      else if bool_decide (err_code error = Some "ECONNABORTED") then
        "Request timeout. The AI service is taking too long to respond."
      else "Request failed: " +:+ err_message error
  end.

Section Client.

(** The configuration manager's getters, the two identifiers fixed by the
    constructor, the transport, and the typed reading of a validated body
    (TypeScript's [data is SuggestionResponse]). *)
Variable getMaxSuggestions : string -> Z.
Variable getTemperature : string -> Q.
Variable getModel : string -> string.
Variable getAutoTrigger : bool.
Variable getMaxContextLines : string -> Z.
Variable userId sessionId : string.
Variable post : CompletionRequest -> HttpOutcome.
Variable as_SuggestionResponse : body -> SuggestionResponse.

Definition getMaxLength (language : string) : Z :=
  Z.min (getMaxContextLines language * 50) 2048.

Definition build_request (context : CodeContext) (language : string) : CompletionRequest :=
  {| req_context := context;
     req_language := language;
     max_suggestions := getMaxSuggestions language;
     max_length := getMaxLength language;
     req_temperature := getTemperature language;
     user_id := userId;
     session_id := sessionId;
     preferences :=
       {| model := getModel language;
          auto_trigger := getAutoTrigger;
          context_window := getMaxContextLines language |} |}.

(** The [try] block of [getSuggestions]; [startTime] and [endTime] are
    the two readings of [Date.now()] around the request. *)
Definition getSuggestions_try (startTime endTime : Z) (context : CodeContext)
  : completion SuggestionResponse :=
  let language := detectLanguage context in
  let request := build_request context language in
  match post request with
  | Rejected error => Throw error
  | Fulfilled data =>
      let processingTime := endTime - startTime in
      if negb (isValidSuggestionResponse data) then
        Throw (new_Error "Invalid response format from API")
      else
        let r := as_SuggestionResponse data in
        let md := metadata r in
        Normal
          {| suggestions := suggestions r;
             metadata :=
               {| processingTimeMs := processingTime;
                  modelVersion := modelVersion md;
                  cacheHit := cacheHit md;
                  contextHash := contextHash md;
                  languageDetected := Some language;
                  configUsed := configUsed md;
                  modelType := modelType md |};
             status := status r;
             errorMessage := errorMessage r |}
  end.

(** The response built by the [catch] block. *)
Definition error_response (context : CodeContext) (error : Error) : SuggestionResponse :=
  {| suggestions := [];
     metadata :=
       {| processingTimeMs := 0;
          modelVersion := "unknown";
          cacheHit := false;
          contextHash := "";
          languageDetected := Some (detectLanguage context);
          configUsed := None;
          modelType := None |};
     status := "error";
     errorMessage := Some (getErrorMessage error) |}.

Definition getSuggestions (startTime endTime : Z) (context : CodeContext)
  : completion SuggestionResponse :=
  match getSuggestions_try startTime endTime context with
  | Normal response => Normal response
  | Throw error => Normal (error_response context error)
  end.

End Client.

(** The error a timed-out request is rejected with. The request was made
    and no reply came within [requestTimeout]: the HTTP client builds the
    error around the request it sent, so [error.request] is set,
    [error.response] is not, and the code is [ECONNABORTED]. *)
Definition timeout_error (ms : Z) : Error :=
  {| err_response := None;
     err_request := true;
     err_code := Some "ECONNABORTED";
     err_message := "timeout of " +:+ String_of ms +:+ "ms exceeded" |}.

End APIClient.

(** ** [completion_provider.ts] *)

Module CompletionProvider.

(** What the provider reads of a [vscode.TextDocument]. *)
Record Document := {
  languageId : string;
  fileName : string;
  lines : list string
}.

Inductive CompletionItemKind := kind_Text | kind_Snippet | kind_Module.

Record Command := {
  command : string;
  title : string;
  arg_index : Z;
  arg_type : string;
  arg_language : string
}.

Record CompletionItem := {
  label : string;
  kind : CompletionItemKind;
  insertText : string;
  detail : string;
  documentation : option string;
  sortText : string;
  range : option ReplaceRange;
  item_command : Command
}.

Definition python_config : LanguageConfig :=
  {| maxTokens := 150; temperature := (6 # 10)%Q; topP := (85 # 100)%Q;
     cfg_contextWindow := 2048; commentStyle := "#"; cfg_indentStyle := spaces;
     cfg_indentSize := 4; fileExtensions := [".py"; ".pyx"; ".pyi"] |}.

Definition javascript_config : LanguageConfig :=
  {| maxTokens := 120; temperature := (7 # 10)%Q; topP := (9 # 10)%Q;
     cfg_contextWindow := 1536; commentStyle := "//"; cfg_indentStyle := spaces;
     cfg_indentSize := 2; fileExtensions := [".js"; ".jsx"; ".mjs"] |}.

Definition typescript_config : LanguageConfig :=
  {| maxTokens := 120; temperature := (7 # 10)%Q; topP := (9 # 10)%Q;
     cfg_contextWindow := 1536; commentStyle := "//"; cfg_indentStyle := spaces;
     cfg_indentSize := 2; fileExtensions := [".ts"; ".tsx"] |}.

Definition java_config : LanguageConfig :=
  {| maxTokens := 140; temperature := (6 # 10)%Q; topP := (85 # 100)%Q;
     cfg_contextWindow := 1800; commentStyle := "//"; cfg_indentStyle := spaces;
     cfg_indentSize := 4; fileExtensions := [".java"] |}.

Definition cpp_config : LanguageConfig :=
  {| maxTokens := 130; temperature := (6 # 10)%Q; topP := (85 # 100)%Q;
     cfg_contextWindow := 1800; commentStyle := "//"; cfg_indentStyle := spaces;
     cfg_indentSize := 4; fileExtensions := [".cpp"; ".cc"; ".cxx"; ".c++"] |}.

Definition c_config : LanguageConfig :=
  {| maxTokens := 130; temperature := (6 # 10)%Q; topP := (85 # 100)%Q;
     cfg_contextWindow := 1800; commentStyle := "//"; cfg_indentStyle := spaces;
     cfg_indentSize := 4; fileExtensions := [".c"; ".h"] |}.

Definition go_config : LanguageConfig :=
  {| maxTokens := 120; temperature := (6 # 10)%Q; topP := (85 # 100)%Q;
     cfg_contextWindow := 1600; commentStyle := "//"; cfg_indentStyle := tabs;
     cfg_indentSize := 1; fileExtensions := [".go"] |}.

Definition rust_config : LanguageConfig :=
  {| maxTokens := 140; temperature := (6 # 10)%Q; topP := (85 # 100)%Q;
     cfg_contextWindow := 1800; commentStyle := "//"; cfg_indentStyle := spaces;
     cfg_indentSize := 4; fileExtensions := [".rs"] |}.

(** [initializeLanguageConfigs]. *)
Definition initializeLanguageConfigs : JsMap.t LanguageConfig :=
  foldl (fun m entry => JsMap.set (fst entry) (snd entry) m) JsMap.empty
    [ ("python", python_config); ("javascript", javascript_config);
      ("typescript", typescript_config); ("java", java_config);
      ("cpp", cpp_config); ("c", c_config); ("go", go_config);
      ("rust", rust_config) ].

(** The provider's own fields and the state of its statistics manager. *)
Record t := {
  cache : JsMap.t SuggestionResponse;
  isProcessing : bool;
  languageConfigs : JsMap.t LanguageConfig;
  statsManager : StatisticsManager.t
}.

(** The provider as its constructor leaves it, around the statistics
    manager it is given. *)
Definition create (statsManager : StatisticsManager.t) : t :=
  {| cache := JsMap.empty;
     isProcessing := false;
     languageConfigs := initializeLanguageConfigs;
     statsManager := statsManager |}.

Definition with_cache (c : JsMap.t SuggestionResponse) (p : t) : t :=
  {| cache := c; isProcessing := isProcessing p;
     languageConfigs := languageConfigs p; statsManager := statsManager p |}.

Definition with_isProcessing (b : bool) (p : t) : t :=
  {| cache := cache p; isProcessing := b;
     languageConfigs := languageConfigs p; statsManager := statsManager p |}.

Definition with_statsManager (f : StatisticsManager.t -> StatisticsManager.t) (p : t) : t :=
  {| cache := cache p; isProcessing := isProcessing p;
     languageConfigs := languageConfigs p; statsManager := f (statsManager p) |}.

Definition enhanceContextWithLanguageInfo (p : t) (context : CodeContext) (document : Document)
  : CodeContext :=
  let language := languageId document in
  let fileExtension := pop (split "." (fileName document)) in
  let languageConfig := JsMap.get language (languageConfigs p) in
  {| currentLine := currentLine context;
     filePath := filePath context;
     previousLines := previousLines context;
     position := position context;
     language := language;
     functionContext := functionContext context;
     classContext := classContext context;
     imports := imports context;
     variables := variables context;
     fileExtension :=
       match fileExtension with
       | Some ext => if truthy_string ext then Some ("." +:+ ext) else None
       | None => None
       end;
     indentStyle := Some (default spaces (cfg_indentStyle <$> languageConfig));
     indentSize := Some (or_number (cfg_indentSize <$> languageConfig) 4);
     contextWindow := Some (or_number (cfg_contextWindow <$> languageConfig) 1024) |}.

Definition isLanguageSupported (p : t) (language : string) : bool :=
  JsMap.has language (languageConfigs p).

Definition getCompletionItemKind (suggestionType : string) : CompletionItemKind :=
  if String.eqb suggestionType "single-line" then kind_Text
  else if String.eqb suggestionType "multi-line" then kind_Snippet
  else if String.eqb suggestionType "block" then kind_Module
  else kind_Text.

Definition indent_name (style : IndentStyle) : string :=
  match style with spaces => "spaces" | tabs => "tabs" end.

(** The indentation unit of [formatSuggestionText]: one tab, or
    [indentSize] spaces. *)
Definition indentChar (config : LanguageConfig) : completion string :=
  match cfg_indentStyle config with
  | tabs => Normal (String tab EmptyString)
  | spaces => repeat space (cfg_indentSize config)
  end.

(** [lines.map((line, index) => ...)] in [formatSuggestionText]: the line
    at index 0 is kept, every other has its leading whitespace replaced
    by the indentation unit. *)
Definition reindent (unit : string) (ls : list string) : list string :=
  match ls with
  | [] => []
  | first :: others => first :: map (replace_leading_whitespace unit) others
  end.

Definition formatSuggestionText (text : string) (config : option LanguageConfig)
  : completion string :=
  match config with
  | None => Normal text
  | Some config =>
      let ls := split newline text in
      if (1 <? length ls)%nat then
        unit <- indentChar config ;;
        Normal (join newline (reindent unit ls))
      else Normal text
  end.

Definition enhanceDescription (p : t) (description : string) (context : CodeContext) : string :=
  match JsMap.get (language context) (languageConfigs p) with
  | Some languageConfig =>
      description
        +:+ String newline (String newline EmptyString) +:+ "**Language:** "
        +:+ language context
        +:+ String newline EmptyString +:+ "**Indent Style:** "
        +:+ indent_name (cfg_indentStyle languageConfig)
        +:+ " (" +:+ String_of (cfg_indentSize languageConfig) +:+ ")"
        +:+ String newline EmptyString +:+ "**Comment Style:** "
        +:+ commentStyle languageConfig
  | None => description
  end.

(** The sort key of a suggestion (lines 302-305). *)
Definition priorityBonus (suggestion : Suggestion) : Z :=
  match languageSpecific suggestion with
  | Some true => 100
  | _ => 0
  end.

Definition sortValue (suggestion : Suggestion) : Z :=
  1000 - Math_round (confidence suggestion * 999) - priorityBonus suggestion.

Definition sortText_of (suggestion : Suggestion) : string :=
  padStart 4 "0" (String_of (sortValue suggestion)).

(** [new vscode.Position(0, character)]: a negative character is an
    illegal argument. *)
Definition new_Position (character : Z) : completion Z :=
  if character <? 0 then
    Throw (new_Error "Illegal argument: character must be non-negative")
  else Normal character.

(** [new vscode.Range(start, end)] on two positions of line 0: the range
    starts at the smaller one. *)
Definition new_Range (start finish : Z) : ReplaceRange :=
  {| range_start := Z.min start finish; range_end := Z.max start finish |}.

(** The body of the [map] callback of [convertToCompletionItems]. *)
Definition convert_one (p : t) (context : CodeContext) (suggestion : Suggestion) (index : Z)
  : completion CompletionItem :=
  let languageConfig := JsMap.get (language context) (languageConfigs p) in
  inserted <- formatSuggestionText (text suggestion) languageConfig ;;
  item_range <-
    match replaceRange suggestion with
    | Some given =>
        start <- new_Position (range_start given) ;;
        finish <- new_Position (range_end given) ;;
        Normal (Some (new_Range start finish))
    | None => Normal None
    end ;;
  Normal
    {| label := text suggestion;
       kind := getCompletionItemKind (type suggestion);
       insertText := inserted;
       detail :=
         "AI Suggestion (" +:+ String_of (Math_round (confidence suggestion * 100))
           +:+ "% confidence) - " +:+ language context;
       documentation :=
         match description suggestion with
         | Some d => if truthy_string d then Some (enhanceDescription p d context) else None
         | None => None
         end;
       sortText := sortText_of suggestion;
       range := item_range;
       item_command :=
         {| command := "aiCodeCompletion.trackAcceptance";
            title := "Track Acceptance";
            arg_index := index;
            arg_type := type suggestion;
            arg_language := language context |} |}.

Definition convertToCompletionItems (p : t) (suggestions : list Suggestion) (context : CodeContext)
  : completion (list CompletionItem) :=
  map_index (convert_one p context) 0 suggestions.

(** [cleanupCache] (lines 384-390). *)
Definition cleanupCache (c : JsMap.t SuggestionResponse) : JsMap.t SuggestionResponse :=
  if (100 <? JsMap.size c)%nat then
    let keysToDelete := slice_first 50 (JsMap.keys c) in
    JsMap.delete_each keysToDelete c
  else c.

(** Lines 234-235: [this.cache.set(contextHash, response)] followed by
    [this.cleanupCache()]. *)
Definition cache_response (contextHash : string) (response : SuggestionResponse)
    (c : JsMap.t SuggestionResponse) : JsMap.t SuggestionResponse :=
  cleanupCache (JsMap.set contextHash response c).

Definition clearCache (p : t) : t := with_cache JsMap.empty p.

(** The object literal that [generateContextHash] serialises. *)
Definition json_of_FunctionContext (f : FunctionContext) : Json.value :=
  Json.Obj [ ("name", Some (Json.Str (fn_name f)));
             ("parameters", Some (Json.strings (fn_parameters f)));
             ("returnType", Json.Str <$> fn_returnType f) ].

Definition json_of_ClassContext (c : ClassContext) : Json.value :=
  Json.Obj [ ("name", Some (Json.Str (cls_name c)));
             ("methods", Some (Json.strings (cls_methods c)));
             ("properties", Some (Json.strings (cls_properties c))) ].

Definition hash_projection (context : CodeContext) : Json.value :=
  Json.Obj
    [ ("currentLine", Some (Json.Str (currentLine context)));
      ("previousLines", Some (Json.strings (slice_last 10 (previousLines context))));
      ("language", Some (Json.Str (language context)));
      ("functionContext",
        Some (default Json.Null (json_of_FunctionContext <$> functionContext context)));
      ("classContext",
        Some (default Json.Null (json_of_ClassContext <$> classContext context)));
      ("fileExtension", Json.Str <$> fileExtension context);
      ("indentStyle", (fun s => Json.Str (indent_name s)) <$> indentStyle context);
      ("indentSize", Json.Num <$> indentSize context) ].

(** Two contexts agree on the fields that [generateContextHash] reads. *)
Definition same_projection (a b : CodeContext) : Prop :=
  currentLine a = currentLine b /\
  slice_last 10 (previousLines a) = slice_last 10 (previousLines b) /\
  language a = language b /\
  functionContext a = functionContext b /\
  classContext a = classContext b /\
  fileExtension a = fileExtension b /\
  indentStyle a = indentStyle b /\
  indentSize a = indentSize b.

(** An invocation of [provideCompletionItems] suspended at its [await]:
    the locals it needs when it goes on. *)
Record Pending := {
  startTime : Z;
  codeContext : CodeContext;
  pending_hash : string
}.

(** How the synchronous part of an invocation ends: with the items it
    returns, or suspended on the request. *)
Inductive Step :=
| Returned (items : list CompletionItem)
| Awaiting (k : Pending).

(** [finally { this.isProcessing = false }] after a [return]. *)
Definition finally (p : t) (items : list CompletionItem) : t * list CompletionItem :=
  (with_isProcessing false p, items).

(** The [catch] block, then [finally]. *)
Definition on_catch (p : t) : t * list CompletionItem :=
  finally (with_statsManager (StatisticsManager.recordError "provider_error") p) [].

(** [return this.convertToCompletionItems(...)] inside the [try]. *)
Definition return_items (p : t) (suggestions : list Suggestion) (context : CodeContext)
  : t * list CompletionItem :=
  match convertToCompletionItems p suggestions context with
  | Normal items => finally p items
  | Throw _ => on_catch p
  end.

(** [cachedResponse && cachedResponse.status === 'success']. *)
Definition usable (cached : option SuggestionResponse) : option SuggestionResponse :=
  match cached with
  | Some r => if String.eqb (status r) "success" then Some r else None
  | None => None
  end.

Section Pipeline.

(** The digest [crypto.createHash('md5').update(s).digest('hex')] and the
    context extractor are collaborators of the provider. *)
Variable md5 : string -> string.
Variable extractContext : Document -> Position -> completion CodeContext.

Definition generateContextHash (context : CodeContext) : string :=
  md5 (Json.stringify (hash_projection context)).

Definition lift (r : t * list CompletionItem) : t * Step := (fst r, Returned (snd r)).

(** [provideCompletionItems] up to its [await]. [enabled] is what
    [configManager.isEnabled()] answers and [now] the reading of
    [Date.now()]. *)
Definition provideCompletionItems (enabled : bool) (now : Z)
    (document : Document) (pos : Position) (p : t) : t * Step :=
  if negb enabled then (p, Returned [])
  else if isProcessing p then (p, Returned [])
  else
    let p := with_isProcessing true p in
    match extractContext document pos with
    | Throw _ => lift (on_catch p)
    | Normal extracted =>
        let codeContext := enhanceContextWithLanguageInfo p extracted document in
        if negb (isLanguageSupported p (language codeContext)) then lift (finally p [])
        else
          let contextHash := generateContextHash codeContext in
          match usable (JsMap.get contextHash (cache p)) with
          | Some cachedResponse =>
              let p := with_statsManager StatisticsManager.recordCacheHit p in
              lift (return_items p (suggestions cachedResponse) codeContext)
          | None =>
              (p, Awaiting {| startTime := now; codeContext := codeContext;
                              pending_hash := contextHash |})
          end
    end.

(** [provideCompletionItems] from its [await] on. [awaited] is what
    [apiClient.getSuggestions(codeContext)] settled to, [now] the reading
    of [Date.now()] and [today] the calendar day at that moment. *)
Definition provideCompletionItems_resume (now : Z) (today : string) (k : Pending)
    (awaited : completion SuggestionResponse) (p : t) : t * list CompletionItem :=
  match awaited with
  | Throw _ => on_catch p
  | Normal response =>
      if String.eqb (status response) "success" then
        let p := with_cache (cache_response (pending_hash k) response (cache p)) p in
        let processingTime := now - startTime k in
        let p :=
          with_statsManager
            (StatisticsManager.recordCompletion
               (language (codeContext k))
               (Z.of_nat (length (suggestions response)))
               processingTime
               (cacheHit (metadata response))
               today) p in
        return_items p (suggestions response) (codeContext k)
      else
        finally (with_statsManager (StatisticsManager.recordError "api_error") p) []
  end.

(** *** The cooperative schedule

    The provider, the invocations suspended at their [await] (oldest
    first), and the results returned so far (latest first). *)
Record System := {
  provider : t;
  in_flight : list Pending;
  returned : list (list CompletionItem)
}.

Inductive Event :=
| Trigger (enabled : bool) (now : Z) (document : Document) (pos : Position)
| Settle (index : nat) (now : Z) (today : string) (awaited : completion SuggestionResponse).

Definition run_event (e : Event) (s : System) : System :=
  match e with
  | Trigger enabled now document pos =>
      match provideCompletionItems enabled now document pos (provider s) with
      | (p, Returned items) =>
          {| provider := p; in_flight := in_flight s; returned := items :: returned s |}
      | (p, Awaiting k) =>
          {| provider := p; in_flight := in_flight s ++ [k]; returned := returned s |}
      end
  | Settle index now today awaited =>
      match in_flight s !! index with
      | Some k =>
          let '(p, items) := provideCompletionItems_resume now today k awaited (provider s) in
          {| provider := p; in_flight := delete index (in_flight s);
             returned := items :: returned s |}
      | None => s
      end
  end.

Definition run (events : list Event) (s : System) : System :=
  foldl (fun acc e => run_event e acc) s events.

Definition start (statsManager : StatisticsManager.t) : System :=
  {| provider := create statsManager; in_flight := []; returned := [] |}.

End Pipeline.

(** [Partial<LanguageConfig>]: each property is absent, present with the
    value [undefined], or present with a value. *)
Record PartialLanguageConfig := {
  new_maxTokens : JsObject.Supplied Z;
  new_temperature : JsObject.Supplied Q;
  new_topP : JsObject.Supplied Q;
  new_contextWindow : JsObject.Supplied Z;
  new_commentStyle : JsObject.Supplied string;
  new_indentStyle : JsObject.Supplied IndentStyle;
  new_indentSize : JsObject.Supplied Z;
  new_fileExtensions : JsObject.Supplied (list string)
}.

(** One property of the spread [{...base, ...config}]: that of [config]
    when [config] has it, also with the value [undefined]; then the
    property has no value. *)
Definition spread {A} (old : A) (new : JsObject.Supplied A) : option A :=
  match new with
  | JsObject.Given v => Some v
  | JsObject.Cleared => None
  | JsObject.Absent => Some old
  end.

(** The spread [{...base, ...config}], when every property of it has a
    value; else the object is no [LanguageConfig], and the result is
    [None]. *)
Definition overlay (base : LanguageConfig) (config : PartialLanguageConfig)
  : option LanguageConfig :=
  match spread (maxTokens base) (new_maxTokens config),
        spread (temperature base) (new_temperature config),
        spread (topP base) (new_topP config),
        spread (cfg_contextWindow base) (new_contextWindow config),
        spread (commentStyle base) (new_commentStyle config),
        spread (cfg_indentStyle base) (new_indentStyle config),
        spread (cfg_indentSize base) (new_indentSize config),
        spread (fileExtensions base) (new_fileExtensions config) with
  | Some tokens, Some temp, Some p, Some window, Some comment, Some style, Some size,
    Some extensions =>
      Some {| maxTokens := tokens; temperature := temp; topP := p;
              cfg_contextWindow := window; commentStyle := comment;
              cfg_indentStyle := style; cfg_indentSize := size;
              fileExtensions := extensions |}
  | _, _, _, _, _, _, _, _ => None
  end.

(** The configuration that [updateLanguageConfig] starts from for a
    language it does not know. *)
Definition defaultConfig : LanguageConfig :=
  {| maxTokens := 100; temperature := (7 # 10)%Q; topP := (9 # 10)%Q;
     cfg_contextWindow := 1024; commentStyle := "//"; cfg_indentStyle := spaces;
     cfg_indentSize := 4; fileExtensions := [] |}.

Definition with_languageConfigs (configs : JsMap.t LanguageConfig) (p : t) : t :=
  {| cache := cache p; isProcessing := isProcessing p;
     languageConfigs := configs; statsManager := statsManager p |}.

(** [updateLanguageConfig]: the provider afterwards, when the entry that
    the method stores is a [LanguageConfig]. *)
Definition updateLanguageConfig (language : string) (config : PartialLanguageConfig)
    (p : t) : option t :=
  match JsMap.get language (languageConfigs p) with
  | Some existingConfig =>
      match overlay existingConfig config with
      | Some entry =>
          Some (with_languageConfigs (JsMap.set language entry (languageConfigs p)) p)
      | None => None
      end
  | None =>
      match overlay defaultConfig config with
      | Some entry =>
          Some (with_languageConfigs (JsMap.set language entry (languageConfigs p)) p)
      | None => None
      end
  end.

Definition getSupportedLanguages (p : t) : list string := JsMap.keys (languageConfigs p).

Definition getLanguageConfig (p : t) (language : string) : option LanguageConfig :=
  JsMap.get language (languageConfigs p).

End CompletionProvider.

(** ** [context_extracter.ts] *)

Module ContextExtractor.

Import CompletionProvider.

Definition maxContextLines : Z := 50.

Definition lineCount (document : Document) : Z := Z.of_nat (length (lines document)).

(** [document.lineAt(i).text]: a line number outside the document
    raises. *)
Definition lineAt (document : Document) (i : Z) : completion string :=
  if i <? 0 then Throw (new_Error "Illegal value for `line`")
  else match lines document !! Z.to_nat i with
       | Some text => Normal text
       | None => Throw (new_Error "Illegal value for `line`")
       end.

(** The loop [for (; i < end; i++) lines.push(document.lineAt(i).text)]
    with [rounds] rounds left. *)
Fixpoint push_lines (document : Document) (i : Z) (rounds : nat) (pushed : list string)
  : completion (list string) :=
  match rounds with
  | O => Normal pushed
  | S rest =>
      text <- lineAt document i ;;
      push_lines document (i + 1) rest (pushed ++ [text])
  end.

Definition getPreviousLines (document : Document) (currentLine : Z)
  : completion (list string) :=
  let startLine := Z.max 0 (currentLine - maxContextLines) in
  push_lines document startLine (Z.to_nat (currentLine - startLine)) [].

(** [s.trimEnd()] and [s.trim()]: the whitespace of [trim] is the class
    of whitespace of regular expressions. *)
Fixpoint trimEnd (s : string) : string :=
  match s with
  | EmptyString => EmptyString
  | String c rest =>
      match trimEnd rest with
      | EmptyString => if is_whitespace c then EmptyString else String c EmptyString
      | kept => String c kept
      end
  end.

Definition trim (s : string) : string := trimEnd (skip_whitespace s).

(** The rest of [s] after [prefix], when [s] starts with it. *)
Fixpoint after_prefix (prefix s : string) : option string :=
  match prefix, s with
  | EmptyString, _ => Some s
  | String a prefix', String b s' =>
      if Ascii.eqb a b then after_prefix prefix' s' else None
  | String _ _, EmptyString => None
  end.

(** [line.match(re)] for the pattern: start of input, the keyword, one or
    more whitespace. *)
Definition keyword_then_whitespace (keyword line : string) : bool :=
  match after_prefix keyword line with
  | Some (String c _) => is_whitespace c
  | _ => false
  end.

(** The pattern of the Python imports (lines 168) and the pattern of the
    JavaScript and of the Java imports (lines 173 and 178). *)
Definition matches_import_or_from (line : string) : bool :=
  keyword_then_whitespace "import" line || keyword_then_whitespace "from" line.

Definition matches_import (line : string) : bool :=
  keyword_then_whitespace "import" line.

(** One round of the loop of [extractImports]. *)
Definition scan_line (imports : list string) (text : string) : list string :=
  let line := trim text in
  let imports := if matches_import_or_from line then imports ++ [line] else imports in
  let imports := if matches_import line then imports ++ [line] else imports in
  if matches_import line then imports ++ [line] else imports.

Definition extractImports (document : Document) : list string :=
  let totalLines := Nat.min 50 (length (lines document)) in
  foldl scan_line [] (take totalLines (lines document)).

(** [param.split(re)[0]] for the class of a colon or a whitespace: what
    comes before the first of them. *)
Definition is_separator (c : ascii) : bool := Ascii.eqb c ":" || is_whitespace c.

Fixpoint before_separator (s : string) : string :=
  match s with
  | EmptyString => EmptyString
  | String c rest => if is_separator c then EmptyString else String c (before_separator rest)
  end.

Definition parseParameters (paramString : string) : list string :=
  if negb (truthy_string (trim paramString)) then []
  else List.filter truthy_string
         (map (fun param => before_separator (trim param)) (split "," paramString)).

End ContextExtractor.

(** ** [configuration_manager.ts] *)

Module ConfigurationManager.

Import JsObject.

(** An entry of the ['languages'] setting: the overrides of one language.
    A property that is absent is [None]; a property that is present has
    the type its getter tests for. *)
Record LanguageSettings := {
  ovr_maxSuggestions : option Z;
  ovr_temperature : option Q;
  ovr_maxContextLines : option Z;
  ovr_model : option string;
  ovr_topP : option Q;
  ovr_topK : option Z;
  ovr_repetitionPenalty : option Q;
  ovr_contextWindow : option Z;
  ovr_commentStyle : option string;
  ovr_indentStyle : option string;
  ovr_indentSize : option Z
}.

(** The object literal with no property. *)
Definition no_overrides : LanguageSettings :=
  {| ovr_maxSuggestions := None; ovr_temperature := None; ovr_maxContextLines := None;
     ovr_model := None; ovr_topP := None; ovr_topK := None;
     ovr_repetitionPenalty := None; ovr_contextWindow := None;
     ovr_commentStyle := None; ovr_indentStyle := None; ovr_indentSize := None |}.

(** The section ['aiCodeCompletion'] of the workspace configuration, as
    [loadConfiguration] reads it: a setting the user has not given is
    [None]. The keys of ['languages'] are in the order of the settings
    file (keys that are array indices, which are enumerated first,
    apart). *)
Record Configuration := {
  set_enabled : option bool;
  set_apiUrl : option string;
  set_maxSuggestions : option Z;
  set_temperature : option Q;
  set_maxContextLines : option Z;
  set_autoTrigger : option bool;
  set_model : option string;
  set_topP : option Q;
  set_topK : option Z;
  set_repetitionPenalty : option Q;
  set_contextWindow : option Z;
  set_languages : option (JsMap.t LanguageSettings)
}.

(** The configuration with every setting at its default: what
    [resetToDefaults] leaves. *)
Definition resetToDefaults : Configuration :=
  {| set_enabled := None; set_apiUrl := None; set_maxSuggestions := None;
     set_temperature := None; set_maxContextLines := None; set_autoTrigger := None;
     set_model := None; set_topP := None; set_topK := None;
     set_repetitionPenalty := None; set_contextWindow := None;
     set_languages := None |}.

Definition isEnabled (c : Configuration) : bool := default true (set_enabled c).

Definition getApiUrl (c : Configuration) : string :=
  default "http://localhost:8000" (set_apiUrl c).

Definition getAutoTrigger (c : Configuration) : bool := default true (set_autoTrigger c).

(** [this.configuration.get('languages', {})]. *)
Definition languages (c : Configuration) : JsMap.t LanguageSettings :=
  default JsMap.empty (set_languages c).

(** [languageSettings[language] || {}], read through the properties of
    [LanguageSettings]: an inherited member has none of them, as [{}]. *)
Definition getLanguageConfig (c : Configuration) (language : string) : LanguageSettings :=
  match member language (languages c) with
  | Own l => l
  | Inherited _ | Missing => no_overrides
  end.

(** The shape shared by the numeric and string getters: the override of
    the language when a non-empty language is given and the override is
    present, else the general setting, else the built-in default. *)
Definition cascade {A} (c : Configuration) (language : string)
    (override : LanguageSettings -> option A) (general : option A) (builtin : A) : A :=
  match (if truthy_string language then override (getLanguageConfig c language) else None) with
  | Some v => v
  | None => default builtin general
  end.

Definition getMaxSuggestions (c : Configuration) (language : string) : Z :=
  cascade c language ovr_maxSuggestions (set_maxSuggestions c) 3.

Definition getTemperature (c : Configuration) (language : string) : Q :=
  cascade c language ovr_temperature (set_temperature c) (7 # 10)%Q.

Definition getMaxContextLines (c : Configuration) (language : string) : Z :=
  cascade c language ovr_maxContextLines (set_maxContextLines c) 50.

Definition getModel (c : Configuration) (language : string) : string :=
  cascade c language ovr_model (set_model c) "auto".

Definition getTopP (c : Configuration) (language : string) : Q :=
  cascade c language ovr_topP (set_topP c) (9 # 10)%Q.

Definition getTopK (c : Configuration) (language : string) : Z :=
  cascade c language ovr_topK (set_topK c) 50.

Definition getRepetitionPenalty (c : Configuration) (language : string) : Q :=
  cascade c language ovr_repetitionPenalty (set_repetitionPenalty c) (11 # 10)%Q.

Definition getContextWindow (c : Configuration) (language : string) : Z :=
  cascade c language ovr_contextWindow (set_contextWindow c) 1024.

Definition defaultCommentStyles : list (string * string) :=
  [ ("python", "#"); ("javascript", "//"); ("typescript", "//"); ("java", "//");
    ("cpp", "//"); ("c", "//"); ("c#", "//"); ("go", "//"); ("rust", "//");
    ("php", "//"); ("ruby", "#"); ("html", "<!-- -->"); ("css", "/* */");
    ("sql", "--") ].

Definition defaultIndentStyles : list (string * string) :=
  [ ("python", "spaces"); ("javascript", "spaces"); ("typescript", "spaces");
    ("java", "spaces"); ("cpp", "spaces"); ("c", "spaces"); ("c#", "spaces");
    ("go", "tabs"); ("rust", "spaces"); ("php", "spaces"); ("ruby", "spaces");
    ("html", "spaces"); ("css", "spaces"); ("sql", "spaces") ].

Definition defaultIndentSizes : list (string * Z) :=
  [ ("python", 4); ("javascript", 2); ("typescript", 2); ("java", 4); ("cpp", 4);
    ("c", 4); ("c#", 4); ("go", 1); ("rust", 4); ("php", 4); ("ruby", 2);
    ("html", 2); ("css", 2); ("sql", 2) ].

(** What a getter that falls back on a table of defaults returns: a value
    of the declared type, or the member of [Object.prototype] that the
    table inherits under the name of the language. *)
Inductive Looked (A : Type) :=
| Entry (v : A)
| Member (name : string).
Arguments Entry {A} v.
Arguments Member {A} name.

(** [language ? table[language] || fallback : fallback]. *)
Definition table_default {A} (is_truthy : A -> bool) (table : list (string * A))
    (language : string) (fallback : A) : Looked A :=
  if truthy_string language then
    match member language table with
    | Own v => Entry (if is_truthy v then v else fallback)
    | Inherited name => Member name
    | Missing => Entry fallback
    end
  else Entry fallback.

Definition getCommentStyle (c : Configuration) (language : string) : Looked string :=
  match (if truthy_string language then ovr_commentStyle (getLanguageConfig c language)
         else None) with
  | Some style => Entry style
  | None => table_default truthy_string defaultCommentStyles language "//"
  end.

Definition is_indent_style (style : string) : bool :=
  String.eqb style "spaces" || String.eqb style "tabs".

Definition getIndentStyle (c : Configuration) (language : string) : Looked string :=
  match (if truthy_string language then ovr_indentStyle (getLanguageConfig c language)
         else None) with
  | Some style =>
      if is_indent_style style then Entry style
      else table_default truthy_string defaultIndentStyles language "spaces"
  | None => table_default truthy_string defaultIndentStyles language "spaces"
  end.

Definition getIndentSize (c : Configuration) (language : string) : Looked Z :=
  match (if truthy_string language then ovr_indentSize (getLanguageConfig c language)
         else None) with
  | Some size => Entry size
  | None => table_default (fun n => negb (n =? 0)) defaultIndentSizes language 4
  end.

Definition defaultLanguages : list string :=
  [ "python"; "javascript"; "typescript"; "java"; "cpp"; "c"; "c#";
    "go"; "rust"; "php"; "ruby"; "swift"; "kotlin"; "scala";
    "html"; "css"; "sql"; "bash"; "powershell" ].

(** [[...new Set(xs)]]: the first occurrence of each element, in order. *)
Fixpoint unique (seen xs : list string) : list string :=
  match xs with
  | [] => []
  | x :: rest =>
      if bool_decide (x ∈ seen) then unique seen rest
      else x :: unique (x :: seen) rest
  end.

(** The order of [Array.prototype.sort] without a comparator: by code
    units. *)
Definition code_unit_le (a b : string) : Prop := String.leb a b = true.

#[global] Instance code_unit_le_dec (a b : string) : Decision (code_unit_le a b).
Proof. unfold code_unit_le. apply _. Defined.

Definition sort (xs : list string) : list string := merge_sort code_unit_le xs.

Definition getSupportedLanguages (c : Configuration) : list string :=
  sort (unique [] (defaultLanguages ++ JsMap.keys (languages c))).

Definition isLanguageSupported (c : Configuration) (language : string) : bool :=
  bool_decide (APIClient.toLowerCase language ∈ getSupportedLanguages c).

Definition validModels : list string := [ "codegpt"; "codebert"; "auto" ].

Definition outside_Z (v lo hi : Z) : bool := (v <? lo) || (hi <? v).

Definition outside_Q (v lo hi : Q) : bool :=
  negb (Qle_bool lo v) || negb (Qle_bool v hi).

(** [cond ? [message] : []]. *)
Definition when (cond : bool) (message : string) : list string :=
  if cond then [message] else [].

(** [v !== undefined && bad(v)]. *)
Definition present {A} (v : option A) (bad : A -> bool) : bool :=
  match v with Some x => bad x | None => false end.

(** The checks of [validateConfiguration] on one entry of ['languages'],
    in order. *)
Definition language_errors (langKey : string) (l : LanguageSettings) : list string :=
  when (present (ovr_maxSuggestions l) (fun v => outside_Z v 1 10))
    ("Max suggestions for '" +:+ langKey +:+ "' must be between 1 and 10.")
  ++ when (present (ovr_temperature l) (fun v => outside_Q v 0 2))
    ("Temperature for '" +:+ langKey +:+ "' must be between 0.0 and 2.0.")
  ++ when (present (ovr_maxContextLines l) (fun v => outside_Z v 10 200))
    ("Max context lines for '" +:+ langKey +:+ "' must be between 10 and 200.")
  ++ when (present (ovr_topP l) (fun v => outside_Q v 0 1))
    ("Top_p for '" +:+ langKey +:+ "' must be between 0.0 and 1.0.")
  ++ when (present (ovr_topK l) (fun v => outside_Z v 1 100))
    ("Top_k for '" +:+ langKey +:+ "' must be between 1 and 100.")
  ++ when (present (ovr_repetitionPenalty l) (fun v => outside_Q v (1 # 2) 2))
    ("Repetition penalty for '" +:+ langKey +:+ "' must be between 0.5 and 2.0.")
  ++ when (present (ovr_contextWindow l) (fun v => outside_Z v 256 4096))
    ("Context window for '" +:+ langKey +:+ "' must be between 256 and 4096.")
  ++ when (present (ovr_model l) (fun v => negb (bool_decide (v ∈ validModels))))
    ("Invalid model selection for '" +:+ langKey
       +:+ "'. Must be one of: codegpt, codebert, auto")
  ++ when (present (ovr_indentStyle l) (fun v => negb (is_indent_style v)))
    ("Invalid indent style for '" +:+ langKey +:+ "'. Must be 'spaces' or 'tabs'.")
  ++ when (present (ovr_indentSize l) (fun v => outside_Z v 1 8))
    ("Indent size for '" +:+ langKey +:+ "' must be between 1 and 8.").

Section Validation.

(** [isValidUrl]: whether [new URL(url)] parses with the protocol
    [http:] or [https:]. *)
Variable isValidUrl : string -> bool.

Definition general_errors (c : Configuration) : list string :=
  when (negb (truthy_string (getApiUrl c)) || negb (isValidUrl (getApiUrl c)))
    "Invalid API URL. Please provide a valid HTTP/HTTPS URL."
  ++ when (outside_Z (default 3 (set_maxSuggestions c)) 1 10)
    "General max suggestions must be between 1 and 10."
  ++ when (outside_Q (default (7 # 10)%Q (set_temperature c)) 0 2)
    "General temperature must be between 0.0 and 2.0."
  ++ when (outside_Z (default 50 (set_maxContextLines c)) 10 200)
    "General max context lines must be between 10 and 200."
  ++ when (outside_Q (default (9 # 10)%Q (set_topP c)) 0 1)
    "General top_p must be between 0.0 and 1.0."
  ++ when (outside_Z (default 50 (set_topK c)) 1 100)
    "General top_k must be between 1 and 100."
  ++ when (outside_Q (default (11 # 10)%Q (set_repetitionPenalty c)) (1 # 2) 2)
    "General repetition penalty must be between 0.5 and 2.0."
  ++ when (outside_Z (default 1024 (set_contextWindow c)) 256 4096)
    "General context window must be between 256 and 4096."
  ++ when (negb (bool_decide (default "auto" (set_model c) ∈ validModels)))
    "Invalid general model selection. Must be one of: codegpt, codebert, auto".

Record Validation := {
  valid : bool;
  errors : list string
}.

Definition validateConfiguration (c : Configuration) : Validation :=
  let errors :=
    general_errors c
    ++ match set_languages c with
       | Some languageSettings =>
           concat (map (fun entry => language_errors (fst entry) (snd entry))
                     languageSettings)
       | None => []
       end in
  {| valid := (length errors =? 0)%nat; errors := errors |}.

End Validation.

(** The [config] argument of [updateLanguageConfig], on the properties
    of [LanguageSettings]: each one is absent, present with the value
    [undefined], or present with a value of the type its getter tests
    for. *)
Record LanguageUpdate := {
  upd_maxSuggestions : Supplied Z;
  upd_temperature : Supplied Q;
  upd_maxContextLines : Supplied Z;
  upd_model : Supplied string;
  upd_topP : Supplied Q;
  upd_topK : Supplied Z;
  upd_repetitionPenalty : Supplied Q;
  upd_contextWindow : Supplied Z;
  upd_commentStyle : Supplied string;
  upd_indentStyle : Supplied string;
  upd_indentSize : Supplied Z
}.

(** The spread [{...current, ...config}] as the settings hold it after the
    write: a property of [config] takes precedence, also when its value
    is [undefined], and then the entry has no value for it. *)
Definition merge (current : LanguageSettings) (config : LanguageUpdate) : LanguageSettings :=
  let pick {A} (new : Supplied A) (old : option A) : option A :=
    match new with
    | Given v => Some v
    | Cleared => None
    | Absent => old
    end in
  {| ovr_maxSuggestions := pick (upd_maxSuggestions config) (ovr_maxSuggestions current);
     ovr_temperature := pick (upd_temperature config) (ovr_temperature current);
     ovr_maxContextLines := pick (upd_maxContextLines config) (ovr_maxContextLines current);
     ovr_model := pick (upd_model config) (ovr_model current);
     ovr_topP := pick (upd_topP config) (ovr_topP current);
     ovr_topK := pick (upd_topK config) (ovr_topK current);
     ovr_repetitionPenalty :=
       pick (upd_repetitionPenalty config) (ovr_repetitionPenalty current);
     ovr_contextWindow := pick (upd_contextWindow config) (ovr_contextWindow current);
     ovr_commentStyle := pick (upd_commentStyle config) (ovr_commentStyle current);
     ovr_indentStyle := pick (upd_indentStyle config) (ovr_indentStyle current);
     ovr_indentSize := pick (upd_indentSize config) (ovr_indentSize current) |}.

Definition with_languages (ls : JsMap.t LanguageSettings) (c : Configuration)
  : Configuration :=
  {| set_enabled := set_enabled c; set_apiUrl := set_apiUrl c;
     set_maxSuggestions := set_maxSuggestions c; set_temperature := set_temperature c;
     set_maxContextLines := set_maxContextLines c; set_autoTrigger := set_autoTrigger c;
     set_model := set_model c; set_topP := set_topP c; set_topK := set_topK c;
     set_repetitionPenalty := set_repetitionPenalty c;
     set_contextWindow := set_contextWindow c;
     set_languages := Some ls |}.

(** [updateLanguageConfig] and [removeLanguageConfig]: the configuration
    in which ['languages'] has the value that the method writes. (The
    spread of [currentLanguages[language]] copies the own properties of
    an entry and nothing of an inherited member.) *)
Definition updateLanguageConfig (language : string) (config : LanguageUpdate)
    (c : Configuration) : Configuration :=
  with_languages
    (JsMap.set language (merge (getLanguageConfig c language) config) (languages c)) c.

Definition removeLanguageConfig (language : string) (c : Configuration) : Configuration :=
  with_languages (JsMap.delete language (languages c)) c.

End ConfigurationManager.

(** ** Vocabulary of the statements *)

Module Spec.

Import CompletionProvider.

(** The code unit [sep] does not occur in [s]. *)
Fixpoint no_char (sep : ascii) (s : string) : bool :=
  match s with
  | EmptyString => true
  | String c rest => negb (Ascii.eqb c sep) && no_char sep rest
  end.

(** Every code unit of [s] is in the class of whitespace. *)
Fixpoint all_whitespace (s : string) : bool :=
  match s with
  | EmptyString => true
  | String c rest => is_whitespace c && all_whitespace rest
  end.

(** [s] starts with a code unit in the class of whitespace. *)
Definition starts_with_whitespace (s : string) : bool :=
  match s with
  | EmptyString => false
  | String c _ => is_whitespace c
  end.

(** The indentation that a configuration resolves to: a tab, or
    [indentSize] spaces. *)
Definition indent_code_unit (c : LanguageConfig) : ascii :=
  match cfg_indentStyle c with tabs => tab | spaces => space end.

Definition indent_width (c : LanguageConfig) : Z :=
  match cfg_indentStyle c with tabs => 1 | spaces => cfg_indentSize c end.

(** The indentation exists and the text, with one indentation more on
    each of its lines, is still a string of the engine. *)
Definition fits (text : string) (c : LanguageConfig) : Prop :=
  0 <= indent_width c /\
  Z.of_nat (String.length text) + Z.of_nat (length (split newline text)) * indent_width c
  <= max_string_length.

(** The shape every cache of the provider has: one entry per key and at
    most a hundred of them. *)
Definition well_formed (c : JsMap.t SuggestionResponse) : Prop :=
  NoDup (JsMap.keys c) /\ (JsMap.size c <= 100)%nat.

(** A run of insertions, each one [set] followed by [cleanupCache]. *)
Definition insert_all (insertions : list (string * SuggestionResponse))
    (c : JsMap.t SuggestionResponse) : JsMap.t SuggestionResponse :=
  foldl (fun acc entry => cache_response (fst entry) (snd entry) acc) c insertions.

(** The sort key as a function of the sort value. *)
Definition key (v : Z) : string := padStart 4 "0" (String_of v).

(** The sort values from 0 to 1000, each with its key, and the test that
    two of them compare the same way as numbers and as keys. *)
Definition values : list Z := Z.of_nat <$> seq 0 1001.

Definition keyed : list (Z * string) := (fun v => (v, key v)) <$> values.

Definition agree (a b : Z * string) : bool :=
  Bool.eqb (fst a <? fst b) (string_lt (snd a) (snd b)).

(** The bonus of 100 moves the key forward: the test on a sort value. *)
Definition bonus_first (v : Z) : bool := string_lt (key (v - 100)) (key v).

(** The error that reaches the [catch] block when the request fails. *)
Definition failure_of (outcome : APIClient.HttpOutcome) : option Error :=
  match outcome with
  | APIClient.Rejected error => Some error
  | APIClient.Fulfilled data =>
      if APIClient.isValidSuggestionResponse data then None
      else Some (new_Error "Invalid response format from API")
  end.

(** The counters of the provider's statistics manager. *)
Definition total_requests (p : t) : Z :=
  StatisticsManager.totalRequests (StatisticsManager.stats (statsManager p)).

Definition cache_hits (p : t) : Z :=
  StatisticsManager.cacheHits (StatisticsManager.stats (statsManager p)).

Definition error_count (p : t) : Z :=
  StatisticsManager.errorCount (StatisticsManager.stats (statsManager p)).

(** A cache entry holds a response whose status is ['success']. *)
Definition is_success (entry : string * SuggestionResponse) : Prop :=
  status (snd entry) = "success".

(** The guard is held exactly while one invocation is suspended. *)
Definition guard_consistent (s : System) : Prop :=
  if isProcessing (provider s) then exists k, in_flight s = [k]
  else in_flight s = [].

(** What holds of the provider in every state the schedule reaches. *)
Definition invariant (s : System) : Prop :=
  well_formed (cache (provider s)) /\
  Forall is_success (cache (provider s)) /\
  guard_consistent s.

End Spec.

(** ** Sample data: contexts, replies and a session *)

Module Scenario.

Import CompletionProvider.

(** A reply of the service with nothing in it, for the examples. *)
Definition empty_success : SuggestionResponse :=
  {| suggestions := [];
     metadata := {| processingTimeMs := 0; modelVersion := "codegpt-1"; cacheHit := false;
                    contextHash := ""; languageDetected := None; configUsed := None;
                    modelType := None |};
     status := "success";
     errorMessage := None |}.

(** A hundred entries under the keys "0" ... "99", in that order. *)
Definition hundred_entries : JsMap.t SuggestionResponse :=
  (fun i : nat => (pretty i, empty_success)) <$> seq 0 100.

Definition fibonacci : FunctionContext :=
  {| fn_name := "fibonacci"; fn_parameters := ["n"]; fn_returnType := None |}.

Definition body_lines : list string :=
  [ "def fibonacci(n):"; "    if n < 2:"; "        return n"; "    a = 0";
    "    b = 1"; "    for _ in range(n):"; "        a, b = b, a + b";
    "    # done"; "    print(a)"; "" ].

(** A context inside [fibonacci], and the same place a few edits later:
    the buffer has two more lines above, the cursor is further down, and
    the imports and bindings differ. The last ten preceding lines and
    every other field the fingerprint reads are the same. *)
Definition context_before : CodeContext :=
  {| currentLine := "    return ";
     filePath := None;
     previousLines := body_lines;
     position := {| line := 10; character := 11 |};
     language := "python";
     functionContext := Some fibonacci;
     classContext := None;
     imports := [];
     variables := [];
     fileExtension := Some ".py";
     indentStyle := Some spaces;
     indentSize := Some 4;
     contextWindow := Some 2048 |}.

Definition context_after : CodeContext :=
  {| currentLine := "    return ";
     filePath := Some "/work/fib.py";
     previousLines := "import os" :: "import sys" :: body_lines;
     position := {| line := 12; character := 11 |};
     language := "python";
     functionContext := Some fibonacci;
     classContext := None;
     imports := ["import os"; "import sys"];
     variables := [ {| var_name := "a"; var_type := "number"; var_scope := scope_local |} ];
     fileExtension := Some ".py";
     indentStyle := Some spaces;
     indentSize := Some 4;
     contextWindow := Some 1024 |}.

(** A three-line body with ragged indentation. *)
Definition ragged_body : string :=
  "if n < 2:" +:+ String newline "        return n"
    +:+ String newline (String tab "return fibonacci(n - 1)").

(** A single-line suggestion with the given confidence and
    language-specific flag. *)
Definition suggest (c : Q) (specific : bool) : Suggestion :=
  {| text := "n";
     confidence := c;
     type := "single-line";
     description := None;
     cursorOffset := 0;
     replaceRange := None;
     languageSpecific := Some specific;
     formattingApplied := None |}.

(** [s.substring(0, n)]. *)
Fixpoint prefix (n : nat) (s : string) : string :=
  match n, s with
  | S m, String c rest => String c (prefix m rest)
  | _, _ => EmptyString
  end.

(** An extractor that reads the prefix of the current line and up to
    fifty preceding lines and reports no enclosing construct; like
    [document.lineAt], it raises when the line is not in the document. *)
Definition line_extractor (document : Document) (pos : Position) : completion CodeContext :=
  if (line pos <? 0) || (Z.of_nat (length (lines document)) <=? line pos) then
    Throw (new_Error "Illegal value for `line`")
  else
    let index := Z.to_nat (line pos) in
    Normal
      {| currentLine := prefix (Z.to_nat (character pos)) (default "" (lines document !! index));
         filePath := None;
         previousLines := slice_last 50 (take index (lines document));
         position := pos;
         language := languageId document;
         functionContext := None;
         classContext := None;
         imports := [];
         variables := [];
         fileExtension := None;
         indentStyle := None;
         indentSize := None;
         contextWindow := None |}.

Definition fib_document : Document :=
  {| languageId := "python";
     fileName := "/work/fib.py";
     lines := body_lines ++ [ "    return " ] |}.

Definition cursor : Position := {| line := 10; character := 11 |}.

(** The same buffer after two lines were added at its top: the cursor is
    two lines further down, on the same text. *)
Definition fib_document_later : Document :=
  {| languageId := "python";
     fileName := "/work/fib.py";
     lines := "import os" :: "import sys" :: lines fib_document |}.

Definition cursor_later : Position := {| line := 12; character := 11 |}.

(** A successful reply of the service; the service says it did not take
    it from its own cache. *)
Definition service_reply : SuggestionResponse :=
  {| suggestions :=
       [ {| text := "fibonacci(n - 1) + fibonacci(n - 2)";
            confidence := (9 # 10)%Q;
            type := "single-line";
            description := None;
            cursorOffset := 0;
            replaceRange := None;
            languageSpecific := Some false;
            formattingApplied := None |} ];
     metadata :=
       {| processingTimeMs := 250; modelVersion := "codegpt-1"; cacheHit := false;
          contextHash := ""; languageDetected := Some "python"; configUsed := None;
          modelType := Some "codegpt" |};
     status := "success";
     errorMessage := None |}.

(** A reply whose [status] is not ['success']. *)
Definition partial_reply : SuggestionResponse :=
  {| suggestions := suggestions service_reply;
     metadata := metadata service_reply;
     status := "partial";
     errorMessage := None |}.

Definition today : string := "2025-01-01".

(** What the extractor reads at the later cursor. *)
Definition extracted_later : CodeContext :=
  match line_extractor fib_document_later cursor_later with
  | Normal context => context
  | Throw _ => context_after
  end.

(** A statistics manager with nothing recorded. *)
Definition no_statistics : StatisticsManager.t := StatisticsManager.fresh 0.

(** The locals of the first invocation when it is suspended. *)
Definition first_pending : Pending :=
  match snd (provideCompletionItems Md5.md5 line_extractor true 1000
               fib_document cursor (create no_statistics)) with
  | Awaiting k => k
  | Returned _ =>
      {| startTime := 0;
         codeContext := context_before;
         pending_hash := "" |}
  end.

(** The provider while the first invocation is suspended, and once it
    has settled with [service_reply]. *)
Definition suspended : t := with_isProcessing true (create no_statistics).

Definition settled : t :=
  fst (provideCompletionItems_resume 1250 today first_pending (Normal service_reply) suspended).

Definition session : list Event :=
  [ Trigger true 1000 fib_document cursor;
    Trigger true 1001 fib_document cursor;
    Settle 0 1250 today (Normal service_reply);
    Trigger true 2000 fib_document_later cursor_later ].

End Scenario.

(** ** Vocabulary of the further statements *)

Module Notions.

(** The calls the pipeline and the editor make on the statistics
    manager. *)
Inductive StatsCall :=
| Completion (language : string) (suggestionCount responseTime : Z) (cacheHit : bool)
    (today : string)
| Acceptance (language today : string)
| CacheHit
| Failure (errorType : string).

Definition perform (c : StatsCall) (m : StatisticsManager.t) : StatisticsManager.t :=
  match c with
  | Completion language suggestionCount responseTime cacheHit today =>
      StatisticsManager.recordCompletion language suggestionCount responseTime cacheHit today m
  | Acceptance language today => StatisticsManager.recordAcceptance language today m
  | CacheHit => StatisticsManager.recordCacheHit m
  | Failure errorType => StatisticsManager.recordError errorType m
  end.

Definition perform_all (calls : list StatsCall) (m : StatisticsManager.t)
  : StatisticsManager.t :=
  foldl (fun acc c => perform c acc) m calls.

(** The response times, the suggestion counts and the cache-hit flags of
    the completions among the calls, in order; with a language, those of
    that language only. *)
Definition times_of (calls : list StatsCall) : list Z :=
  omap (fun c => match c with Completion _ _ t _ _ => Some t | _ => None end) calls.

Definition counts_of (calls : list StatsCall) : list Z :=
  omap (fun c => match c with Completion _ n _ _ _ => Some n | _ => None end) calls.

Definition hits_of (calls : list StatsCall) : list bool :=
  omap (fun c => match c with Completion _ _ _ h _ => Some h | _ => None end) calls.

Definition times_in (language : string) (calls : list StatsCall) : list Z :=
  omap (fun c => match c with
                 | Completion l _ t _ _ => if String.eqb l language then Some t else None
                 | _ => None
                 end) calls.

Definition acceptances (calls : list StatsCall) : Z :=
  Z.of_nat (length (omap (fun c => match c with Acceptance _ _ => Some tt | _ => None end) calls)).

Definition cache_hit_calls (calls : list StatsCall) : Z :=
  Z.of_nat (length (omap (fun c => match c with
                                   | CacheHit => Some tt
                                   | Completion _ _ _ true _ => Some tt
                                   | _ => None
                                   end) calls)).

Definition failures (calls : list StatsCall) : Z :=
  Z.of_nat (length (omap (fun c => match c with Failure _ => Some tt | _ => None end) calls)).

(** The mean of a list of response times, as the manager computes it. *)
Definition mean (times : list Z) : Q :=
  (inject_Z (StatisticsManager.sum times) / inject_Z (Z.of_nat (length times)))%Q.

(** The sum of a counter over the entries of a table. *)
Definition sum_over {V : Type} (f : V -> Z) (table : gmap string V) : Z :=
  map_fold (fun _ v acc => f v + acc) 0 table.

(** The suggestion counts of the completions of one language. *)
Definition counts_in (language : string) (calls : list StatsCall) : list Z :=
  omap (fun c => match c with
                 | Completion l n _ _ _ => if String.eqb l language then Some n else None
                 | _ => None
                 end) calls.

(** The completions that no table entry books: the suggestion counts of
    those recorded under a language that is the name of a member of
    [Object.prototype], and the days of those recorded under such a
    day. *)
Definition unbooked_counts (calls : list StatsCall) : list Z :=
  omap (fun c => match c with
                 | Completion l n _ _ _ => if JsObject.inherited l then Some n else None
                 | _ => None
                 end) calls.

Definition unbooked_days (calls : list StatsCall) : list string :=
  omap (fun c => match c with
                 | Completion _ _ _ _ d => if JsObject.inherited d then Some d else None
                 | _ => None
                 end) calls.

(** No entry of the table is under the name of a member of
    [Object.prototype]. *)
Definition own_keys {V : Type} (table : gmap string V) : Prop :=
  forall key, JsObject.inherited key = true -> table !! key = None.

(** The entry of a language, against the completions recorded for it. *)
Definition tracks (language : string) (calls : list StatsCall) (m : StatisticsManager.t)
  : Prop :=
  match StatisticsManager.languageStats (StatisticsManager.stats m) !! language with
  | Some entry =>
      JsObject.inherited language = false /\
      times_in language calls <> [] /\
      StatisticsManager.requests entry = Z.of_nat (length (times_in language calls)) /\
      StatisticsManager.lang_suggestions entry
      = StatisticsManager.sum (counts_in language calls)
  | None => times_in language calls = [] \/ JsObject.inherited language = true
  end.

(** What the tables of the statistics add up to after [calls]. *)
Definition accounted (calls : list StatsCall) (m : StatisticsManager.t) : Prop :=
  let s := StatisticsManager.stats m in
  sum_over StatisticsManager.requests (StatisticsManager.languageStats s)
  = StatisticsManager.totalRequests s - Z.of_nat (length (unbooked_counts calls)) /\
  sum_over StatisticsManager.lang_suggestions (StatisticsManager.languageStats s)
  = StatisticsManager.totalSuggestions s - StatisticsManager.sum (unbooked_counts calls) /\
  sum_over StatisticsManager.day_requests (StatisticsManager.dailyStats s)
  = StatisticsManager.totalRequests s - Z.of_nat (length (unbooked_days calls)) /\
  sum_over StatisticsManager.accepted (StatisticsManager.languageStats s)
  <= StatisticsManager.acceptedSuggestions s /\
  sum_over StatisticsManager.day_accepted (StatisticsManager.dailyStats s)
  <= StatisticsManager.acceptedSuggestions s.

(** *** Configuration *)

(** The ranges that the settings schema documents, on the overrides of
    one language. *)
Definition overrides_in_range (l : ConfigurationManager.LanguageSettings) : Prop :=
  (forall v, ConfigurationManager.ovr_maxSuggestions l = Some v -> 1 <= v <= 10) /\
  (forall v, ConfigurationManager.ovr_temperature l = Some v -> (0 <= v <= 2)%Q) /\
  (forall v, ConfigurationManager.ovr_maxContextLines l = Some v -> 10 <= v <= 200) /\
  (forall v, ConfigurationManager.ovr_topP l = Some v -> (0 <= v <= 1)%Q) /\
  (forall v, ConfigurationManager.ovr_topK l = Some v -> 1 <= v <= 100) /\
  (forall v, ConfigurationManager.ovr_repetitionPenalty l = Some v ->
             ((1 # 2) <= v <= 2)%Q) /\
  (forall v, ConfigurationManager.ovr_contextWindow l = Some v -> 256 <= v <= 4096) /\
  (forall v, ConfigurationManager.ovr_model l = Some v ->
             v ∈ ConfigurationManager.validModels) /\
  (forall v, ConfigurationManager.ovr_indentStyle l = Some v ->
             v = "spaces" \/ v = "tabs") /\
  (forall v, ConfigurationManager.ovr_indentSize l = Some v -> 1 <= v <= 8).

(** The same ranges on the values that an update gives. *)
Definition update_in_range (u : ConfigurationManager.LanguageUpdate) : Prop :=
  (forall v, ConfigurationManager.upd_maxSuggestions u = JsObject.Given v -> 1 <= v <= 10) /\
  (forall v, ConfigurationManager.upd_temperature u = JsObject.Given v -> (0 <= v <= 2)%Q) /\
  (forall v, ConfigurationManager.upd_maxContextLines u = JsObject.Given v ->
             10 <= v <= 200) /\
  (forall v, ConfigurationManager.upd_topP u = JsObject.Given v -> (0 <= v <= 1)%Q) /\
  (forall v, ConfigurationManager.upd_topK u = JsObject.Given v -> 1 <= v <= 100) /\
  (forall v, ConfigurationManager.upd_repetitionPenalty u = JsObject.Given v ->
             ((1 # 2) <= v <= 2)%Q) /\
  (forall v, ConfigurationManager.upd_contextWindow u = JsObject.Given v ->
             256 <= v <= 4096) /\
  (forall v, ConfigurationManager.upd_model u = JsObject.Given v ->
             v ∈ ConfigurationManager.validModels) /\
  (forall v, ConfigurationManager.upd_indentStyle u = JsObject.Given v ->
             v = "spaces" \/ v = "tabs") /\
  (forall v, ConfigurationManager.upd_indentSize u = JsObject.Given v -> 1 <= v <= 8).


(** The same ranges on what the getters resolve for [language]; the
    empty language stands for a call without a language. *)
Definition resolved_in_range (c : ConfigurationManager.Configuration) (language : string)
  : Prop :=
  1 <= ConfigurationManager.getMaxSuggestions c language <= 10 /\
  (0 <= ConfigurationManager.getTemperature c language <= 2)%Q /\
  10 <= ConfigurationManager.getMaxContextLines c language <= 200 /\
  (0 <= ConfigurationManager.getTopP c language <= 1)%Q /\
  1 <= ConfigurationManager.getTopK c language <= 100 /\
  ((1 # 2) <= ConfigurationManager.getRepetitionPenalty c language <= 2)%Q /\
  256 <= ConfigurationManager.getContextWindow c language <= 4096 /\
  ConfigurationManager.getModel c language ∈ ConfigurationManager.validModels.

(** The URL of the service is not empty and [isValidUrl] accepts it. *)
Definition url_accepted (isValidUrl : string -> bool)
    (c : ConfigurationManager.Configuration) : Prop :=
  ConfigurationManager.getApiUrl c <> "" /\
  isValidUrl (ConfigurationManager.getApiUrl c) = true.

(** The limits that the configuration documents, on a request. *)
Definition within_limits (r : APIClient.CompletionRequest) : Prop :=
  1 <= APIClient.max_suggestions r <= 10 /\
  500 <= APIClient.max_length r <= 2048 /\
  (0 <= APIClient.req_temperature r <= 2)%Q /\
  APIClient.model (APIClient.preferences r) ∈ ConfigurationManager.validModels /\
  10 <= APIClient.context_window (APIClient.preferences r) <= 200.

(** The request that [getSuggestions] builds when the configuration
    manager of the client holds [c]. *)
Definition request_of (c : ConfigurationManager.Configuration) (userId sessionId : string)
    (context : CodeContext) : APIClient.CompletionRequest :=
  APIClient.build_request
    (ConfigurationManager.getMaxSuggestions c) (ConfigurationManager.getTemperature c)
    (ConfigurationManager.getModel c) (ConfigurationManager.getAutoTrigger c)
    (ConfigurationManager.getMaxContextLines c) userId sessionId
    context (APIClient.detectLanguage context).

(** [getSuggestions] of a client whose configuration manager holds [c]. *)
Definition dispatch_with (c : ConfigurationManager.Configuration) (userId sessionId : string)
    (post : APIClient.CompletionRequest -> APIClient.HttpOutcome)
    (as_SuggestionResponse : APIClient.body -> SuggestionResponse)
    (startTime endTime : Z) (context : CodeContext) : completion SuggestionResponse :=
  APIClient.getSuggestions
    (ConfigurationManager.getMaxSuggestions c) (ConfigurationManager.getTemperature c)
    (ConfigurationManager.getModel c) (ConfigurationManager.getAutoTrigger c)
    (ConfigurationManager.getMaxContextLines c) userId sessionId
    post as_SuggestionResponse startTime endTime context.

(** *** The provider *)

(** [out] is [text] formatted for [config]: the text itself without a
    configuration or when it has one line; else its first line, and
    every later line with its leading whitespace replaced by the
    indentation of the configuration, a tab or [indentSize] spaces. *)
Definition formatted_as (config : option LanguageConfig) (text out : string) : Prop :=
  match config with
  | None => out = text
  | Some c =>
      match split newline text with
      | first :: second :: rest =>
          exists unit outs,
            String.list_ascii_of_string unit
            = replicate (Z.to_nat (Spec.indent_width c)) (Spec.indent_code_unit c) /\
            split newline out = first :: outs /\
            Forall2 (fun line reindented =>
                       exists blank body,
                         line = blank +:+ body /\ Spec.all_whitespace blank = true /\
                         Spec.starts_with_whitespace body = false /\
                         reindented = unit +:+ body)
                    (second :: rest) outs
      | _ => out = text
      end
  end.

(** The suggestions can be converted for the language of [context]:
    each text, formatted for the configuration of the language, is
    still a string of the engine, and no end of a replace range is
    negative. *)
Definition convertible (p : CompletionProvider.t) (context : CodeContext)
    (suggestions : list Suggestion) : Prop :=
  Forall (fun suggestion =>
            (forall c,
                CompletionProvider.getLanguageConfig p (language context) = Some c ->
                Spec.fits (text suggestion) c) /\
            (forall given,
                replaceRange suggestion = Some given ->
                0 <= range_start given /\ 0 <= range_end given))
         suggestions.

(** The item at [index] presents [suggestion]. *)
Definition presents (p : CompletionProvider.t) (context : CodeContext)
    (index : nat) (suggestion : Suggestion) (item : CompletionProvider.CompletionItem)
  : Prop :=
  CompletionProvider.label item = text suggestion /\
  CompletionProvider.kind item
  = (if String.eqb (type suggestion) "multi-line" then CompletionProvider.kind_Snippet
     else if String.eqb (type suggestion) "block" then CompletionProvider.kind_Module
     else CompletionProvider.kind_Text) /\
  formatted_as (CompletionProvider.getLanguageConfig p (language context))
    (text suggestion) (CompletionProvider.insertText item) /\
  CompletionProvider.range item
  = match replaceRange suggestion with
    | Some given =>
        Some {| range_start := Z.min (range_start given) (range_end given);
                range_end := Z.max (range_start given) (range_end given) |}
    | None => None
    end /\
  CompletionProvider.command (CompletionProvider.item_command item)
  = "aiCodeCompletion.trackAcceptance" /\
  CompletionProvider.arg_index (CompletionProvider.item_command item) = Z.of_nat index /\
  CompletionProvider.arg_type (CompletionProvider.item_command item) = type suggestion /\
  CompletionProvider.arg_language (CompletionProvider.item_command item) = language context.

(** No property of the update has the value [undefined]. *)
Definition all_values (config : CompletionProvider.PartialLanguageConfig) : Prop :=
  CompletionProvider.new_maxTokens config <> JsObject.Cleared /\
  CompletionProvider.new_temperature config <> JsObject.Cleared /\
  CompletionProvider.new_topP config <> JsObject.Cleared /\
  CompletionProvider.new_contextWindow config <> JsObject.Cleared /\
  CompletionProvider.new_commentStyle config <> JsObject.Cleared /\
  CompletionProvider.new_indentStyle config <> JsObject.Cleared /\
  CompletionProvider.new_indentSize config <> JsObject.Cleared /\
  CompletionProvider.new_fileExtensions config <> JsObject.Cleared.

(** The value of a property after an update of the provider: the value
    given, else the former value, else the built-in one. *)
Definition laid_over {A} (supplied : JsObject.Supplied A) (former : option A) (builtin : A)
  : A :=
  match supplied with
  | JsObject.Given v => v
  | _ => default builtin former
  end.

(** The text has more than one line. *)
Definition multi_line (text : string) : Prop := (1 < length (split newline text))%nat.

(** *** The context extractor *)

(** Every code unit of [s] passes [test]. *)
Fixpoint every (test : ascii -> bool) (s : string) : bool :=
  match s with
  | EmptyString => true
  | String c rest => test c && every test rest
  end.

(** A code unit that can stand in a parameter name returned by
    [parseParameters]: no comma, no colon, no whitespace. *)
Definition name_unit (c : ascii) : bool :=
  negb (Ascii.eqb c ",") && negb (ContextExtractor.is_separator c).

(** What [extractImports] reports for one trimmed line. *)
Definition reported (line : string) : list string :=
  if ContextExtractor.matches_import line then [line; line; line]
  else if ContextExtractor.matches_import_or_from line then [line]
  else [].

(** *** JSON texts *)

Definition hex_value (c : ascii) : nat :=
  match c with
  | "0" => 0 | "1" => 1 | "2" => 2 | "3" => 3 | "4" => 4 | "5" => 5 | "6" => 6
  | "7" => 7 | "8" => 8 | "9" => 9 | "a" => 10 | "b" => 11 | "c" => 12
  | "d" => 13 | "e" => 14 | _ => 15
  end%char%nat.

(** Reads back the code unit at the head of the inside of a JSON string
    literal, and what follows it. *)
Definition unescape (s : string) : option (ascii * string) :=
  match s with
  | EmptyString => None
  | String "\" (String k rest) =>
      if Ascii.eqb k "u" then
        match rest with
        | String _ (String _ (String high (String low rest'))) =>
            Some (ascii_of_nat (16 * hex_value high + hex_value low), rest')
        | _ => None
        end
      else if Ascii.eqb k "b" then Some ("008"%char, rest)
      else if Ascii.eqb k "t" then Some ("009"%char, rest)
      else if Ascii.eqb k "n" then Some ("010"%char, rest)
      else if Ascii.eqb k "f" then Some ("012"%char, rest)
      else if Ascii.eqb k "r" then Some ("013"%char, rest)
      else Some (k, rest)
  | String c rest => Some (c, rest)
  end.

(** The members of an object literal, as [JSON.stringify] writes them. *)
Fixpoint members (ps : list (string * option Json.value)) : list string :=
  match ps with
  | [] => []
  | (k, Some x) :: rest =>
      (Json.quote k +:+ String ":" (Json.stringify x)) :: members rest
  | (_, None) :: rest => members rest
  end.

(** *** The history of a cache entry *)

(** Among [events] there is a trigger whose extracted context, once
    enhanced, is [context]. *)
Definition requested
    (extractContext : CompletionProvider.Document -> Position -> completion CodeContext)
    (m0 : StatisticsManager.t) (events : list CompletionProvider.Event)
    (context : CodeContext) : Prop :=
  exists enabled now document pos extracted,
    CompletionProvider.Trigger enabled now document pos ∈ events /\
    extractContext document pos = Normal extracted /\
    context = CompletionProvider.enhanceContextWithLanguageInfo
                (CompletionProvider.create m0) extracted document.

(** The response [r] under [key] was the successful answer to a request
    that an invocation among [events] made for a context with the
    fingerprint [key]. *)
Definition fetched_for (md5 : string -> string)
    (extractContext : CompletionProvider.Document -> Position -> completion CodeContext)
    (m0 : StatisticsManager.t) (events : list CompletionProvider.Event)
    (entry : string * SuggestionResponse) : Prop :=
  status (snd entry) = "success" /\
  (exists context,
      requested extractContext m0 events context /\
      fst entry = CompletionProvider.generateContextHash md5 context) /\
  exists index now today,
    CompletionProvider.Settle index now today (Normal (snd entry)) ∈ events.

End Notions.

(** ** Sample data for the further statements *)

Module Samples.

Import Notions.

Definition python_day : list StatsCall :=
  [ Completion "python" 3 120 false "2025-01-01";
    Acceptance "python" "2025-01-01";
    Completion "go" 2 80 true "2025-01-01";
    CacheHit;
    Acceptance "rust" "2025-01-02";
    Failure "api_error";
    Completion "python" 1 100 false "2025-01-02" ].

(** A configuration with overrides for two languages, one of them under
    a key that is not in lower case. *)
Definition tuned : ConfigurationManager.Configuration :=
  {| ConfigurationManager.set_enabled := None;
     ConfigurationManager.set_apiUrl := Some "https://completions.example.org";
     ConfigurationManager.set_maxSuggestions := Some 5;
     ConfigurationManager.set_temperature := None;
     ConfigurationManager.set_maxContextLines := Some 120;
     ConfigurationManager.set_autoTrigger := None;
     ConfigurationManager.set_model := Some "codegpt";
     ConfigurationManager.set_topP := None;
     ConfigurationManager.set_topK := None;
     ConfigurationManager.set_repetitionPenalty := None;
     ConfigurationManager.set_contextWindow := None;
     ConfigurationManager.set_languages :=
       Some [ ("python",
               {| ConfigurationManager.ovr_maxSuggestions := Some 8;
                  ConfigurationManager.ovr_temperature := Some (3 # 10)%Q;
                  ConfigurationManager.ovr_maxContextLines := None;
                  ConfigurationManager.ovr_model := Some "codebert";
                  ConfigurationManager.ovr_topP := None;
                  ConfigurationManager.ovr_topK := None;
                  ConfigurationManager.ovr_repetitionPenalty := None;
                  ConfigurationManager.ovr_contextWindow := None;
                  ConfigurationManager.ovr_commentStyle := None;
                  ConfigurationManager.ovr_indentStyle := Some "tabs";
                  ConfigurationManager.ovr_indentSize := Some 8 |});
              ("COBOL",
               {| ConfigurationManager.ovr_maxSuggestions := None;
                  ConfigurationManager.ovr_temperature := None;
                  ConfigurationManager.ovr_maxContextLines := Some 10;
                  ConfigurationManager.ovr_model := None;
                  ConfigurationManager.ovr_topP := None;
                  ConfigurationManager.ovr_topK := None;
                  ConfigurationManager.ovr_repetitionPenalty := None;
                  ConfigurationManager.ovr_contextWindow := None;
                  ConfigurationManager.ovr_commentStyle := Some "*>";
                  ConfigurationManager.ovr_indentStyle := None;
                  ConfigurationManager.ovr_indentSize := None |}) ] |}.

(** [isValidUrl] on the URLs of the samples: the protocol is read off
    the prefix. *)
Definition http_or_https (url : string) : bool :=
  String.prefix "http://" url || String.prefix "https://" url.

(** An update that sets the temperature and the indentation, and gives
    the model as [undefined]. *)
Definition cooler : ConfigurationManager.LanguageUpdate :=
  {| ConfigurationManager.upd_maxSuggestions := JsObject.Absent;
     ConfigurationManager.upd_temperature := JsObject.Given (1 # 10)%Q;
     ConfigurationManager.upd_maxContextLines := JsObject.Absent;
     ConfigurationManager.upd_model := JsObject.Cleared;
     ConfigurationManager.upd_topP := JsObject.Absent;
     ConfigurationManager.upd_topK := JsObject.Absent;
     ConfigurationManager.upd_repetitionPenalty := JsObject.Absent;
     ConfigurationManager.upd_contextWindow := JsObject.Absent;
     ConfigurationManager.upd_commentStyle := JsObject.Absent;
     ConfigurationManager.upd_indentStyle := JsObject.Given "spaces";
     ConfigurationManager.upd_indentSize := JsObject.Given 2 |}.

(** An update that sets a negative indent size. *)
Definition negative_indent : CompletionProvider.PartialLanguageConfig :=
  {| CompletionProvider.new_maxTokens := JsObject.Absent;
     CompletionProvider.new_temperature := JsObject.Absent;
     CompletionProvider.new_topP := JsObject.Absent;
     CompletionProvider.new_contextWindow := JsObject.Absent;
     CompletionProvider.new_commentStyle := JsObject.Absent;
     CompletionProvider.new_indentStyle := JsObject.Absent;
     CompletionProvider.new_indentSize := JsObject.Given (-1);
     CompletionProvider.new_fileExtensions := JsObject.Absent |}.

(** A suggestion of several lines. *)
Definition block_suggestion : Suggestion :=
  {| text := Scenario.ragged_body;
     confidence := (8 # 10)%Q;
     type := "multi-line";
     description := None;
     cursorOffset := 0;
     replaceRange := None;
     languageSpecific := Some true;
     formattingApplied := None |}.

(** A suggestion whose replace range has its ends reversed, and one
    whose replace range starts before the line. *)
Definition reversed_range : Suggestion :=
  {| text := "n";
     confidence := (5 # 10)%Q;
     type := "block";
     description := None;
     cursorOffset := 0;
     replaceRange := Some {| range_start := 9; range_end := 3 |};
     languageSpecific := None;
     formattingApplied := None |}.

Definition negative_range : Suggestion :=
  {| text := "n";
     confidence := (5 # 10)%Q;
     type := "block";
     description := None;
     cursorOffset := 0;
     replaceRange := Some {| range_start := -1; range_end := 3 |};
     languageSpecific := None;
     formattingApplied := None |}.

(** The provider of the constructor after an update that sets a negative
    indent size for Python. *)
Definition misconfigured : CompletionProvider.t :=
  default (CompletionProvider.create Scenario.no_statistics)
    (CompletionProvider.updateLanguageConfig "python" negative_indent
       (CompletionProvider.create Scenario.no_statistics)).

(** A module with a header of imports. *)
Definition with_imports : CompletionProvider.Document :=
  {| CompletionProvider.languageId := "python";
     CompletionProvider.fileName := "/work/tool.py";
     CompletionProvider.lines :=
       [ "import os"; "  from typing import List  "; "important = 1";
         "import"; "def main(argv: List[str], verbose = False) -> int:" ] |}.

End Samples.

(* ================================================================== *)
(** * Part II: verification *)
(* ================================================================== *)

(** ** Strings: splitting into lines and joining them back *)

Module StringFacts.

Import Spec.

#[local] Arguments String.append !_ _ / : simpl nomatch.

Lemma split_not_nil sep s : split sep s <> [].
Proof.
  destruct s as [|c s]; simpl; [discriminate |].
  destruct (Ascii.eqb c sep); [discriminate |].
  destruct (split sep s); discriminate.
Qed.

Lemma split_pieces_clean sep s : Forall (fun piece => no_char sep piece = true) (split sep s).
Proof.
  induction s as [|c s IH]; simpl.
  - repeat constructor.
  - destruct (Ascii.eqb c sep) eqn:E.
    + constructor; [reflexivity | exact IH].
    + destruct (split sep s) as [|piece pieces].
      * constructor; [simpl; now rewrite E | constructor].
      * inversion IH; subst. constructor; [simpl; rewrite E; simpl; assumption | assumption].
Qed.

Lemma join_split sep s : join sep (split sep s) = s.
Proof.
  induction s as [|c s IH]; simpl; [reflexivity |].
  destruct (Ascii.eqb c sep) eqn:E.
  - apply Ascii.eqb_eq in E. subst c.
    pose proof (split_not_nil sep s) as Hne.
    destruct (split sep s) as [|piece pieces]; [congruence |].
    simpl in *. now rewrite IH.
  - pose proof (split_not_nil sep s) as Hne.
    destruct (split sep s) as [|piece pieces]; [congruence |].
    destruct pieces as [|piece' pieces]; simpl in *; now rewrite <- IH.
Qed.

Lemma split_clean sep s : no_char sep s = true -> split sep s = [s].
Proof.
  induction s as [|c s IH]; simpl; [reflexivity |].
  intros H. apply andb_prop in H as [Hc Hs].
  apply negb_true_iff in Hc. rewrite Hc, (IH Hs). reflexivity.
Qed.

Lemma split_append sep a b :
  no_char sep a = true -> split sep (a +:+ String sep b) = a :: split sep b.
Proof.
  induction a as [|c a IH]; simpl.
  - intros _. now rewrite Ascii.eqb_refl.
  - intros H. apply andb_prop in H as [Hc Ha].
    apply negb_true_iff in Hc. rewrite Hc, (IH Ha). reflexivity.
Qed.

Lemma split_join sep pieces :
  pieces <> [] ->
  Forall (fun piece => no_char sep piece = true) pieces ->
  split sep (join sep pieces) = pieces.
Proof.
  induction pieces as [|piece rest IH]; [congruence |].
  intros _ Hall. inversion Hall as [|? ? Hpiece Hrest]; subst.
  destruct rest as [|piece' rest].
  - simpl. now apply split_clean.
  - change (join sep (piece :: piece' :: rest))
      with (piece +:+ String sep (join sep (piece' :: rest))).
    rewrite split_append by assumption.
    now rewrite IH.
Qed.

Lemma no_char_append sep a b :
  no_char sep (a +:+ b) = no_char sep a && no_char sep b.
Proof.
  induction a as [|c a IH]; simpl; [reflexivity |].
  now rewrite IH, andb_assoc.
Qed.

Lemma no_char_skip_whitespace sep s :
  no_char sep s = true -> no_char sep (skip_whitespace s) = true.
Proof.
  induction s as [|c s IH]; simpl; [reflexivity |].
  intros H. destruct (is_whitespace c); [| exact H].
  apply andb_prop in H as [_ Hs]. now apply IH.
Qed.




Lemma replicate_space_whitespace n : all_whitespace (replicate_char n space) = true.
Proof. induction n as [|n IH]; simpl; [reflexivity | exact IH]. Qed.

Lemma replicate_space_clean n : no_char newline (replicate_char n space) = true.
Proof. induction n as [|n IH]; simpl; [reflexivity | exact IH]. Qed.

End StringFacts.

(** ** The insertion-ordered map *)

Module JsMapFacts.

Section Facts.
Context {V : Type}.
Implicit Types (m : JsMap.t V) (k : string) (v : V).

Lemma get_app k m1 m2 :
  JsMap.get k (m1 ++ m2)
  = match JsMap.get k m1 with Some v => Some v | None => JsMap.get k m2 end.
Proof.
  induction m1 as [|[k' v'] m1 IH]; simpl; [reflexivity |].
  destruct (String.eqb k k'); [reflexivity | exact IH].
Qed.

Lemma get_None_iff k m : JsMap.get k m = None <-> k ∉ JsMap.keys m.
Proof.
  induction m as [|[k' v'] m IH]; simpl.
  - split; [intros _; apply not_elem_of_nil | reflexivity].
  - destruct (String.eqb k k') eqn:E.
    + apply String.eqb_eq in E. subst k'. split; [discriminate |].
      intros H. exfalso. apply H. left.
    + apply String.eqb_neq in E. rewrite IH, not_elem_of_cons. tauto.
Qed.

Lemma set_fresh k v m : JsMap.get k m = None -> JsMap.set k v m = m ++ [(k, v)].
Proof.
  induction m as [|[k' v'] m IH]; simpl; [reflexivity |].
  destruct (String.eqb k k'); [discriminate |].
  intros H. now rewrite IH.
Qed.

Lemma set_present_keys k v m :
  JsMap.get k m <> None -> JsMap.keys (JsMap.set k v m) = JsMap.keys m.
Proof.
  induction m as [|[k' v'] m IH]; simpl; [congruence |].
  destruct (String.eqb k k') eqn:E.
  - intros _. apply String.eqb_eq in E. now subst.
  - intros H. unfold JsMap.keys in *. rewrite !fmap_cons. f_equal. now apply IH.
Qed.

Lemma get_set_same k v m : JsMap.get k (JsMap.set k v m) = Some v.
Proof.
  induction m as [|[k' v'] m IH]; simpl.
  - now rewrite String.eqb_refl.
  - destruct (String.eqb k k') eqn:E; simpl.
    + now rewrite String.eqb_refl.
    + now rewrite E.
Qed.

Lemma size_set k v m :
  JsMap.size (JsMap.set k v m)
  = match JsMap.get k m with Some _ => JsMap.size m | None => S (JsMap.size m) end.
Proof.
  unfold JsMap.size.
  induction m as [|[k' v'] m IH]; simpl; [reflexivity |].
  destruct (String.eqb k k'); simpl; [reflexivity |].
  rewrite IH. now destruct (JsMap.get k m).
Qed.

Lemma keys_set_NoDup k v m : NoDup (JsMap.keys m) -> NoDup (JsMap.keys (JsMap.set k v m)).
Proof.
  intros Hnd. destruct (JsMap.get k m) eqn:E.
  - rewrite set_present_keys by congruence. exact Hnd.
  - rewrite set_fresh by exact E. unfold JsMap.keys. rewrite fmap_app. simpl.
    apply NoDup_app. split; [exact Hnd |]. split.
    + intros x Hx Hin. apply list_elem_of_singleton in Hin. subst x.
      now apply get_None_iff in E.
    + apply NoDup_singleton.
Qed.

Lemma Forall_set (P : string * V -> Prop) k v m :
  Forall P m -> P (k, v) -> Forall P (JsMap.set k v m).
Proof.
  intros Hm Hkv. induction Hm as [|[k' v'] m Hx Hm IH]; simpl.
  - now constructor.
  - destruct (String.eqb k k'); constructor; assumption.
Qed.

Lemma Forall_delete (P : string * V -> Prop) k m :
  Forall P m -> Forall P (JsMap.delete k m).
Proof.
  intros Hm. induction Hm as [|[k' v'] m Hx Hm IH]; simpl.
  - constructor.
  - destruct (String.eqb k k'); [assumption | now constructor].
Qed.

Lemma Forall_delete_each (P : string * V -> Prop) ks m :
  Forall P m -> Forall P (JsMap.delete_each ks m).
Proof.
  unfold JsMap.delete_each. revert m.
  induction ks as [|k ks IH]; simpl; intros m Hm; [exact Hm |].
  apply IH. now apply Forall_delete.
Qed.

(** Deleting, in order, the keys of a prefix of the map leaves the rest. *)
Lemma delete_each_prefix m1 m2 :
  NoDup (JsMap.keys (m1 ++ m2)) ->
  JsMap.delete_each (JsMap.keys m1) (m1 ++ m2) = m2.
Proof.
  unfold JsMap.delete_each, JsMap.keys.
  induction m1 as [|[k v] m1 IH]; simpl; intros Hnd; [reflexivity |].
  rewrite String.eqb_refl. apply IH. now apply NoDup_cons_1_2 in Hnd.
Qed.

Lemma delete_each_take n m :
  NoDup (JsMap.keys m) ->
  JsMap.delete_each (slice_first n (JsMap.keys m)) m = drop n m.
Proof.
  intros Hnd. unfold slice_first, JsMap.keys.
  rewrite <- fmap_take.
  rewrite <- (take_drop n m) at 2.
  apply delete_each_prefix. now rewrite take_drop.
Qed.

End Facts.

End JsMapFacts.

(** ** The suggestion cache: bound and eviction *)

Module CacheFacts.

Import CompletionProvider Spec Scenario.

Lemma cleanupCache_small c : (JsMap.size c <= 100)%nat -> cleanupCache c = c.
Proof.
  intros H. unfold cleanupCache.
  destruct (Nat.ltb_spec 100 (JsMap.size c)); [lia | reflexivity].
Qed.

Lemma cleanupCache_large c :
  NoDup (JsMap.keys c) -> (100 < JsMap.size c)%nat -> cleanupCache c = drop 50 c.
Proof.
  intros Hnd H. unfold cleanupCache.
  destruct (Nat.ltb_spec 100 (JsMap.size c)); [| lia].
  now apply JsMapFacts.delete_each_take.
Qed.

Lemma cleanupCache_Forall (P : string * SuggestionResponse -> Prop) c :
  Forall P c -> Forall P (cleanupCache c).
Proof.
  intros H. unfold cleanupCache.
  destruct (100 <? JsMap.size c)%nat; [| exact H].
  now apply JsMapFacts.Forall_delete_each.
Qed.

Lemma cleanupCache_keys_NoDup c : NoDup (JsMap.keys c) -> NoDup (JsMap.keys (cleanupCache c)).
Proof.
  intros Hnd. unfold cleanupCache.
  destruct (100 <? JsMap.size c)%nat; [| exact Hnd].
  rewrite JsMapFacts.delete_each_take by exact Hnd.
  unfold JsMap.keys in *. rewrite fmap_drop.
  rewrite <- (take_drop 50 (fst <$> c)) in Hnd.
  now apply NoDup_app in Hnd as (_ & _ & Hdrop).
Qed.

Lemma cache_response_well_formed k r c :
  well_formed c -> well_formed (cache_response k r c).
Proof.
  intros [Hnd Hsize]. unfold cache_response.
  pose proof (JsMapFacts.keys_set_NoDup k r c Hnd) as Hnd'.
  pose proof (JsMapFacts.size_set k r c) as Hset.
  split; [now apply cleanupCache_keys_NoDup |].
  destruct (Nat.le_gt_cases (JsMap.size (JsMap.set k r c)) 100) as [Hle | Hgt].
  - now rewrite cleanupCache_small.
  - rewrite cleanupCache_large by assumption.
    unfold JsMap.size in *. rewrite length_drop.
    destruct (JsMap.get k c); lia.
Qed.

(** The entry just stored survives the clean-up that follows it. *)
Lemma get_cache_response k r c :
  well_formed c -> JsMap.get k (cache_response k r c) = Some r.
Proof.
  intros [Hnd Hsize]. unfold cache_response.
  pose proof (JsMapFacts.keys_set_NoDup k r c Hnd) as Hnd'.
  pose proof (JsMapFacts.size_set k r c) as Hset.
  destruct (Nat.le_gt_cases (JsMap.size (JsMap.set k r c)) 100) as [Hle | Hgt].
  - rewrite cleanupCache_small by assumption. apply JsMapFacts.get_set_same.
  - rewrite cleanupCache_large by assumption.
    destruct (JsMap.get k c) eqn:E; [lia |].
    rewrite JsMapFacts.set_fresh by exact E.
    unfold JsMap.size in *. rewrite drop_app_le by lia.
    rewrite JsMapFacts.get_app.
    assert (JsMap.get k (drop 50 c) = None) as ->.
    { apply JsMapFacts.get_None_iff. apply JsMapFacts.get_None_iff in E.
      intros Hin. apply E. unfold JsMap.keys in *. rewrite fmap_drop in Hin.
      rewrite <- (take_drop 50 (fst <$> c)). apply elem_of_app. now right. }
    simpl. now rewrite String.eqb_refl.
Qed.

Lemma insert_all_well_formed insertions c :
  well_formed c -> well_formed (insert_all insertions c).
Proof.
  unfold insert_all. revert c.
  induction insertions as [|[k r] rest IH]; simpl; intros c Hc; [exact Hc |].
  apply IH. now apply cache_response_well_formed.
Qed.

Lemma empty_well_formed : well_formed JsMap.empty.
Proof. split; [apply NoDup_nil_2 | simpl; lia]. Qed.

(** C2. Cache bound: starting from the empty cache, after any sequence of
    insertions (each one [cache.set] followed by [cleanupCache], as the
    pipeline performs them) the cache holds at most 100 entries. *)
Theorem cache_size_bounded (insertions : list (string * SuggestionResponse)) :
  (JsMap.size (insert_all insertions JsMap.empty) <= 100)%nat.
Proof. apply (insert_all_well_formed insertions JsMap.empty empty_well_formed). Qed.

(** C3. Batch eviction: when an insertion under a new key brings a cache
    of 100 entries to 101, [cleanupCache] removes exactly the 50 entries
    inserted first and keeps the 51 inserted last, in their order, the
    new entry among them. *)
Theorem cleanupCache_evicts_oldest_half
    (c : JsMap.t SuggestionResponse) (k : string) (r : SuggestionResponse) :
  NoDup (JsMap.keys c) ->
  JsMap.size c = 100%nat ->
  JsMap.get k c = None ->
  let full := JsMap.set k r c in
  JsMap.size full = 101%nat /\
  full = take 50 c ++ cleanupCache full /\
  cleanupCache full = drop 50 c ++ [(k, r)] /\
  JsMap.size (cleanupCache full) = 51%nat /\
  JsMap.get k (cleanupCache full) = Some r.
Proof.
  intros Hnd Hsize Hfresh full.
  assert (full = c ++ [(k, r)]) as Hfull by now apply JsMapFacts.set_fresh.
  assert (JsMap.size full = 101%nat) as Hsize'.
  { rewrite Hfull. unfold JsMap.size in *. rewrite length_app. simpl. lia. }
  assert (cleanupCache full = drop 50 c ++ [(k, r)]) as Hclean.
  { rewrite cleanupCache_large.
    - rewrite Hfull. unfold JsMap.size in *. now rewrite drop_app_le by lia.
    - now apply JsMapFacts.keys_set_NoDup.
    - lia. }
  split; [exact Hsize' |]. split.
  - rewrite Hclean, Hfull, app_assoc. now rewrite take_drop.
  - split; [exact Hclean |]. split.
    + rewrite Hclean. unfold JsMap.size in *. rewrite length_app, length_drop. simpl. lia.
    + apply (get_cache_response k r c). split; [exact Hnd | lia].
Qed.

Lemma cleanupCache_evicts_oldest_half_witness :
  let full := JsMap.set "100" empty_success hundred_entries in
  JsMap.size full = 101%nat /\
  full = take 50 hundred_entries ++ cleanupCache full /\
  cleanupCache full = drop 50 hundred_entries ++ [("100", empty_success)] /\
  JsMap.size (cleanupCache full) = 51%nat /\
  JsMap.get "100" (cleanupCache full) = Some empty_success.
Proof.
  apply (cleanupCache_evicts_oldest_half hundred_entries "100" empty_success).
  - apply (bool_decide_unpack (NoDup (JsMap.keys hundred_entries))). vm_compute. exact I.
  - reflexivity.
  - vm_compute. reflexivity.
Defined.

End CacheFacts.

(** ** The statistics manager's rate queries *)

Module StatisticsFacts.

Import StatisticsManager.

(** Division by a zero counter is where a rate would stop being a finite
    number. *)
Example divide_by_zero : divide 0 0 = NaN /\ divide 3 0 = Infinite false.
Proof. split; reflexivity. Qed.

Lemma divide_finite a b : b <> 0 -> divide a b = Finite (inject_Z a / inject_Z b)%Q.
Proof.
  intros Hb. unfold divide.
  destruct (Z.eqb_spec b 0); [contradiction | reflexivity].
Qed.

(** C10. The rate queries are division-safe: whatever the counters,
    [getAcceptanceRate] and [getCacheHitRate] yield a finite number, which
    is 0 when the denominator counter is 0 and otherwise the quotient of
    the two counters times 100; the division is never evaluated with a
    zero divisor. *)
Theorem rate_queries_division_safe (m : t) :
  getAcceptanceRate m
  = Finite (if totalSuggestions (stats m) =? 0 then 0
            else inject_Z (acceptedSuggestions (stats m))
                 / inject_Z (totalSuggestions (stats m)) * 100)%Q
  /\
  getCacheHitRate m
  = Finite (if totalRequests (stats m) =? 0 then 0
            else inject_Z (cacheHits (stats m))
                 / inject_Z (totalRequests (stats m)) * 100)%Q.
Proof.
  unfold getAcceptanceRate, getCacheHitRate. split.
  - destruct (Z.eqb_spec (totalSuggestions (stats m)) 0) as [| Hne]; [reflexivity |].
    now rewrite (divide_finite _ _ Hne).
  - destruct (Z.eqb_spec (totalRequests (stats m)) 0) as [| Hne]; [reflexivity |].
    now rewrite (divide_finite _ _ Hne).
Qed.

End StatisticsFacts.

(** ** The fingerprint *)

Module FingerprintFacts.

Import CompletionProvider Spec Scenario.

Lemma hash_projection_agrees (a b : CodeContext) :
  same_projection a b -> hash_projection a = hash_projection b.
Proof.
  intros (Hline & Hprev & Hlang & Hfn & Hcls & Hext & Hstyle & Hsize).
  unfold hash_projection. congruence.
Qed.

Lemma generateContextHash_agrees (md5 : string -> string) (a b : CodeContext) :
  same_projection a b -> generateContextHash md5 a = generateContextHash md5 b.
Proof.
  intros H. unfold generateContextHash. now rewrite (hash_projection_agrees a b H).
Qed.

(** What is serialised and digested for [context_before]. *)
Example fibonacci_fingerprint :
  generateContextHash Md5.md5 context_before = "b670326f594e7849075fc42f4a660827".
Proof. vm_compute. reflexivity. Qed.

(** C1. Fingerprint determinism: two contexts that agree on the current
    line prefix, the last ten previous lines, the language, the enclosing
    function and class descriptors, the file extension, the indent style
    and the indent size have the same [generateContextHash], whatever the
    digest function and whatever their other fields (cursor position,
    imports, variable bindings, file path, context window, older
    lines). *)
Theorem fingerprint_determinism (md5 : string -> string) (a b : CodeContext) :
  currentLine a = currentLine b ->
  slice_last 10 (previousLines a) = slice_last 10 (previousLines b) ->
  language a = language b ->
  functionContext a = functionContext b ->
  classContext a = classContext b ->
  fileExtension a = fileExtension b ->
  indentStyle a = indentStyle b ->
  indentSize a = indentSize b ->
  generateContextHash md5 a = generateContextHash md5 b.
Proof.
  intros. apply generateContextHash_agrees. repeat split; assumption.
Qed.

Lemma fingerprint_determinism_witness :
  context_before <> context_after /\
  generateContextHash Md5.md5 context_before = generateContextHash Md5.md5 context_after.
Proof.
  split; [discriminate |].
  apply (fingerprint_determinism Md5.md5 context_before context_after); reflexivity.
Defined.

End FingerprintFacts.

(** ** Formatting of multi-line suggestions *)

Module FormatFacts.

Import CompletionProvider Spec Scenario StringFacts.

#[local] Arguments String.append !_ _ / : simpl nomatch.

Lemma indentChar_shape config unit :
  indentChar config = Normal unit ->
  all_whitespace unit = true /\ no_char newline unit = true.
Proof.
  unfold indentChar, repeat. destruct (cfg_indentStyle config).
  - destruct (cfg_indentSize config <? 0); [discriminate |].
    destruct (max_string_length <? cfg_indentSize config); [discriminate |].
    intros [= <-]. split; [apply replicate_space_whitespace | apply replicate_space_clean].
  - intros [= <-]. split; reflexivity.
Qed.

Lemma indentChar_resolved config :
  0 <= indent_width config <= max_string_length ->
  indentChar config
  = Normal (replicate_char (Z.to_nat (indent_width config)) (indent_code_unit config)).
Proof.
  unfold indentChar, repeat, indent_width, indent_code_unit.
  destruct (cfg_indentStyle config); [| reflexivity]. intros [Hlow Hhigh].
  destruct (Z.ltb_spec (cfg_indentSize config) 0); [lia |].
  destruct (Z.ltb_spec max_string_length (cfg_indentSize config)); [lia | reflexivity].
Qed.

Lemma indentChar_defined config :
  cfg_indentStyle config = tabs \/ 0 <= cfg_indentSize config <= max_string_length ->
  exists unit, indentChar config = Normal unit.
Proof.
  intros Hc. rewrite indentChar_resolved; [eauto |].
  unfold indent_width, max_string_length.
  destruct Hc as [-> | Hsize]; [lia |].
  destruct (cfg_indentStyle config); [exact Hsize | lia].
Qed.

Lemma fits_width text config :
  fits text config -> 0 <= indent_width config <= max_string_length.
Proof.
  intros [Hlow Hfit]. split; [exact Hlow |].
  pose proof (split_not_nil newline text) as Hne.
  assert (1 <= Z.of_nat (length (split newline text)))
    by (destruct (split newline text); [congruence | simpl; lia]).
  nia.
Qed.

Lemma replicate_char_units n c : String.list_ascii_of_string (replicate_char n c) = replicate n c.
Proof. induction n as [| n IH]; simpl; [reflexivity | now rewrite IH]. Qed.

Lemma leading_whitespace line :
  exists blank,
    line = blank +:+ skip_whitespace line /\
    all_whitespace blank = true /\
    starts_with_whitespace (skip_whitespace line) = false.
Proof.
  induction line as [| c line (blank & Hline & Hblank & Hbody)]; simpl.
  - exists EmptyString. repeat split.
  - destruct (is_whitespace c) eqn:Hc.
    + exists (String c blank). simpl. rewrite Hc, Hblank. split; [now f_equal | now split].
    + exists EmptyString. simpl. now rewrite Hc.
Qed.


Lemma reindent_clean unit ls :
  no_char newline unit = true ->
  Forall (fun piece => no_char newline piece = true) ls ->
  Forall (fun piece => no_char newline piece = true) (reindent unit ls).
Proof.
  intros Hu Hls. destruct Hls as [|first others Hfirst Hothers]; simpl; constructor.
  - exact Hfirst.
  - apply Forall_map. eapply Forall_impl; [exact Hothers |].
    intros line Hline. simpl. unfold replace_leading_whitespace.
    rewrite no_char_append, Hu. simpl. now apply no_char_skip_whitespace.
Qed.


Lemma split_formatted unit text :
  no_char newline unit = true ->
  split newline (join newline (reindent unit (split newline text)))
  = reindent unit (split newline text).
Proof.
  intros Hu. apply split_join.
  - pose proof (split_not_nil newline text) as Hne.
    destruct (split newline text); [congruence | discriminate].
  - apply reindent_clean; [exact Hu | apply split_pieces_clean].
Qed.

Lemma formatSuggestionText_multi config unit text :
  indentChar config = Normal unit ->
  (1 < length (split newline text))%nat ->
  formatSuggestionText text (Some config)
  = Normal (join newline (reindent unit (split newline text))).
Proof.
  intros Hunit Hlen. unfold formatSuggestionText.
  destruct (Nat.ltb_spec 1 (length (split newline text))); [| lia].
  now rewrite Hunit.
Qed.

Lemma formatSuggestionText_single config text :
  (length (split newline text) <= 1)%nat ->
  formatSuggestionText text config = Normal text.
Proof.
  intros Hlen. unfold formatSuggestionText. destruct config; [| reflexivity].
  destruct (Nat.ltb_spec 1 (length (split newline text))); [lia | reflexivity].
Qed.

Lemma reindented_lines unit others :
  Forall2 (fun line reindented =>
             exists blank body,
               line = blank +:+ body /\ all_whitespace blank = true /\
               starts_with_whitespace body = false /\
               reindented = unit +:+ body)
          others (map (replace_leading_whitespace unit) others).
Proof.
  induction others as [| line others IH]; simpl; constructor; [| exact IH].
  destruct (leading_whitespace line) as (blank & Hline & Hblank & Hbody).
  exists blank, (skip_whitespace line). repeat split; assumption.
Qed.

Lemma formatSuggestionText_formatted (text : string) (config : option LanguageConfig) :
  (forall c, config = Some c -> fits text c) ->
  exists out,
    formatSuggestionText text config = Normal out /\ Notions.formatted_as config text out.
Proof.
  intros Hfits. unfold Notions.formatted_as.
  destruct config as [c |]; [| exists text; split; reflexivity].
  pose proof (indentChar_resolved c (fits_width text c (Hfits c eq_refl))) as Hunit.
  set (unit := replicate_char (Z.to_nat (indent_width c)) (indent_code_unit c)) in *.
  destruct (indentChar_shape c unit Hunit) as [_ Hclean].
  destruct (split newline text) as [| first [| second rest]] eqn:E.
  - exists text. rewrite formatSuggestionText_single by (rewrite E; simpl; lia).
    split; reflexivity.
  - exists text. rewrite formatSuggestionText_single by (rewrite E; simpl; lia).
    split; reflexivity.
  - exists (join newline (reindent unit (split newline text))).
    rewrite (formatSuggestionText_multi c unit text Hunit) by (rewrite E; simpl; lia).
    split; [reflexivity |].
    exists unit, (map (replace_leading_whitespace unit) (second :: rest)).
    split; [apply replicate_char_units |].
    split; [rewrite split_formatted by exact Hclean; now rewrite E |].
    apply reindented_lines.
Qed.



Example ragged_body_formatted :
  formatSuggestionText ragged_body (Some python_config)
  = Normal ("if n < 2:" +:+ String newline "    return n"
              +:+ String newline "    return fibonacci(n - 1)").
Proof. vm_compute. reflexivity. Qed.


End FormatFacts.

(** ** Ranking by [sortText] *)

Module RankingFacts.

Import CompletionProvider Spec Scenario.

Lemma sortText_of_key s : sortText_of s = key (sortValue s).
Proof. reflexivity. Qed.

Lemma keys_ordered_check :
  forallb (fun a => forallb (agree a) keyed) keyed = true.
Proof. vm_compute. reflexivity. Qed.

Lemma values_spec v : 0 <= v <= 1000 -> v ∈ values.
Proof.
  intros Hv. unfold values. apply list_elem_of_fmap.
  exists (Z.to_nat v). split; [lia |].
  apply elem_of_seq. lia.
Qed.

(** On sort values from 0 to 1000 the editor's comparison of sort keys is
    the comparison of the values: a smaller value, that is a higher
    composite score, sorts first. *)
Lemma keys_ordered a b :
  0 <= a <= 1000 -> 0 <= b <= 1000 ->
  string_lt (key a) (key b) = (a <? b).
Proof.
  intros Ha Hb.
  pose proof keys_ordered_check as Hall.
  rewrite forallb_forall in Hall.
  assert (In (a, key a) keyed) as Hina.
  { apply list_elem_of_In. unfold keyed. apply list_elem_of_fmap.
    exists a. split; [reflexivity | now apply values_spec]. }
  assert (In (b, key b) keyed) as Hinb.
  { apply list_elem_of_In. unfold keyed. apply list_elem_of_fmap.
    exists b. split; [reflexivity | now apply values_spec]. }
  specialize (Hall _ Hina). rewrite forallb_forall in Hall.
  specialize (Hall _ Hinb). unfold agree in Hall. simpl in Hall.
  apply Bool.eqb_prop in Hall. now rewrite Hall.
Qed.

(** The sort value stays in that range unless the suggestion is
    language-specific with a rounded confidence above 900. *)
Lemma sortValue_range s :
  (0 <= confidence s <= 1)%Q ->
  sortValue s = 1000 - Math_round (confidence s * 999) - priorityBonus s /\
  0 <= Math_round (confidence s * 999) <= 999 /\
  (priorityBonus s = 0 \/ priorityBonus s = 100).
Proof.
  intros [Hlo Hhi]. split; [reflexivity |]. split.
  - unfold Math_round. split.
    + change 0 with (Qfloor 0). apply Qfloor_resp_le.
      apply Qle_trans with (confidence s * 999)%Q.
      * apply Qmult_le_0_compat; [exact Hlo | discriminate].
      * rewrite <- (Qplus_0_r (confidence s * 999)) at 1.
        apply Qplus_le_r. discriminate.
    + change 999 with (Qfloor (999 + (1 # 2))).
      apply Qfloor_resp_le. apply Qplus_le_l.
      rewrite <- (Qmult_1_l 999) at 2.
      apply Qmult_le_compat_r; [exact Hhi | discriminate].
  - unfold priorityBonus. destruct (languageSpecific s) as [[|] |]; auto.
Qed.

Lemma sortText_orders_by_value s1 s2 :
  0 <= sortValue s1 <= 1000 -> 0 <= sortValue s2 <= 1000 ->
  string_lt (sortText_of s1) (sortText_of s2) = (sortValue s1 <? sortValue s2).
Proof. intros H1 H2. rewrite !sortText_of_key. now apply keys_ordered. Qed.

Lemma bonus_first_check : forallb bonus_first values = true.
Proof. vm_compute. reflexivity. Qed.

(** At equal confidence a language-specific suggestion is ranked before
    one that is not, also where the bonus makes its sort value
    negative. *)
Lemma language_specific_first s1 s2 :
  (0 <= confidence s1 <= 1)%Q ->
  (confidence s1 == confidence s2)%Q ->
  languageSpecific s1 = Some true ->
  priorityBonus s2 = 0 ->
  string_lt (sortText_of s1) (sortText_of s2) = true.
Proof.
  intros Hrange Heq Hspecific Hplain.
  destruct (sortValue_range s1 Hrange) as (_ & Hround & _).
  assert (Math_round (confidence s2 * 999) = Math_round (confidence s1 * 999)) as Hsame.
  { unfold Math_round. apply Qfloor_comp. now rewrite Heq. }
  rewrite !sortText_of_key. unfold sortValue, priorityBonus at 1.
  rewrite Hspecific, Hplain, Hsame.
  pose proof bonus_first_check as Hall. rewrite forallb_forall in Hall.
  replace (1000 - Math_round (confidence s1 * 999) - 100)
    with ((1000 - Math_round (confidence s1 * 999) - 0) - 100) by lia.
  apply (Hall (1000 - Math_round (confidence s1 * 999) - 0)).
  apply list_elem_of_In, values_spec. lia.
Qed.

(** C8, at the input where the code departs from it: two
    language-specific suggestions with confidences 1 and 15/16. Their
    sort values are negative, [String] renders them with a minus sign,
    the padded keys are "0-99" and "0-37", and the key of the less
    confident suggestion is the smaller one: it is ranked first. *)
Theorem sortText_ranks_less_confident_first :
  let certain := suggest 1 true in
  let likely := suggest (15 # 16) true in
  sortValue certain = -99 /\
  sortValue likely = -37 /\
  sortText_of certain = "0-99" /\
  sortText_of likely = "0-37" /\
  string_lt (sortText_of likely) (sortText_of certain) = true /\
  string_lt (sortText_of certain) (sortText_of likely) = false.
Proof. vm_compute. repeat split; reflexivity. Qed.

End RankingFacts.

(** ** The dispatcher: failures become error responses *)

Module DispatchFacts.

Import APIClient Spec.

Section Dispatch.

Variable getMaxSuggestions : string -> Z.
Variable getTemperature : string -> Q.
Variable getModel : string -> string.
Variable getAutoTrigger : bool.
Variable getMaxContextLines : string -> Z.
Variable userId sessionId : string.
Variable as_SuggestionResponse : body -> SuggestionResponse.

Let dispatch (post : CompletionRequest -> HttpOutcome) :=
  getSuggestions getMaxSuggestions getTemperature getModel getAutoTrigger
    getMaxContextLines userId sessionId post as_SuggestionResponse.

(** [getSuggestions] always returns. *)
Lemma getSuggestions_returns post startTime endTime context :
  exists response, dispatch post startTime endTime context = Normal response.
Proof.
  unfold dispatch, getSuggestions.
  destruct (getSuggestions_try _ _ _ _ _ _ _ _ _ _ _ _); eauto.
Qed.

(** On every failure of the request the result is the error response
    built from the error caught. *)
Lemma getSuggestions_failure post startTime endTime context error :
  failure_of (post (build_request getMaxSuggestions getTemperature getModel
                      getAutoTrigger getMaxContextLines userId sessionId
                      context (detectLanguage context))) = Some error ->
  dispatch post startTime endTime context = Normal (error_response context error)
  /\ status (error_response context error) = "error"
  /\ suggestions (error_response context error) = []
  /\ errorMessage (error_response context error) = Some (getErrorMessage error).
Proof.
  intros Hfail. split; [| repeat split].
  unfold dispatch, getSuggestions, getSuggestions_try.
  destruct (post _) as [data | rejected]; simpl in Hfail.
  - destruct (isValidSuggestionResponse data); [discriminate |].
    simpl. now injection Hfail as <-.
  - now injection Hfail as <-.
Qed.

(** The messages of the three kinds of failure the code tells apart by
    the shape of the error, and of a body that fails validation. *)
Lemma getErrorMessage_server_error reply request code message :
  getErrorMessage {| err_response := Some reply; err_request := request;
                     err_code := code; err_message := message |}
  = "Server error: " +:+ String_of (reply_status reply) +:+ " - "
      +:+ or_string (reply_data_message reply) (reply_statusText reply).
Proof. reflexivity. Qed.

Lemma getErrorMessage_no_response code message :
  getErrorMessage {| err_response := None; err_request := true;
                     err_code := code; err_message := message |}
  = "No response from server. Please check your connection and API URL.".
Proof. reflexivity. Qed.

Lemma getErrorMessage_aborted_before_request message :
  getErrorMessage {| err_response := None; err_request := false;
                     err_code := Some "ECONNABORTED"; err_message := message |}
  = "Request timeout. The AI service is taking too long to respond.".
Proof. reflexivity. Qed.

Lemma getErrorMessage_invalid_body :
  getErrorMessage (new_Error "Invalid response format from API")
  = "Request failed: Invalid response format from API".
Proof. reflexivity. Qed.

Example server_error_500 :
  getErrorMessage {| err_response := Some {| reply_status := 500;
                                              reply_data_message := None;
                                              reply_statusText := "Internal Server Error" |};
                     err_request := true;
                     err_code := Some "ERR_BAD_RESPONSE";
                     err_message := "Request failed with status code 500" |}
  = "Server error: 500 - Internal Server Error".
Proof. vm_compute. reflexivity. Qed.

(** A reply with status 200 whose metadata lacks [cacheHit] fails the
    validation and is a failure like the others. *)
Example body_without_cacheHit :
  failure_of
    (Fulfilled
       (BObj [ ("suggestions", BArr []);
               ("metadata", BObj [ ("processingTimeMs", BNum 12);
                                   ("modelVersion", BStr "codegpt-1") ]);
               ("status", BStr "success") ]))
  = Some (new_Error "Invalid response format from API").
Proof. reflexivity. Qed.

(** C4, at the input where the code departs from it: the request times
    out. The error of a timed-out request has [request] set and the code
    [ECONNABORTED]; [getErrorMessage] tests [error.request] before
    [error.code], so the response, an error response with no suggestions
    as for every failure, carries the no-response message and not the
    timeout message. *)
Theorem timeout_reported_as_no_response (startTime endTime : Z) (context : CodeContext) :
  let post := fun _ : CompletionRequest => Rejected (timeout_error 10000) in
  exists response,
    dispatch post startTime endTime context = Normal response /\
    status response = "error" /\
    suggestions response = [] /\
    errorMessage response
    = Some "No response from server. Please check your connection and API URL." /\
    errorMessage response
    <> Some "Request timeout. The AI service is taking too long to respond.".
Proof.
  intros post. exists (error_response context (timeout_error 10000)).
  split; [| repeat split].
  - apply getSuggestions_failure. reflexivity.
  - discriminate.
Qed.

End Dispatch.

End DispatchFacts.

(** ** The pipeline *)

Module PipelineFacts.

Import CompletionProvider Spec.

(** What [return_items] leaves of the provider: the cache, the language
    table and the request and cache-hit counters are untouched and the
    guard is released. *)
Lemma return_items_effect p suggestions context :
  let p' := fst (return_items p suggestions context) in
  cache p' = cache p /\
  languageConfigs p' = languageConfigs p /\
  isProcessing p' = false /\
  total_requests p' = total_requests p /\
  cache_hits p' = cache_hits p.
Proof.
  unfold return_items.
  destruct (convertToCompletionItems p suggestions context); simpl; repeat split.
Qed.

Lemma usable_Some r : status r = "success" -> usable (Some r) = Some r.
Proof. intros H. unfold usable. now rewrite H. Qed.

(** What the resumed part of an invocation does, by the kind of what was
    awaited. *)
Lemma resume_failure now today k response p :
  status response <> "success" ->
  provideCompletionItems_resume now today k (Normal response) p
  = (with_isProcessing false
       (with_statsManager (StatisticsManager.recordError "api_error") p), []).
Proof.
  intros Hstatus. unfold provideCompletionItems_resume.
  destruct (String.eqb_spec (status response) "success"); [contradiction | reflexivity].
Qed.

Lemma resume_success now today k response p :
  status response = "success" ->
  provideCompletionItems_resume now today k (Normal response) p
  = return_items
      (with_statsManager
         (StatisticsManager.recordCompletion (language (codeContext k))
            (Z.of_nat (length (suggestions response))) (now - startTime k)
            (cacheHit (metadata response)) today)
         (with_cache (cache_response (pending_hash k) response (cache p)) p))
      (suggestions response) (codeContext k).
Proof.
  intros Hstatus. unfold provideCompletionItems_resume.
  now rewrite Hstatus.
Qed.

(** The provider after the resumed part: the guard is released however
    the request settled; the language table is untouched; the cache takes
    the response exactly when its status is ['success'], and exactly then
    one completion is recorded. *)
Lemma resume_effect now today k awaited p :
  let p' := fst (provideCompletionItems_resume now today k awaited p) in
  isProcessing p' = false /\
  languageConfigs p' = languageConfigs p /\
  cache p'
  = match awaited with
    | Normal response =>
        if String.eqb (status response) "success"
        then cache_response (pending_hash k) response (cache p)
        else cache p
    | Throw _ => cache p
    end /\
  total_requests p'
  = match awaited with
    | Normal response =>
        if String.eqb (status response) "success"
        then total_requests p + 1
        else total_requests p
    | Throw _ => total_requests p
    end.
Proof.
  destruct awaited as [response | error]; [| now repeat split].
  destruct (String.eqb_spec (status response) "success") as [Hs | Hs].
  - rewrite resume_success by exact Hs.
    destruct (return_items_effect
      (with_statsManager
         (StatisticsManager.recordCompletion (language (codeContext k))
            (Z.of_nat (length (suggestions response))) (now - startTime k)
            (cacheHit (metadata response)) today)
         (with_cache (cache_response (pending_hash k) response (cache p)) p))
      (suggestions response) (codeContext k)) as (Hcache & Hcfg & Hrel & Hreq & _).
    cbv zeta. rewrite Hcache, Hcfg, Hrel, Hreq. now repeat split.
  - rewrite resume_failure by exact Hs. now repeat split.
Qed.

Lemma resume_releases now today k awaited p :
  isProcessing (fst (provideCompletionItems_resume now today k awaited p)) = false.
Proof. apply resume_effect. Qed.

Lemma resume_languageConfigs now today k awaited p :
  languageConfigs (fst (provideCompletionItems_resume now today k awaited p))
  = languageConfigs p.
Proof. apply resume_effect. Qed.

Lemma resume_cache now today k awaited p :
  cache (fst (provideCompletionItems_resume now today k awaited p))
  = match awaited with
    | Normal response =>
        if String.eqb (status response) "success"
        then cache_response (pending_hash k) response (cache p)
        else cache p
    | Throw _ => cache p
    end.
Proof. apply resume_effect. Qed.

Lemma resume_total_requests now today k awaited p :
  total_requests (fst (provideCompletionItems_resume now today k awaited p))
  = match awaited with
    | Normal response =>
        if String.eqb (status response) "success"
        then total_requests p + 1
        else total_requests p
    | Throw _ => total_requests p
    end.
Proof. apply resume_effect. Qed.

Section Pipeline.

Variable md5 : string -> string.
Variable extractContext : Document -> Position -> completion CodeContext.

Let provide := provideCompletionItems md5 extractContext.

(** A trigger that finds the guard held returns no items and changes
    nothing. *)
Lemma provide_busy enabled now document pos p :
  isProcessing p = true -> provide enabled now document pos p = (p, Returned []).
Proof.
  intros Hbusy. unfold provide, provideCompletionItems.
  rewrite Hbusy. now destruct enabled.
Qed.

(** The synchronous part of an invocation never touches the cache or the
    language table. *)
Lemma provide_cache enabled now document pos p :
  cache (fst (provide enabled now document pos p)) = cache p /\
  languageConfigs (fst (provide enabled now document pos p)) = languageConfigs p.
Proof.
  unfold provide, provideCompletionItems.
  destruct enabled; [| now split]. simpl.
  destruct (isProcessing p); [now split |].
  destruct (extractContext document pos) as [extracted | error]; [| now split].
  destruct (isLanguageSupported _ _); [| now split]. simpl.
  destruct (usable _) as [cached |]; [| now split].
  simpl.
  destruct (return_items_effect
    (with_statsManager StatisticsManager.recordCacheHit (with_isProcessing true p))
    (suggestions cached)
    (enhanceContextWithLanguageInfo (with_isProcessing true p) extracted document))
    as (-> & -> & _).
  now split.
Qed.

(** An invocation that returns without suspending was either refused,
    and changed nothing, or ran with the guard free and released it. *)
Lemma provide_returned enabled now document pos p p' items :
  provide enabled now document pos p = (p', Returned items) ->
  p' = p \/ (isProcessing p = false /\ isProcessing p' = false).
Proof.
  unfold provide, provideCompletionItems.
  destruct enabled; [| intros [= <- _]; now left]. simpl.
  destruct (isProcessing p) eqn:Hbusy; [intros [= <- _]; now left |].
  destruct (extractContext document pos) as [extracted | error];
    [| intros [= <- _]; now right].
  destruct (isLanguageSupported _ _); [| intros [= <- _]; now right]. simpl.
  destruct (usable _) as [cached |]; [| discriminate].
  unfold lift. intros [= <- _]. right. split; [reflexivity |].
  apply return_items_effect.
Qed.

(** What is known of an invocation that suspends. *)
Lemma provide_awaiting enabled now document pos p p' k :
  provide enabled now document pos p = (p', Awaiting k) ->
  enabled = true /\
  isProcessing p = false /\
  p' = with_isProcessing true p /\
  startTime k = now /\
  pending_hash k = generateContextHash md5 (codeContext k) /\
  usable (JsMap.get (pending_hash k) (cache p)) = None /\
  isLanguageSupported p (language (codeContext k)) = true /\
  exists extracted,
    extractContext document pos = Normal extracted /\
    codeContext k = enhanceContextWithLanguageInfo p extracted document.
Proof.
  unfold provide, provideCompletionItems.
  destruct enabled; [| discriminate]. simpl.
  destruct (isProcessing p) eqn:Hbusy; [discriminate |].
  destruct (extractContext document pos) as [extracted | error]; [| discriminate].
  destruct (isLanguageSupported _ _) eqn:Hlang; [| discriminate]. simpl.
  destruct (usable _) as [cached |] eqn:Hmiss; [discriminate |].
  intros [= <- <-]. simpl. repeat split; try assumption. eauto.
Qed.

(** *** Invariants of the schedule *)

Lemma start_invariant m0 : invariant (start m0).
Proof.
  split; [apply CacheFacts.empty_well_formed |].
  split; [constructor | reflexivity].
Qed.

Lemma cache_response_success k r c :
  status r = "success" -> Forall is_success c -> Forall is_success (cache_response k r c).
Proof.
  intros Hr Hc. unfold cache_response.
  apply CacheFacts.cleanupCache_Forall. now apply JsMapFacts.Forall_set.
Qed.

Lemma run_event_invariant e s :
  invariant s -> invariant (run_event md5 extractContext e s).
Proof.
  intros (Hwf & Hsucc & Hguard). destruct e as [enabled now document pos | index now today awaited].
  - simpl. fold provide.
    pose proof (provide_cache enabled now document pos (provider s)) as [Hcache _].
    destruct (provide enabled now document pos (provider s)) as [p' [items | k]] eqn:E;
      simpl in Hcache; unfold invariant; simpl; rewrite Hcache.
    + split; [exact Hwf |]. split; [exact Hsucc |].
      apply provide_returned in E as [-> | [Hfree Hfree']].
      * exact Hguard.
      * unfold guard_consistent in *. simpl. rewrite Hfree'. now rewrite Hfree in Hguard.
    + split; [exact Hwf |]. split; [exact Hsucc |].
      apply provide_awaiting in E as (_ & Hfree & -> & _).
      unfold guard_consistent in *. simpl. rewrite Hfree in Hguard. rewrite Hguard.
      now exists k.
  - simpl. destruct (in_flight s !! index) as [k |] eqn:Hk; [| now split].
    unfold guard_consistent in Hguard.
    destruct (isProcessing (provider s)) eqn:Hbusy.
    + destruct Hguard as [k' Hflight]. rewrite Hflight in Hk.
      destruct index as [| index]; [| destruct index; discriminate].
      pose proof (resume_cache now today k awaited (provider s)) as Hcache.
      pose proof (resume_releases now today k awaited (provider s)) as Hrel.
      destruct (provideCompletionItems_resume now today k awaited (provider s))
        as [p' items]. simpl in Hcache, Hrel.
      unfold invariant, guard_consistent. simpl. rewrite Hcache, Hrel, Hflight. simpl.
      destruct awaited as [response | error];
        [| split; [exact Hwf | split; [exact Hsucc | reflexivity]]].
      destruct (String.eqb_spec (status response) "success") as [Hs | Hs];
        [| split; [exact Hwf | split; [exact Hsucc | reflexivity]]].
      split; [now apply CacheFacts.cache_response_well_formed |].
      split; [now apply cache_response_success | reflexivity].
    + rewrite Hguard in Hk. discriminate.
Qed.

Lemma run_invariant events s :
  invariant s -> invariant (run md5 extractContext events s).
Proof.
  unfold run. revert s.
  induction events as [| e events IH]; simpl; intros s Hs; [exact Hs |].
  apply IH. now apply run_event_invariant.
Qed.

(** The cache bound holds in every state the schedule can reach. *)
Lemma cache_bounded_in_every_run events m0 :
  (JsMap.size (cache (provider (run md5 extractContext events (start m0)))) <= 100)%nat.
Proof.
  now destruct (run_invariant events (start m0) (start_invariant m0)) as ((_ & Hsize) & _).
Qed.

(** At most one invocation is in flight in any state the schedule can
    reach. *)
Lemma at_most_one_in_flight events m0 :
  (length (in_flight (run md5 extractContext events (start m0))) <= 1)%nat.
Proof.
  destruct (run_invariant events (start m0) (start_invariant m0)) as (_ & _ & Hguard).
  unfold guard_consistent in Hguard.
  destruct (isProcessing _); [destruct Hguard as [k ->] | rewrite Hguard]; simpl; lia.
Qed.

(** In every state the schedule can reach with an invocation in flight, a
    trigger is dropped: it returns no items and changes nothing else. *)
Lemma trigger_dropped_while_in_flight events m0 enabled now document pos :
  let s := run md5 extractContext events (start m0) in
  in_flight s <> [] ->
  run_event md5 extractContext (Trigger enabled now document pos) s
  = {| provider := provider s; in_flight := in_flight s; returned := [] :: returned s |}.
Proof.
  intros s Hflight.
  destruct (run_invariant events (start m0) (start_invariant m0)) as (_ & _ & Hguard).
  fold s in Hguard. unfold guard_consistent in Hguard.
  destruct (isProcessing (provider s)) eqn:Hbusy; [| contradiction].
  pose proof (provide_busy enabled now document pos (provider s) Hbusy) as Hdrop.
  unfold provide in Hdrop. simpl. now rewrite Hdrop.
Qed.

(** C5. Only successful responses are stored. In every state the
    pipeline can reach the cache holds only responses with status
    ['success']; and when the awaited dispatch returns a response with
    any other status (['error'], ['partial']), the invocation leaves the
    cache as it was, adds one to the error counter, records no
    completion, returns no items and releases the guard. *)
Theorem only_success_is_cached
    (events : list Event) (m0 : StatisticsManager.t) (now : Z) (today : string)
    (k : Pending)
    (response : SuggestionResponse) (p : t) :
  status response <> "success" ->
  Forall is_success (cache (provider (run md5 extractContext events (start m0)))) /\
  let result := provideCompletionItems_resume now today k (Normal response) p in
  cache (fst result) = cache p /\
  snd result = [] /\
  error_count (fst result) = error_count p + 1 /\
  total_requests (fst result) = total_requests p /\
  isProcessing (fst result) = false.
Proof.
  intros Hstatus. split.
  - apply (run_invariant events (start m0) (start_invariant m0)).
  - cbv zeta. rewrite (resume_failure now today k response p Hstatus). simpl.
    repeat split.
Qed.

(** C6. Single flight. While an invocation is suspended on its request,
    a second trigger returns no items at once, is not queued and leaves
    the provider as it is; so once the first invocation settles the
    provider is what the first invocation alone makes it, nothing is in
    flight and the guard is released, whether the request succeeded,
    failed or raised; and the request counter has grown by exactly one
    when the response was a success, and not at all otherwise. *)
Theorem second_trigger_is_dropped
    (s0 : System) (enabled1 : bool) (t1 : Z) (d1 : Document) (pos1 : Position)
    (k : Pending) :
  in_flight s0 = [] ->
  snd (provide enabled1 t1 d1 pos1 (provider s0)) = Awaiting k ->
  forall (enabled2 : bool) (t2 : Z) (d2 : Document) (pos2 : Position)
         (t3 : Z) (today : string) (awaited : completion SuggestionResponse),
  let s1 := run_event md5 extractContext (Trigger enabled1 t1 d1 pos1) s0 in
  let s2 := run_event md5 extractContext (Trigger enabled2 t2 d2 pos2) s1 in
  let s3 := run_event md5 extractContext (Settle 0 t3 today awaited) s2 in
  let alone := run_event md5 extractContext (Settle 0 t3 today awaited) s1 in
  in_flight s1 = [k] /\
  provider s2 = provider s1 /\
  in_flight s2 = [k] /\
  returned s2 = [] :: returned s1 /\
  provider s3 = provider alone /\
  in_flight s3 = [] /\
  isProcessing (provider s3) = false /\
  total_requests (provider s3)
  = match awaited with
    | Normal response =>
        if String.eqb (status response) "success"
        then total_requests (provider s0) + 1
        else total_requests (provider s0)
    | Throw _ => total_requests (provider s0)
    end.
Proof.
  intros Hidle Hfirst enabled2 t2 d2 pos2 t3 today awaited.
  destruct (provide enabled1 t1 d1 pos1 (provider s0)) as [p1 step] eqn:E.
  simpl in Hfirst. subst step.
  pose proof (provide_awaiting _ _ _ _ _ _ _ E) as (_ & _ & Hp1 & _).
  assert (isProcessing p1 = true) as Hbusy by now subst p1.
  assert (total_requests p1 = total_requests (provider s0)) as Htotal by now subst p1.
  assert (run_event md5 extractContext (Trigger enabled1 t1 d1 pos1) s0
          = {| provider := p1; in_flight := [k]; returned := returned s0 |}) as Hs1.
  { unfold provide in E. simpl. now rewrite E, Hidle. }
  assert (run_event md5 extractContext (Trigger enabled2 t2 d2 pos2)
            {| provider := p1; in_flight := [k]; returned := returned s0 |}
          = {| provider := p1; in_flight := [k]; returned := [] :: returned s0 |}) as Hs2.
  { pose proof (provide_busy enabled2 t2 d2 pos2 p1 Hbusy) as Hdrop.
    unfold provide in Hdrop. simpl. now rewrite Hdrop. }
  cbv zeta. rewrite Hs1, Hs2. simpl.
  pose proof (resume_releases t3 today k awaited p1) as Hrel.
  pose proof (resume_total_requests t3 today k awaited p1) as Hreq.
  destruct (provideCompletionItems_resume t3 today k awaited p1) as [p3 items].
  simpl in *. rewrite Htotal in Hreq. repeat split; assumption.
Qed.

(** The second invocation on a context with the same projected fields,
    after a first one whose dispatch succeeded. *)
Lemma second_invocation_hits
    (p p1 p2 : t) (t1 t2 t3 : Z) (today : string) (d1 d2 : Document)
    (pos1 pos2 : Position) (k : Pending) (r : SuggestionResponse)
    (items1 : list CompletionItem) (extracted2 : CodeContext) :
  well_formed (cache p) ->
  provide true t1 d1 pos1 p = (p1, Awaiting k) ->
  status r = "success" ->
  provideCompletionItems_resume t2 today k (Normal r) p1 = (p2, items1) ->
  extractContext d2 pos2 = Normal extracted2 ->
  same_projection (enhanceContextWithLanguageInfo p2 extracted2 d2) (codeContext k) ->
  JsMap.get (pending_hash k) (cache p2) = Some r /\
  provide true t3 d2 pos2 p2
  = lift (return_items
            (with_statsManager StatisticsManager.recordCacheHit (with_isProcessing true p2))
            (suggestions r)
            (enhanceContextWithLanguageInfo p2 extracted2 d2)).
Proof.
  intros Hwf Hfirst Hstatus Hresume Hextract Hsame.
  apply provide_awaiting in Hfirst as (_ & _ & -> & _ & Hhash & _ & Hlang & _).
  pose proof (resume_cache t2 today k (Normal r) (with_isProcessing true p)) as Hcache.
  pose proof (resume_releases t2 today k (Normal r) (with_isProcessing true p)) as Hrel.
  pose proof (resume_languageConfigs t2 today k (Normal r) (with_isProcessing true p)) as Hcfg.
  rewrite Hresume in Hcache, Hrel, Hcfg. simpl in Hcache, Hrel, Hcfg.
  rewrite Hstatus in Hcache. simpl in Hcache.
  assert (JsMap.get (pending_hash k) (cache p2) = Some r) as Hget.
  { rewrite Hcache. now apply CacheFacts.get_cache_response. }
  split; [exact Hget |].
  unfold provide, provideCompletionItems. simpl negb. cbv iota.
  rewrite Hrel, Hextract.
  assert (isLanguageSupported (with_isProcessing true p2) (languageId d2) = true) as ->.
  { destruct Hsame as (_ & _ & Hl & _). simpl in Hl. rewrite Hl.
    unfold isLanguageSupported in *. simpl. now rewrite Hcfg. }
  simpl negb. cbv iota.
  change (enhanceContextWithLanguageInfo (with_isProcessing true p2) extracted2 d2)
    with (enhanceContextWithLanguageInfo p2 extracted2 d2).
  change (cache (with_isProcessing true p2)) with (cache p2).
  rewrite (FingerprintFacts.generateContextHash_agrees md5 _ _ Hsame), <- Hhash, Hget.
  now rewrite (usable_Some r Hstatus).
Qed.

(** C7, as the code has it. When a first invocation missed the cache and
    its dispatch succeeded, a second invocation on a context with the
    same projected fields suspends on no request: it returns at once the
    items converted from the suggestions of the cached response, adds
    one to the cache-hit counter and none to the request counter, and
    leaves the cache alone. The cached response is the one the first
    dispatch returned, its [metadata.cacheHit] included: the provider
    never sets that flag. *)
Theorem repeated_context_is_served_from_cache
    (p p1 p2 : t) (t1 t2 t3 : Z) (today : string) (d1 d2 : Document)
    (pos1 pos2 : Position) (k : Pending) (r : SuggestionResponse)
    (items1 : list CompletionItem) (extracted2 : CodeContext) :
  well_formed (cache p) ->
  provide true t1 d1 pos1 p = (p1, Awaiting k) ->
  status r = "success" ->
  provideCompletionItems_resume t2 today k (Normal r) p1 = (p2, items1) ->
  extractContext d2 pos2 = Normal extracted2 ->
  same_projection (enhanceContextWithLanguageInfo p2 extracted2 d2) (codeContext k) ->
  exists (p3 : t) (items2 : list CompletionItem),
    provide true t3 d2 pos2 p2 = (p3, Returned items2) /\
    (p3, items2)
    = return_items
        (with_statsManager StatisticsManager.recordCacheHit (with_isProcessing true p2))
        (suggestions r)
        (enhanceContextWithLanguageInfo p2 extracted2 d2) /\
    (forall items,
        convertToCompletionItems
          (with_statsManager StatisticsManager.recordCacheHit (with_isProcessing true p2))
          (suggestions r)
          (enhanceContextWithLanguageInfo p2 extracted2 d2) = Normal items ->
        items2 = items) /\
    cache p3 = cache p2 /\
    JsMap.get (pending_hash k) (cache p3) = Some r /\
    cache_hits p3 = cache_hits p2 + 1 /\
    total_requests p3 = total_requests p2 /\
    isProcessing p3 = false.
Proof.
  intros Hwf Hfirst Hstatus Hresume Hextract Hsame.
  destruct (second_invocation_hits p p1 p2 t1 t2 t3 today d1 d2 pos1 pos2 k r items1
              extracted2 Hwf Hfirst Hstatus Hresume Hextract Hsame) as [Hget Hsecond].
  pose proof (return_items_effect
    (with_statsManager StatisticsManager.recordCacheHit (with_isProcessing true p2))
    (suggestions r) (enhanceContextWithLanguageInfo p2 extracted2 d2))
    as (Hcache & _ & Hrel & Hreq & Hhits).
  destruct (return_items _ _ _) as [p3 items2] eqn:Hret. simpl in *.
  exists p3, items2. rewrite Hcache.
  split; [exact Hsecond |]. split; [reflexivity |]. split.
  - intros items Hconv. unfold return_items in Hret. rewrite Hconv in Hret.
    now injection Hret as _ <-.
  - repeat split; assumption.
Qed.

End Pipeline.

End PipelineFacts.

(** ** The concrete session *)

Module SessionFacts.

Import CompletionProvider Spec Scenario PipelineFacts.

Example first_invocation_suspends :
  provideCompletionItems Md5.md5 line_extractor true 1000 fib_document cursor (create no_statistics)
  = (suspended, Awaiting first_pending).
Proof. vm_compute. reflexivity. Qed.

Example first_fingerprint :
  pending_hash first_pending = "f65ade2d830e327c9a14be3abd5de2d0".
Proof. vm_compute. reflexivity. Qed.

Example session_outcome :
  let final := run Md5.md5 line_extractor session (start no_statistics) in
  in_flight final = [] /\
  isProcessing (provider final) = false /\
  JsMap.size (cache (provider final)) = 1%nat /\
  total_requests (provider final) = 1 /\
  cache_hits (provider final) = 1 /\
  error_count (provider final) = 0 /\
  length (returned final) = 3%nat.
Proof. vm_compute. repeat split; reflexivity. Qed.

Lemma only_success_is_cached_witness :
  Forall is_success (cache (provider (run Md5.md5 line_extractor session (start no_statistics)))) /\
  let result :=
    provideCompletionItems_resume 1250 today first_pending (Normal partial_reply) suspended in
  cache (fst result) = cache suspended /\
  snd result = [] /\
  error_count (fst result) = error_count suspended + 1 /\
  total_requests (fst result) = total_requests suspended /\
  isProcessing (fst result) = false.
Proof.
  apply (only_success_is_cached Md5.md5 line_extractor session no_statistics 1250 today
           first_pending partial_reply suspended).
  vm_compute. discriminate.
Defined.

Lemma second_trigger_is_dropped_witness :
  let s1 := run_event Md5.md5 line_extractor (Trigger true 1000 fib_document cursor) (start no_statistics) in
  let s2 := run_event Md5.md5 line_extractor (Trigger true 1001 fib_document cursor) s1 in
  let s3 := run_event Md5.md5 line_extractor (Settle 0 1250 today (Normal service_reply)) s2 in
  let alone := run_event Md5.md5 line_extractor (Settle 0 1250 today (Normal service_reply)) s1 in
  in_flight s1 = [first_pending] /\
  provider s2 = provider s1 /\
  in_flight s2 = [first_pending] /\
  returned s2 = [] :: returned s1 /\
  provider s3 = provider alone /\
  in_flight s3 = [] /\
  isProcessing (provider s3) = false /\
  total_requests (provider s3)
  = (if String.eqb (status service_reply) "success"
     then total_requests (provider (start no_statistics)) + 1
     else total_requests (provider (start no_statistics))).
Proof.
  apply (second_trigger_is_dropped Md5.md5 line_extractor (start no_statistics) true 1000
           fib_document cursor first_pending).
  - reflexivity.
  - vm_compute. reflexivity.
Defined.

Lemma repeated_context_is_served_from_cache_witness :
  exists (p3 : t) (items2 : list CompletionItem),
    provideCompletionItems Md5.md5 line_extractor true 2000 fib_document_later cursor_later settled
    = (p3, Returned items2) /\
    (p3, items2)
    = return_items
        (with_statsManager StatisticsManager.recordCacheHit (with_isProcessing true settled))
        (suggestions service_reply)
        (enhanceContextWithLanguageInfo settled extracted_later fib_document_later) /\
    (forall items,
        convertToCompletionItems
          (with_statsManager StatisticsManager.recordCacheHit (with_isProcessing true settled))
          (suggestions service_reply)
          (enhanceContextWithLanguageInfo settled extracted_later fib_document_later)
        = Normal items ->
        items2 = items) /\
    cache p3 = cache settled /\
    JsMap.get (pending_hash first_pending) (cache p3) = Some service_reply /\
    cache_hits p3 = cache_hits settled + 1 /\
    total_requests p3 = total_requests settled /\
    isProcessing p3 = false.
Proof.
  apply (repeated_context_is_served_from_cache Md5.md5 line_extractor
           (create no_statistics) suspended settled 1000 1250 2000 today fib_document fib_document_later
           cursor cursor_later first_pending service_reply
           (snd (provideCompletionItems_resume 1250 today first_pending
                   (Normal service_reply) suspended))
           extracted_later).
  - split; [apply NoDup_nil_2 | simpl; lia].
  - vm_compute. reflexivity.
  - reflexivity.
  - vm_compute. reflexivity.
  - vm_compute. reflexivity.
  - repeat split; vm_compute; reflexivity.
Defined.

(** C7 as stated fails on the flag: in the session above the second
    lookup, at the later cursor, is served from the cache (it returns the
    converted item without suspending), and the response it is served
    from is the service's reply with [metadata.cacheHit] false, not
    true. *)
Lemma cached_response_keeps_service_flag :
  let second :=
    provideCompletionItems Md5.md5 line_extractor true 2000
      fib_document_later cursor_later settled in
  provideCompletionItems Md5.md5 line_extractor true 1000 fib_document cursor (create no_statistics)
  = (suspended, Awaiting first_pending) /\
  same_projection
    (enhanceContextWithLanguageInfo settled extracted_later fib_document_later)
    (codeContext first_pending) /\
  (exists item, snd second = Returned [item]) /\
  JsMap.get (pending_hash first_pending) (cache (fst second)) = Some service_reply /\
  cacheHit (metadata service_reply) = false /\
  ~ (exists served,
        JsMap.get (pending_hash first_pending) (cache (fst second)) = Some served /\
        cacheHit (metadata served) = true).
Proof.
  cbv zeta.
  assert (JsMap.get (pending_hash first_pending)
            (cache (fst (provideCompletionItems Md5.md5 line_extractor true 2000
                           fib_document_later cursor_later settled)))
          = Some service_reply) as Hget by (vm_compute; reflexivity).
  split; [vm_compute; reflexivity |].
  split; [repeat split; vm_compute; reflexivity |].
  split; [vm_compute; eexists; reflexivity |].
  split; [exact Hget |].
  split; [reflexivity |].
  intros (served & Hserved & Hflag).
  rewrite Hget in Hserved. injection Hserved as <-. discriminate Hflag.
Qed.

End SessionFacts.

(** ** The statistics manager over a sequence of calls *)

Module StatisticsTraceFacts.

Import StatisticsManager Notions Samples.

Lemma slice_last_all {A} n (l : list A) : (length l <= n)%nat -> slice_last n l = l.
Proof. intros H. unfold slice_last. now replace (length l - n)%nat with 0%nat by lia. Qed.

Lemma slice_last_length {A} n (l : list A) : (length (slice_last n l) <= n)%nat.
Proof. unfold slice_last. rewrite length_drop. lia. Qed.

Lemma slice_last_app {A} n (a b : list A) :
  slice_last n (slice_last n a ++ b) = slice_last n (a ++ b).
Proof.
  destruct (Nat.le_gt_cases (length a) n) as [Hle | Hgt].
  - now rewrite (slice_last_all n a Hle).
  - unfold slice_last. rewrite !length_app, length_drop.
    replace (length a - (length a - n) + length b - n)%nat with (length b) by lia.
    assert (a ++ b = take (length a - n) a ++ (drop (length a - n) a ++ b)) as Hsplit
      by now rewrite app_assoc, take_drop.
    rewrite Hsplit.
    replace (length a + length b - n)%nat
      with (length (take (length a - n) a) + length b)%nat
      by (rewrite length_take; lia).
    now rewrite drop_app_add.
Qed.

(** One completion pushes its time and drops the oldest one when the
    window is full. *)
Lemma recordCompletion_window language n t hit today m :
  (length (responseTimes m) <= 100)%nat ->
  responseTimes (recordCompletion language n t hit today m)
  = slice_last 100 (responseTimes m ++ [t]).
Proof.
  intros Hlen. unfold recordCompletion, maxResponseTimeHistory. simpl.
  unfold slice_last. rewrite length_app. simpl.
  destruct (Nat.ltb_spec 100 (length (responseTimes m) + 1)).
  - now replace (length (responseTimes m) + 1 - 100)%nat with 1%nat by lia.
  - now replace (length (responseTimes m) + 1 - 100)%nat with 0%nat by lia.
Qed.

Lemma perform_window c m :
  (length (responseTimes m) <= 100)%nat ->
  responseTimes (perform c m) = slice_last 100 (responseTimes m ++ times_of [c]).
Proof.
  intros Hlen. destruct c as [l n t h d | l d | | e].
  - exact (recordCompletion_window l n t h d m Hlen).
  - simpl. rewrite app_nil_r. now rewrite slice_last_all.
  - simpl. rewrite app_nil_r. now rewrite slice_last_all.
  - simpl. rewrite app_nil_r. now rewrite slice_last_all.
Qed.

Lemma times_of_cons c calls : times_of (c :: calls) = times_of [c] ++ times_of calls.
Proof. unfold times_of. simpl. now destruct c. Qed.

Lemma perform_all_window calls m :
  (length (responseTimes m) <= 100)%nat ->
  responseTimes (perform_all calls m)
  = slice_last 100 (responseTimes m ++ times_of calls).
Proof.
  unfold perform_all. revert m.
  induction calls as [| c calls IH]; intros m Hlen; simpl.
  - rewrite app_nil_r. now rewrite slice_last_all.
  - rewrite IH.
    + rewrite (perform_window c m Hlen), slice_last_app, <- app_assoc.
      now rewrite <- times_of_cons.
    + rewrite (perform_window c m Hlen). apply slice_last_length.
Qed.

Lemma response_times_window calls saved now :
  responseTimes (perform_all calls (loadStatistics saved now))
  = slice_last 100 (times_of calls).
Proof.
  assert (responseTimes (loadStatistics saved now) = []) as Hempty
    by now destruct saved.
  rewrite perform_all_window by (rewrite Hempty; simpl; lia).
  now rewrite Hempty.
Qed.

(** X1. The window of response times is a rolling window of the last
    hundred: after any sequence of calls on a manager whose window is
    empty (a new, reloaded or reset manager), it holds the response times
    of the last hundred completions, oldest first, and never more than a
    hundred of them. *)
Theorem response_times_are_the_last_hundred
    (saved : option CompletionStats) (now : Z) (calls : list StatsCall) :
  let m := perform_all calls (loadStatistics saved now) in
  responseTimes m = slice_last 100 (times_of calls) /\
  (length (responseTimes m) <= 100)%nat.
Proof.
  cbv zeta. rewrite response_times_window.
  split; [reflexivity | apply slice_last_length].
Qed.

Lemma perform_all_snoc calls c m :
  perform_all (calls ++ [c]) m = perform c (perform_all calls m).
Proof. unfold perform_all. now rewrite foldl_app. Qed.

Lemma sum_snoc ts t : sum (ts ++ [t]) = sum ts + t.
Proof. unfold sum. now rewrite foldl_app. Qed.

Lemma sum_from a ts : foldl Z.add a ts = a + sum ts.
Proof.
  unfold sum. revert a. induction ts as [| t ts IH]; intros a; cbn [foldl]; [lia |].
  rewrite IH, (IH (0 + t)). lia.
Qed.

Lemma sum_snoc_list ts us : sum (ts ++ us) = sum ts + sum us.
Proof. unfold sum at 1. rewrite foldl_app. apply sum_from. Qed.

Lemma recordCompletion_average language n t hit today m :
  averageResponseTime (stats (recordCompletion language n t hit today m))
  = mean (responseTimes (recordCompletion language n t hit today m)).
Proof. reflexivity. Qed.

Lemma recordCompletion_window_not_empty language n t hit today m :
  responseTimes (recordCompletion language n t hit today m) <> [].
Proof.
  unfold recordCompletion, maxResponseTimeHistory. simpl.
  intros H. apply (f_equal length) in H. revert H.
  destruct (Nat.ltb_spec 100 (length (responseTimes m ++ [t]))) as [Hfull | Hroom].
  - rewrite length_drop. simpl. lia.
  - rewrite length_app. simpl. lia.
Qed.

(** The moving average is the mean of the window whenever the window is
    not empty. *)
Lemma average_is_mean_of_window calls saved now :
  let m := perform_all calls (loadStatistics saved now) in
  match responseTimes m with
  | [] => averageResponseTime (stats m)
          = averageResponseTime (stats (loadStatistics saved now))
  | _ => averageResponseTime (stats m) = mean (responseTimes m)
  end.
Proof.
  induction calls as [| c calls IH] using rev_ind; cbv zeta.
  - simpl. now destruct saved.
  - rewrite perform_all_snoc. cbv zeta in IH.
    destruct c as [l n t h d | l d | | e]; try exact IH.
    change (perform (Completion l n t h d) ?m) with (recordCompletion l n t h d m).
    pose proof (recordCompletion_window_not_empty l n t h d
                  (perform_all calls (loadStatistics saved now))) as Hne.
    destruct (responseTimes (recordCompletion l n t h d _)) eqn:E; [contradiction |].
    rewrite <- E. apply recordCompletion_average.
Qed.

(** X2. The moving average. After any sequence of calls on a new or
    reloaded manager, [averageResponseTime] is the mean of the response
    times of the last hundred completions; while no completion has been
    recorded it is the persisted value (0 without one). So the first
    completion after a reload replaces the persisted average by its own
    response time. *)
Theorem average_is_mean_of_last_hundred
    (saved : option CompletionStats) (now : Z) (calls : list StatsCall) :
  let m := perform_all calls (loadStatistics saved now) in
  averageResponseTime (stats m)
  = match times_of calls with
    | [] => averageResponseTime (stats (loadStatistics saved now))
    | _ => mean (slice_last 100 (times_of calls))
    end.
Proof.
  cbv zeta.
  pose proof (average_is_mean_of_window calls saved now) as Havg.
  pose proof (response_times_window calls saved now) as Hwin.
  cbv zeta in Havg. rewrite Hwin in Havg.
  destruct (times_of calls) as [| t ts] eqn:E; [exact Havg |].
  destruct (slice_last 100 (t :: ts)) eqn:E'; [| exact Havg].
  exfalso. unfold slice_last in E'.
  apply (f_equal length) in E'. rewrite length_drop in E'. simpl in E'. lia.
Qed.

Lemma perform_all_counters (calls : list StatsCall) (m : t) :
  let m' := perform_all calls m in
  totalRequests (stats m') = totalRequests (stats m) + Z.of_nat (length (times_of calls)) /\
  totalSuggestions (stats m') = totalSuggestions (stats m) + sum (counts_of calls) /\
  cacheHits (stats m') = cacheHits (stats m) + cache_hit_calls calls /\
  acceptedSuggestions (stats m') = acceptedSuggestions (stats m) + acceptances calls /\
  errorCount (stats m') = errorCount (stats m) + failures calls /\
  sessionStartTime (stats m') = sessionStartTime (stats m).
Proof.
  induction calls as [| c calls IH] using rev_ind; cbv zeta.
  - unfold cache_hit_calls, acceptances, failures, sum. simpl. repeat split; lia.
  - rewrite perform_all_snoc. cbv zeta in IH.
    destruct IH as (Hreq & Hsug & Hhit & Hacc & Herr & Hstart).
    unfold times_of, counts_of, cache_hit_calls, acceptances, failures in *.
    rewrite !omap_app, !length_app.
    destruct c as [l n t h d | l d | | e]; simpl;
      rewrite ?sum_snoc, ?app_nil_r, Hreq, Hsug, Hhit, Hacc, Herr, Hstart;
      try (destruct h; simpl); repeat split; lia.
Qed.

(** X3. The global counters count: after any sequence of calls each
    counter has grown by exactly the number (or the sum) of the calls
    that feed it, so none ever decreases, and the session start is
    untouched. A completion that the service answered from its cache and
    a hit in the provider's cache both count as cache hits; only
    completions count as requests. *)
Theorem counters_count (calls : list StatsCall) (m : t) :
  let m' := perform_all calls m in
  totalRequests (stats m') = totalRequests (stats m) + Z.of_nat (length (times_of calls)) /\
  totalSuggestions (stats m') = totalSuggestions (stats m) + sum (counts_of calls) /\
  cacheHits (stats m') = cacheHits (stats m) + cache_hit_calls calls /\
  acceptedSuggestions (stats m') = acceptedSuggestions (stats m) + acceptances calls /\
  errorCount (stats m') = errorCount (stats m) + failures calls /\
  sessionStartTime (stats m') = sessionStartTime (stats m).
Proof. exact (perform_all_counters calls m). Qed.

(** Sums over a table, under insertion. *)
Lemma sum_over_empty {V} (f : V -> Z) : sum_over f ∅ = 0.
Proof. unfold sum_over. apply map_fold_empty. Qed.

Lemma sum_over_insert_None {V} (f : V -> Z) k v (table : gmap string V) :
  table !! k = None -> sum_over f (<[k := v]> table) = f v + sum_over f table.
Proof.
  intros Hk. unfold sum_over.
  rewrite map_fold_insert_L; [reflexivity | intros; lia | exact Hk].
Qed.

Lemma sum_over_insert_Some {V} (f : V -> Z) k u v (table : gmap string V) :
  table !! k = Some u -> sum_over f (<[k := v]> table) = f v - f u + sum_over f table.
Proof.
  intros Hk.
  rewrite <- (insert_delete_eq table).
  rewrite sum_over_insert_None by apply lookup_delete_eq.
  unfold sum_over.
  rewrite (map_fold_delete_L _ _ k u table); [lia | intros; lia | exact Hk].
Qed.

Lemma sum_over_insert {V} (f : V -> Z) k v (table : gmap string V) :
  sum_over f (<[k := v]> table)
  = f v - default 0 (f <$> table !! k) + sum_over f table.
Proof.
  destruct (table !! k) as [u |] eqn:Hk; simpl.
  - now apply sum_over_insert_Some.
  - rewrite sum_over_insert_None by exact Hk. lia.
Qed.

Lemma property_cases {A} (key : string) (obj : gmap string A) :
  (exists v, obj !! key = Some v /\ JsObject.property key obj = JsObject.Own v) \/
  (obj !! key = None /\ JsObject.inherited key = true /\
   JsObject.property key obj = JsObject.Inherited key) \/
  (obj !! key = None /\ JsObject.inherited key = false /\
   JsObject.property key obj = JsObject.Missing).
Proof.
  unfold JsObject.property. destruct (obj !! key) as [v |]; [left; eauto |].
  right. destruct (JsObject.inherited key); [left | right]; repeat split.
Qed.

Lemma own_keys_insert {V} (table : gmap string V) key v :
  JsObject.inherited key = false -> own_keys table -> own_keys (<[key := v]> table).
Proof.
  intros Hkey Htable k Hk. rewrite lookup_insert_ne by congruence. now apply Htable.
Qed.

Lemma own_keys_lookup {V} (table : gmap string V) key v :
  own_keys table -> table !! key = Some v -> JsObject.inherited key = false.
Proof.
  intros Htable Hkey. destruct (JsObject.inherited key) eqn:E; [| reflexivity].
  rewrite (Htable key E) in Hkey. discriminate.
Qed.

Lemma perform_own_keys c m :
  own_keys (languageStats (stats m)) /\ own_keys (dailyStats (stats m)) ->
  own_keys (languageStats (stats (perform c m))) /\
  own_keys (dailyStats (stats (perform c m))).
Proof.
  intros [Hl Hd]. destruct c as [l n t h d | l d | | e]; simpl; [| | now split ..].
  - split.
    + destruct (property_cases l (languageStats (stats m)))
        as [(v & El & ->) | [(El & Hi & ->) | (El & Hi & ->)]]; [| exact Hl |].
      * apply own_keys_insert; [now apply (own_keys_lookup _ _ _ Hl El) | exact Hl].
      * now apply own_keys_insert.
    + destruct (property_cases d (dailyStats (stats m)))
        as [(v & Ed & ->) | [(Ed & Hi & ->) | (Ed & Hi & ->)]]; [| exact Hd |].
      * apply own_keys_insert; [now apply (own_keys_lookup _ _ _ Hd Ed) | exact Hd].
      * now apply own_keys_insert.
  - split.
    + destruct (languageStats (stats m) !! l) as [v |] eqn:El; [| exact Hl].
      apply own_keys_insert; [now apply (own_keys_lookup _ _ _ Hl El) | exact Hl].
    + destruct (dailyStats (stats m) !! d) as [v |] eqn:Ed; [| exact Hd].
      apply own_keys_insert; [now apply (own_keys_lookup _ _ _ Hd Ed) | exact Hd].
Qed.

Lemma perform_all_own_keys now calls :
  own_keys (languageStats (stats (perform_all calls (fresh now)))) /\
  own_keys (dailyStats (stats (perform_all calls (fresh now)))).
Proof.
  induction calls as [| c calls IH] using rev_ind.
  - split; intros key _; apply lookup_empty.
  - rewrite perform_all_snoc. now apply perform_own_keys.
Qed.

Lemma perform_accounted calls c m :
  own_keys (languageStats (stats m)) -> own_keys (dailyStats (stats m)) ->
  accounted calls m -> accounted (calls ++ [c]) (perform c m).
Proof.
  intros Hlk Hdk (Hreq & Hsug & Hday & Hacc & Hdacc).
  unfold accounted, unbooked_counts, unbooked_days in *.
  rewrite !omap_app, !length_app, !sum_snoc_list.
  destruct c as [l n t h d | l d | | e]; simpl.
  - destruct (property_cases l (languageStats (stats m)))
      as [(v & El & ->) | [(El & Hl & ->) | (El & Hl & ->)]];
      destruct (property_cases d (dailyStats (stats m)))
        as [(w & Ed & ->) | [(Ed & Hd & ->) | (Ed & Hd & ->)]];
      rewrite ?sum_over_insert, ?El, ?Ed, ?Hl, ?Hd,
        ?(own_keys_lookup _ _ _ Hlk El), ?(own_keys_lookup _ _ _ Hdk Ed); simpl;
      unfold sum in *; simpl; repeat split; lia.
  - destruct (languageStats (stats m) !! l) as [e |] eqn:El;
      destruct (dailyStats (stats m) !! d) as [e' |] eqn:Ed;
      rewrite ?sum_over_insert, ?El, ?Ed; simpl; unfold sum in *; simpl;
      repeat split; lia.
  - unfold sum in *. simpl. repeat split; lia.
  - unfold sum in *. simpl. repeat split; lia.
Qed.

Lemma perform_all_accounted now calls : accounted calls (perform_all calls (fresh now)).
Proof.
  induction calls as [| c calls IH] using rev_ind.
  - unfold accounted, sum. simpl. rewrite !sum_over_empty. repeat split; lia.
  - rewrite perform_all_snoc.
    destruct (perform_all_own_keys now calls) as [Hl Hd]. now apply perform_accounted.
Qed.

(** X4. The per-language and per-day tables against the global
    counters. On a manager that started from zero, after any sequence of
    calls the requests of all languages add up to [totalRequests] less
    the completions recorded under a language that is the name of a
    member of [Object.prototype] (such a completion gets no entry); the
    suggestions of all languages add up to [totalSuggestions] less the
    suggestions of those completions; the requests of all days add up to
    [totalRequests] less the completions recorded under such a day; and
    the acceptances booked on languages, and on days, add up to at most
    [acceptedSuggestions] (an acceptance for a language or a day with no
    entry is counted globally only). *)
Theorem tables_partition_the_counters (now : Z) (calls : list StatsCall) :
  let s := stats (perform_all calls (fresh now)) in
  sum_over requests (languageStats s)
  = totalRequests s - Z.of_nat (length (unbooked_counts calls)) /\
  sum_over lang_suggestions (languageStats s)
  = totalSuggestions s - sum (unbooked_counts calls) /\
  sum_over day_requests (dailyStats s)
  = totalRequests s - Z.of_nat (length (unbooked_days calls)) /\
  sum_over accepted (languageStats s) <= acceptedSuggestions s /\
  sum_over day_accepted (dailyStats s) <= acceptedSuggestions s.
Proof. exact (perform_all_accounted now calls). Qed.

Lemma times_in_snoc language calls c :
  times_in language (calls ++ [c]) = times_in language calls ++ times_in language [c].
Proof. unfold times_in. now rewrite omap_app. Qed.

Lemma counts_in_snoc language calls c :
  counts_in language (calls ++ [c]) = counts_in language calls ++ counts_in language [c].
Proof. unfold counts_in. now rewrite omap_app. Qed.

Lemma times_counts_in language calls :
  times_in language calls = [] -> counts_in language calls = [].
Proof.
  unfold times_in, counts_in. induction calls as [| c calls IH]; simpl; [reflexivity |].
  destruct c as [l n t h d | l d | | e]; simpl; try exact IH.
  destruct (String.eqb l language); [discriminate | exact IH].
Qed.

Lemma perform_all_tracks now language calls :
  tracks language calls (perform_all calls (fresh now)).
Proof.
  induction calls as [| c calls IH] using rev_ind.
  - now left.
  - rewrite perform_all_snoc. unfold tracks in *.
    rewrite times_in_snoc, counts_in_snoc.
    set (m := perform_all calls (fresh now)) in *.
    destruct c as [l n t h d | l d | | e]; simpl;
      try (rewrite !app_nil_r; exact IH).
    + destruct (property_cases l (languageStats (stats m)))
        as [(v & El & ->) | [(El & Hl & ->) | (El & Hl & ->)]].
      * destruct (String.eqb_spec l language) as [-> | Hne].
        -- rewrite lookup_insert_eq. rewrite El in IH. simpl.
           destruct IH as (Hown & Htimes & Hreq & Hsug).
           rewrite length_app, sum_snoc. simpl.
           split; [exact Hown |]. split; [now destruct (times_in language calls) |].
           split; lia.
        -- rewrite lookup_insert_ne by exact Hne. rewrite !app_nil_r. exact IH.
      * destruct (String.eqb_spec l language) as [-> | Hne].
        -- rewrite El. now right.
        -- rewrite !app_nil_r. exact IH.
      * destruct (String.eqb_spec l language) as [-> | Hne].
        -- rewrite lookup_insert_eq. rewrite El in IH. simpl.
           destruct IH as [Hnone | Hinh]; [| congruence].
           rewrite Hnone, (times_counts_in _ _ Hnone). simpl.
           split; [exact Hl |]. split; [discriminate |].
           unfold sum. simpl. split; lia.
        -- rewrite lookup_insert_ne by exact Hne. rewrite !app_nil_r. exact IH.
    + rewrite !app_nil_r.
      destruct (languageStats (stats m) !! l) as [x |] eqn:El; [| exact IH].
      destruct (String.eqb_spec l language) as [-> | Hne].
      * rewrite lookup_insert_eq. rewrite El in IH. exact IH.
      * now rewrite lookup_insert_ne by exact Hne.
Qed.

(** X5. Per-language statistics. On a manager that started from zero,
    after any sequence of calls a language has an entry exactly when a
    completion was recorded for it and it is not the name of a member
    of [Object.prototype]; the [requests] of the entry is the number of
    those completions and its [suggestions] the sum of their suggestion
    counts. *)
Theorem language_entry_tracks_its_completions
    (now : Z) (calls : list StatsCall) (language : string) :
  match languageStats (stats (perform_all calls (fresh now))) !! language with
  | Some entry =>
      (language ∉ JsObject.Object_prototype) /\
      times_in language calls <> [] /\
      requests entry = Z.of_nat (length (times_in language calls)) /\
      lang_suggestions entry = sum (counts_in language calls)
  | None => times_in language calls = [] \/ language ∈ JsObject.Object_prototype
  end.
Proof.
  pose proof (perform_all_tracks now language calls) as H. unfold tracks in H.
  unfold JsObject.inherited in H.
  destruct (languageStats _ !! language) as [entry |].
  - destruct H as (Hown & Htimes & Hreq & Hsug).
    split; [now apply bool_decide_eq_false in Hown |]. now repeat split.
  - destruct H as [Hnone | Hinh]; [now left | right].
    now apply bool_decide_eq_true in Hinh.
Qed.

(** A completion recorded under the language [constructor] counts as a
    request and gets no entry. *)
Example constructor_is_not_booked :
  let s := stats (perform (Completion "constructor" 2 120 false "2025-01-01") (fresh 0)) in
  totalRequests s = 1 /\ totalSuggestions s = 2 /\
  languageStats s = ∅ /\
  (day_requests <$> dailyStats s !! "2025-01-01") = Some 1.
Proof. vm_compute. repeat split; reflexivity. Qed.

Example python_day_statistics :
  let s := stats (perform_all python_day (fresh 0)) in
  totalRequests s = 3 /\ totalSuggestions s = 6 /\ acceptedSuggestions s = 2 /\
  cacheHits s = 2 /\ errorCount s = 1 /\
  (requests <$> languageStats s !! "python") = Some 2 /\
  (accepted <$> languageStats s !! "python") = Some 1 /\
  languageStats s !! "rust" = None /\
  (day_accepted <$> dailyStats s !! "2025-01-02") = Some 0.
Proof. vm_compute. repeat split; reflexivity. Qed.

End StatisticsTraceFacts.

(** ** The configuration manager *)

Module ConfigurationFacts.

Import JsObject ConfigurationManager Notions Samples.

(** *** The order of [sort] *)

Lemma ascii_compare_Lt_trans a b c :
  Ascii.compare a b = Lt -> Ascii.compare b c = Lt -> Ascii.compare a c = Lt.
Proof.
  unfold Ascii.compare. rewrite !N.compare_lt_iff. lia.
Qed.

Lemma ascii_compare_Eq a b : Ascii.compare a b = Eq -> a = b.
Proof.
  unfold Ascii.compare. rewrite N.compare_eq_iff. intros H.
  rewrite <- (ascii_N_embedding a), <- (ascii_N_embedding b). now rewrite H.
Qed.

Lemma compare_not_Gt_trans s1 : forall s2 s3,
  String.compare s1 s2 <> Gt -> String.compare s2 s3 <> Gt -> String.compare s1 s3 <> Gt.
Proof.
  induction s1 as [| c1 s1 IH]; intros [| c2 s2] [| c3 s3]; simpl; try congruence.
  destruct (Ascii.compare c1 c2) eqn:H12; try congruence;
    destruct (Ascii.compare c2 c3) eqn:H23; try congruence; intros Ha Hb.
  - apply ascii_compare_Eq in H12, H23. subst c2 c3.
    assert (Ascii.compare c1 c1 = Eq) as ->
      by (unfold Ascii.compare; apply N.compare_refl).
    now apply IH with s2.
  - apply ascii_compare_Eq in H12. subst c2. now rewrite H23.
  - apply ascii_compare_Eq in H23. subst c3. now rewrite H12.
  - now rewrite (ascii_compare_Lt_trans _ _ _ H12 H23).
Qed.

Lemma code_unit_le_compare a b : code_unit_le a b <-> String.compare a b <> Gt.
Proof.
  unfold code_unit_le, String.leb. destruct (String.compare a b); split; congruence.
Qed.

#[local] Instance code_unit_le_trans : Transitive code_unit_le.
Proof.
  intros a b c. rewrite !code_unit_le_compare. apply compare_not_Gt_trans.
Qed.

#[local] Instance code_unit_le_total : Total code_unit_le.
Proof. intros a b. apply String.leb_total. Qed.

Lemma elem_of_unique xs : forall seen x,
  x ∈ unique seen xs <-> x ∈ xs /\ x ∉ seen.
Proof.
  induction xs as [| y xs IH]; intros seen x; simpl.
  - split; [intros H; inversion H | intros [H _]; inversion H].
  - case_bool_decide as Hy.
    + rewrite IH, elem_of_cons. split; [tauto |].
      intros [[-> | H] Hn]; tauto.
    + rewrite !elem_of_cons, IH, not_elem_of_cons.
      destruct (decide (x = y)) as [-> | Hne]; tauto.
Qed.

Lemma NoDup_unique xs : forall seen, NoDup (unique seen xs).
Proof.
  induction xs as [| y xs IH]; intros seen; simpl.
  - constructor.
  - case_bool_decide as Hy; [apply IH |].
    constructor; [| apply IH].
    rewrite elem_of_unique, not_elem_of_cons. tauto.
Qed.

Lemma elem_of_getSupportedLanguages c language :
  language ∈ getSupportedLanguages c
  <-> language ∈ defaultLanguages \/ language ∈ JsMap.keys (languages c).
Proof.
  unfold getSupportedLanguages, sort.
  rewrite merge_sort_Permutation, elem_of_unique, elem_of_app.
  split; [tauto |]. intros H. split; [exact H | intros Hn; inversion Hn].
Qed.

(** X6. [getSupportedLanguages] answers with the nineteen built-in
    languages and the keys of the ['languages'] setting, and nothing else,
    each once, in ascending order of code units. *)
Theorem supported_languages_sorted_and_complete (c : Configuration) :
  StronglySorted code_unit_le (getSupportedLanguages c) /\
  NoDup (getSupportedLanguages c) /\
  forall language,
    language ∈ getSupportedLanguages c
    <-> language ∈ defaultLanguages \/ language ∈ JsMap.keys (languages c).
Proof.
  split; [| split].
  - apply StronglySorted_merge_sort; apply _.
  - unfold getSupportedLanguages, sort. rewrite merge_sort_Permutation.
    apply NoDup_unique.
  - intros language. apply elem_of_getSupportedLanguages.
Qed.

(** X7. [isLanguageSupported] looks for the lower-case form of its
    argument: a language configured under a key with an upper-case letter
    is listed by [getSupportedLanguages] and still reported as not
    supported, unless its lower-case form is listed too. *)
Theorem listed_language_may_be_unsupported (c : Configuration) (language : string)
    (Hkey : language ∈ JsMap.keys (languages c))
    (Hdefault : APIClient.toLowerCase language ∉ defaultLanguages)
    (Hlower : APIClient.toLowerCase language ∉ JsMap.keys (languages c)) :
  language ∈ getSupportedLanguages c /\ isLanguageSupported c language = false.
Proof.
  split.
  - apply elem_of_getSupportedLanguages. now right.
  - unfold isLanguageSupported. apply bool_decide_eq_false.
    rewrite elem_of_getSupportedLanguages. tauto.
Qed.

Lemma listed_language_may_be_unsupported_witness :
  "COBOL" ∈ getSupportedLanguages tuned /\ isLanguageSupported tuned "COBOL" = false.
Proof.
  apply (listed_language_may_be_unsupported tuned "COBOL").
  - apply (bool_decide_unpack ("COBOL" ∈ JsMap.keys (languages tuned))).
    vm_compute. exact I.
  - apply (bool_decide_unpack
             (APIClient.toLowerCase "COBOL" ∉ defaultLanguages)).
    vm_compute. exact I.
  - apply (bool_decide_unpack
             (APIClient.toLowerCase "COBOL" ∉ JsMap.keys (languages tuned))).
    vm_compute. exact I.
Defined.

Example tuned_languages :
  getSupportedLanguages tuned
  = [ "COBOL"; "bash"; "c"; "c#"; "cpp"; "css"; "go"; "html"; "java";
      "javascript"; "kotlin"; "php"; "powershell"; "python"; "ruby"; "rust";
      "scala"; "sql"; "swift"; "typescript" ].
Proof. vm_compute. reflexivity. Qed.

(** *** Validation *)

Lemma when_nil b message : when b message = [] <-> b = false.
Proof. destruct b; simpl; split; congruence. Qed.

Lemma outside_Z_false v lo hi : outside_Z v lo hi = false <-> lo <= v <= hi.
Proof.
  unfold outside_Z. rewrite orb_false_iff, !Z.ltb_ge. lia.
Qed.

Lemma outside_Q_false v lo hi : outside_Q v lo hi = false <-> (lo <= v <= hi)%Q.
Proof.
  unfold outside_Q. rewrite orb_false_iff, !negb_false_iff, !Qle_bool_iff. tauto.
Qed.

Lemma present_false {A} (v : option A) (bad : A -> bool) (P : A -> Prop) :
  (forall x, bad x = false <-> P x) ->
  present v bad = false <-> (forall x, v = Some x -> P x).
Proof.
  intros Hbad. destruct v as [x |]; simpl.
  - rewrite Hbad. split; [intros H y [= <-]; exact H | intros H; now apply H].
  - split; [intros _ y Hy; discriminate Hy | reflexivity].
Qed.

Lemma is_indent_style_true v : is_indent_style v = true <-> v = "spaces" \/ v = "tabs".
Proof.
  unfold is_indent_style. rewrite orb_true_iff, !String.eqb_eq. tauto.
Qed.

Lemma valid_model_false v :
  negb (bool_decide (v ∈ validModels)) = false <-> v ∈ validModels.
Proof.
  rewrite negb_false_iff, bool_decide_eq_true. tauto.
Qed.

Lemma language_errors_nil langKey l :
  language_errors langKey l = [] <-> overrides_in_range l.
Proof.
  unfold language_errors, overrides_in_range.
  rewrite !app_nil, !when_nil.
  rewrite (present_false _ _ (fun v => 1 <= v <= 10))
    by (intros; apply outside_Z_false).
  rewrite (present_false _ _ (fun v => (0 <= v <= 2)%Q))
    by (intros; apply outside_Q_false).
  rewrite (present_false _ _ (fun v => 10 <= v <= 200))
    by (intros; apply outside_Z_false).
  rewrite (present_false _ _ (fun v => (0 <= v <= 1)%Q))
    by (intros; apply outside_Q_false).
  rewrite (present_false _ _ (fun v => 1 <= v <= 100))
    by (intros; apply outside_Z_false).
  rewrite (present_false _ _ (fun v => ((1 # 2) <= v <= 2)%Q))
    by (intros; apply outside_Q_false).
  rewrite (present_false _ _ (fun v => 256 <= v <= 4096))
    by (intros; apply outside_Z_false).
  rewrite (present_false _ _ (fun v => v ∈ validModels))
    by (intros; apply valid_model_false).
  rewrite (present_false _ _ (fun v => v = "spaces" \/ v = "tabs"))
    by (intros; rewrite negb_false_iff; apply is_indent_style_true).
  rewrite (present_false _ _ (fun v => 1 <= v <= 8))
    by (intros; apply outside_Z_false).
  tauto.
Qed.

Lemma general_errors_nil isValidUrl c :
  general_errors isValidUrl c = []
  <-> url_accepted isValidUrl c /\ resolved_in_range c "".
Proof.
  unfold general_errors, url_accepted, resolved_in_range.
  unfold getMaxSuggestions, getTemperature, getMaxContextLines, getTopP, getTopK,
    getRepetitionPenalty, getContextWindow, getModel, cascade. simpl.
  rewrite !app_nil, !when_nil, !outside_Z_false, !outside_Q_false, valid_model_false.
  rewrite orb_false_iff, !negb_false_iff.
  assert (truthy_string (getApiUrl c) = true <-> getApiUrl c <> "") as ->
    by (destruct (getApiUrl c); simpl; split; congruence).
  tauto.
Qed.

Lemma concat_nil {A} (ls : list (list A)) : concat ls = [] <-> Forall (fun l => l = []) ls.
Proof.
  induction ls as [| l ls IH]; simpl.
  - split; [constructor | reflexivity].
  - rewrite app_nil, IH, Forall_cons. tauto.
Qed.

(** Validation accepts a configuration exactly when the URL, the general
    settings and every override are within the documented ranges. *)
Lemma valid_iff isValidUrl c :
  valid (validateConfiguration isValidUrl c) = true
  <-> url_accepted isValidUrl c /\ resolved_in_range c "" /\
      Forall (fun entry => overrides_in_range (snd entry)) (languages c).
Proof.
  unfold validateConfiguration. simpl. rewrite Nat.eqb_eq, length_zero_iff_nil.
  rewrite app_nil, general_errors_nil. unfold languages.
  destruct (set_languages c) as [ls |]; simpl.
  - rewrite concat_nil, Forall_map.
    assert (Forall (fun entry : string * LanguageSettings =>
                      language_errors (fst entry) (snd entry) = []) ls
            <-> Forall (fun entry => overrides_in_range (snd entry)) ls) as ->.
    { apply Forall_iff. intros [k l]. apply language_errors_nil. }
    tauto.
  - split.
    + intros [[H1 H2] _]. split; [exact H1 | split; [exact H2 | constructor]].
    + intros (H1 & H2 & _). split; [split; assumption | reflexivity].
Qed.

Lemma no_overrides_in_range : overrides_in_range no_overrides.
Proof. unfold overrides_in_range, no_overrides; simpl. repeat split; discriminate. Qed.

Lemma get_elem_of {V} k (m : JsMap.t V) v : JsMap.get k m = Some v -> (k, v) ∈ m.
Proof.
  induction m as [| [k' v'] m IH]; simpl; [discriminate |].
  destruct (String.eqb_spec k k') as [-> | Hne].
  - intros [= ->]. left.
  - intros H. right. now apply IH.
Qed.

Lemma getLanguageConfig_in_range c language :
  Forall (fun entry => overrides_in_range (snd entry)) (languages c) ->
  overrides_in_range (getLanguageConfig c language).
Proof.
  intros Hall. unfold getLanguageConfig, member.
  destruct (JsMap.get language (languages c)) as [l |] eqn:Hget.
  - apply get_elem_of in Hget. rewrite Forall_forall in Hall.
    exact (Hall _ Hget).
  - case_bool_decide; apply no_overrides_in_range.
Qed.

Lemma cascade_cases {A} c language (override : LanguageSettings -> option A) general builtin :
  (override (getLanguageConfig c language) = Some (cascade c language override general builtin))
  \/ cascade c language override general builtin = cascade c "" override general builtin.
Proof.
  unfold cascade. destruct (truthy_string language); simpl; [| now right].
  destruct (override (getLanguageConfig c language)); [now left | now right].
Qed.

Lemma valid_resolved isValidUrl c language :
  valid (validateConfiguration isValidUrl c) = true -> resolved_in_range c language.
Proof.
  rewrite valid_iff. intros (_ & Hgeneral & Hall).
  pose proof (getLanguageConfig_in_range c language Hall) as Hl.
  destruct Hgeneral as (G1 & G2 & G3 & G4 & G5 & G6 & G7 & G8).
  destruct Hl as (L1 & L2 & L3 & L4 & L5 & L6 & L7 & L8 & _).
  unfold resolved_in_range.
  unfold getMaxSuggestions, getTemperature, getMaxContextLines, getTopP, getTopK,
    getRepetitionPenalty, getContextWindow, getModel in *.
  repeat split.
  all: match goal with
       | |- context [cascade ?c' ?l' ?o ?g ?b] =>
           destruct (cascade_cases c' l' o g b) as [Ho | ->]; [| tauto]
       end.
  all: first [ apply L1 in Ho | apply L2 in Ho | apply L3 in Ho | apply L4 in Ho
             | apply L5 in Ho | apply L6 in Ho | apply L7 in Ho | apply L8 in Ho ];
    tauto.
Qed.

Lemma default_indent_size language v :
  JsMap.get language defaultIndentSizes = Some v -> 1 <= v <= 8 /\ (v =? 0) = false.
Proof.
  unfold defaultIndentSizes. simpl.
  repeat (destruct (String.eqb language _); [intros [= <-]; split; [lia | reflexivity] |]).
  discriminate.
Qed.

Lemma default_indent_style language v :
  JsMap.get language defaultIndentStyles = Some v ->
  (v = "spaces" \/ v = "tabs") /\ truthy_string v = true.
Proof.
  unfold defaultIndentStyles. simpl.
  repeat (destruct (String.eqb language _); [intros [= <-]; split; [tauto | reflexivity] |]).
  discriminate.
Qed.

Lemma member_Inherited {A} language (table : JsMap.t A) name :
  member language table = Inherited name ->
  name = language /\ language ∈ Object_prototype /\ JsMap.get language table = None.
Proof.
  unfold member. destruct (JsMap.get language table); [discriminate |].
  case_bool_decide; [intros [= <-]; tauto | discriminate].
Qed.

Lemma default_style_cases language :
  match table_default truthy_string defaultIndentStyles language "spaces" with
  | Entry style => style = "spaces" \/ style = "tabs"
  | Member name => name = language /\ language ∈ Object_prototype
  end.
Proof.
  unfold table_default. destruct (truthy_string language); [| now left].
  destruct (member language defaultIndentStyles) as [v | name |] eqn:Hm.
  - unfold member in Hm.
    destruct (JsMap.get language defaultIndentStyles) as [v' |] eqn:Hget;
      [| case_bool_decide; discriminate].
    injection Hm as ->. destruct (default_indent_style _ _ Hget) as [Hv ->]. exact Hv.
  - apply member_Inherited in Hm. tauto.
  - now left.
Qed.

Lemma default_size_cases language :
  match table_default (fun n => negb (n =? 0)) defaultIndentSizes language 4 with
  | Entry size => 1 <= size <= 8
  | Member name => name = language /\ language ∈ Object_prototype
  end.
Proof.
  unfold table_default. destruct (truthy_string language); [| lia].
  destruct (member language defaultIndentSizes) as [v | name |] eqn:Hm.
  - unfold member in Hm.
    destruct (JsMap.get language defaultIndentSizes) as [v' |] eqn:Hget;
      [| case_bool_decide; discriminate].
    injection Hm as ->. destruct (default_indent_size _ _ Hget) as [Hv ->]. exact Hv.
  - apply member_Inherited in Hm. tauto.
  - lia.
Qed.

(** X8. Once [validateConfiguration] has accepted the configuration, what
    the getters resolve for any language, through the override of the
    language, the general setting and the built-in default, lies in the
    documented range; so does the indent size, unless the language bears
    the name of a member of [Object.prototype], which the table of
    defaults then answers with. *)
Theorem valid_configuration_resolves_in_range
    (isValidUrl : string -> bool) (c : Configuration) (language : string)
    (Hvalid : valid (validateConfiguration isValidUrl c) = true) :
  resolved_in_range c language /\
  match getIndentSize c language with
  | Entry size => 1 <= size <= 8
  | Member name => name = language /\ language ∈ Object_prototype
  end.
Proof.
  split; [exact (valid_resolved isValidUrl c language Hvalid) |].
  apply valid_iff in Hvalid. destruct Hvalid as (_ & _ & Hall).
  pose proof (getLanguageConfig_in_range c language Hall) as Hl.
  unfold getIndentSize.
  destruct (truthy_string language) eqn:Ht.
  - destruct (ovr_indentSize (getLanguageConfig c language)) as [size |] eqn:Hsize.
    + now apply Hl.
    + apply default_size_cases.
  - apply default_size_cases.
Qed.

Lemma valid_configuration_resolves_in_range_witness :
  resolved_in_range tuned "python" /\
  match getIndentSize tuned "python" with
  | Entry size => 1 <= size <= 8
  | Member name => name = "python" /\ "python" ∈ Object_prototype
  end.
Proof.
  apply (valid_configuration_resolves_in_range http_or_https tuned "python").
  vm_compute. reflexivity.
Defined.

(** X9. [getIndentStyle] answers ['spaces'] or ['tabs'] whatever the
    settings hold: an override with another value is passed over for the
    default of the language. The one exception is a language that bears
    the name of a member of [Object.prototype] and has no valid override:
    the table of defaults answers with that member. *)
Theorem indent_style_is_spaces_or_tabs (c : Configuration) (language : string) :
  match getIndentStyle c language with
  | Entry style => style = "spaces" \/ style = "tabs"
  | Member name =>
      name = language /\ language ∈ Object_prototype /\
      forall style, ovr_indentStyle (getLanguageConfig c language) = Some style ->
                    is_indent_style style = false
  end.
Proof.
  unfold getIndentStyle.
  pose proof (default_style_cases language) as Hd.
  destruct (truthy_string language) eqn:Ht.
  - destruct (ovr_indentStyle (getLanguageConfig c language)) as [style |] eqn:Hstyle.
    + destruct (is_indent_style style) eqn:His.
      * now apply is_indent_style_true.
      * destruct (table_default truthy_string defaultIndentStyles language "spaces");
          [exact Hd |].
        destruct Hd as [-> Hp]. repeat split; auto. now intros s [= <-].
    + destruct (table_default truthy_string defaultIndentStyles language "spaces");
        [exact Hd |].
      destruct Hd as [-> Hp]. repeat split; auto. discriminate.
  - unfold table_default in *. rewrite Ht. now left.
Qed.

Example inherited_indent_style :
  getIndentStyle resetToDefaults "constructor" = Member "constructor"
  /\ getIndentStyle tuned "python" = Entry "tabs"
  /\ getIndentStyle tuned "go" = Entry "tabs"
  /\ getIndentStyle tuned "COBOL" = Entry "spaces".
Proof. vm_compute. repeat split. Qed.

(** *** Writing the overrides of a language *)

Lemma get_set_other {V} k k' (v : V) m :
  k' <> k -> JsMap.get k' (JsMap.set k v m) = JsMap.get k' m.
Proof.
  intros Hne. induction m as [| [k0 v0] m IH]; simpl.
  - destruct (String.eqb_spec k' k); [contradiction | reflexivity].
  - destruct (String.eqb_spec k k0) as [-> | Hk]; simpl.
    + destruct (String.eqb_spec k' k0); [contradiction | reflexivity].
    + destruct (String.eqb_spec k' k0); [reflexivity | exact IH].
Qed.

Lemma get_set_this {V} k (v : V) m : JsMap.get k (JsMap.set k v m) = Some v.
Proof.
  induction m as [| [k0 v0] m IH]; simpl.
  - now rewrite String.eqb_refl.
  - destruct (String.eqb_spec k k0) as [-> | Hk]; simpl.
    + now rewrite String.eqb_refl.
    + destruct (String.eqb_spec k k0); [contradiction | exact IH].
Qed.

Lemma get_delete_other {V} k k' (m : JsMap.t V) :
  k' <> k -> JsMap.get k' (JsMap.delete k m) = JsMap.get k' m.
Proof.
  intros Hne. induction m as [| [k0 v0] m IH]; simpl; [reflexivity |].
  destruct (String.eqb_spec k k0) as [-> | Hk]; simpl.
  - destruct (String.eqb_spec k' k0); [contradiction | reflexivity].
  - destruct (String.eqb_spec k' k0); [reflexivity | exact IH].
Qed.



Lemma elem_of_set {V} k (v : V) m entry :
  entry ∈ JsMap.set k v m -> entry = (k, v) \/ entry ∈ m.
Proof.
  induction m as [| [k0 v0] m IH]; simpl.
  - rewrite list_elem_of_singleton. tauto.
  - destruct (String.eqb_spec k k0) as [-> | Hk]; rewrite !elem_of_cons; tauto.
Qed.

Lemma elem_of_delete {V} k (m : JsMap.t V) entry :
  entry ∈ JsMap.delete k m -> entry ∈ m.
Proof.
  induction m as [| [k0 v0] m IH]; simpl; [tauto |].
  destruct (String.eqb_spec k k0) as [-> | Hk]; rewrite !elem_of_cons; tauto.
Qed.

Lemma merge_in_range current config :
  overrides_in_range current -> update_in_range config ->
  overrides_in_range (merge current config).
Proof.
  unfold overrides_in_range, update_in_range, merge; simpl.
  intros (C1 & C2 & C3 & C4 & C5 & C6 & C7 & C8 & C9 & C10)
         (N1 & N2 & N3 & N4 & N5 & N6 & N7 & N8 & N9 & N10).
  repeat apply conj.
  all: intros v Hv;
    match type of Hv with
    | match ?o with _ => _ end = _ =>
        destruct o eqn:Ho; [| discriminate Hv | injection Hv as <-]
    end; eauto.
Qed.

Lemma valid_unchanged_settings isValidUrl ls c :
  url_accepted isValidUrl (with_languages ls c) = url_accepted isValidUrl c /\
  resolved_in_range (with_languages ls c) "" = resolved_in_range c "".
Proof. split; reflexivity. Qed.






(** The update [cooler] on the Python overrides of [tuned]: the
    temperature and the indentation are those given, the model, given as
    [undefined], falls back on the general setting, and the maximum of
    suggestions stays. *)
Example python_cooled :
  let c' := updateLanguageConfig "python" cooler tuned in
  getTemperature c' "python" = (1 # 10)%Q /\
  getModel c' "python" = "codegpt" /\
  getMaxSuggestions c' "python" = 8 /\
  getIndentStyle c' "python" = Entry "spaces" /\
  getIndentSize c' "python" = Entry 2 /\
  getModel tuned "python" = "codebert".
Proof. vm_compute. repeat split; reflexivity. Qed.

(** X11. A configuration that [validateConfiguration] accepts is still
    accepted after [updateLanguageConfig] with an update whose values
    are in the documented ranges (a property absent from the update, or
    given as [undefined], is in range), and after [removeLanguageConfig]
    of any language. *)
Theorem valid_configuration_stays_valid
    (isValidUrl : string -> bool) (c : Configuration)
    (language : string) (config : LanguageUpdate)
    (Hvalid : valid (validateConfiguration isValidUrl c) = true)
    (Hconfig : update_in_range config) :
  valid (validateConfiguration isValidUrl (updateLanguageConfig language config c)) = true /\
  valid (validateConfiguration isValidUrl (removeLanguageConfig language c)) = true.
Proof.
  rewrite !valid_iff in *. destruct Hvalid as (Hurl & Hgeneral & Hall).
  split; (split; [exact Hurl | split; [exact Hgeneral |]]).
  - unfold updateLanguageConfig, languages at 1. simpl.
    rewrite Forall_forall. intros entry Hin. apply elem_of_set in Hin.
    destruct Hin as [-> | Hin].
    + simpl. apply merge_in_range; [| exact Hconfig].
      now apply getLanguageConfig_in_range.
    + rewrite Forall_forall in Hall. now apply Hall.
  - unfold removeLanguageConfig, languages at 1. simpl.
    rewrite Forall_forall. intros entry Hin. apply elem_of_delete in Hin.
    rewrite Forall_forall in Hall. now apply Hall.
Qed.

Lemma valid_configuration_stays_valid_witness :
  valid (validateConfiguration http_or_https (updateLanguageConfig "python" cooler tuned))
  = true /\
  valid (validateConfiguration http_or_https (removeLanguageConfig "python" tuned)) = true.
Proof.
  apply (valid_configuration_stays_valid http_or_https tuned "python" cooler).
  - vm_compute. reflexivity.
  - unfold update_in_range, cooler; simpl.
    repeat apply conj; intros v Hv; try discriminate Hv; injection Hv as <-.
    + split; unfold Qle; simpl; lia.
    + now left.
    + lia.
Defined.



(** *** The two tables of defaults *)

(** X25. The defaults of the configuration manager agree with the
    language table of the provider: for each of the eight languages that
    the provider's constructor knows, and as long as the settings do not
    override them, [getCommentStyle], [getIndentStyle] and
    [getIndentSize] answer with the comment style, the indent style and
    the indent size of the provider's table. *)
Theorem default_tables_agree
    (c : Configuration) (language : string) (config : LanguageConfig)
    (Hknown : JsMap.get language CompletionProvider.initializeLanguageConfigs = Some config)
    (Hcomment : ovr_commentStyle (getLanguageConfig c language) = None)
    (Hstyle : ovr_indentStyle (getLanguageConfig c language) = None)
    (Hsize : ovr_indentSize (getLanguageConfig c language) = None) :
  getCommentStyle c language = Entry (commentStyle config) /\
  getIndentStyle c language
  = Entry (CompletionProvider.indent_name (cfg_indentStyle config)) /\
  getIndentSize c language = Entry (cfg_indentSize config).
Proof.
  unfold getCommentStyle, getIndentStyle, getIndentSize.
  rewrite Hcomment, Hstyle, Hsize. clear Hcomment Hstyle Hsize.
  assert (forall A (x : A), (if truthy_string language then x else x) = x) as Hif
    by (intros; now destruct (truthy_string language)).
  rewrite !Hif. clear Hif.
  revert Hknown.
  let table := eval vm_compute in CompletionProvider.initializeLanguageConfigs in
  change CompletionProvider.initializeLanguageConfigs with table.
  simpl JsMap.get.
  repeat match goal with
         | |- context [String.eqb language ?known] =>
             destruct (String.eqb_spec language known) as [-> | _];
             [cbv iota; intros [= <-]; vm_compute; repeat split |]
         end.
  discriminate.
Qed.

Lemma default_tables_agree_witness :
  getCommentStyle tuned "go" = Entry (commentStyle CompletionProvider.go_config) /\
  getIndentStyle tuned "go"
  = Entry (CompletionProvider.indent_name (cfg_indentStyle CompletionProvider.go_config)) /\
  getIndentSize tuned "go" = Entry (cfg_indentSize CompletionProvider.go_config).
Proof.
  apply (default_tables_agree tuned "go" CompletionProvider.go_config); reflexivity.
Defined.

End ConfigurationFacts.

(** ** The client under a configuration *)

Module RequestFacts.

Import JsObject APIClient ConfigurationManager Notions Samples.

Lemma lower_idempotent a : lower (lower a) = lower a.
Proof. destruct a as [[] [] [] [] [] [] [] []]; reflexivity. Qed.

Lemma toLowerCase_idempotent s : toLowerCase (toLowerCase s) = toLowerCase s.
Proof.
  induction s as [| a s IH]; simpl; [reflexivity |].
  now rewrite lower_idempotent, IH.
Qed.

Lemma dispatch_with_request c userId sessionId post1 post2 convert startTime endTime context :
  post1 (request_of c userId sessionId context)
  = post2 (request_of c userId sessionId context) ->
  dispatch_with c userId sessionId post1 convert startTime endTime context
  = dispatch_with c userId sessionId post2 convert startTime endTime context.
Proof.
  unfold dispatch_with, request_of, getSuggestions, getSuggestions_try.
  now intros ->.
Qed.

Lemma request_of_limits isValidUrl c userId sessionId context :
  valid (validateConfiguration isValidUrl c) = true ->
  within_limits (request_of c userId sessionId context).
Proof.
  intros Hvalid.
  pose proof (ConfigurationFacts.valid_resolved isValidUrl c (detectLanguage context) Hvalid)
    as (H1 & H2 & H3 & _ & _ & _ & _ & H8).
  unfold within_limits, request_of, build_request, getMaxLength. simpl.
  repeat apply conj; try tauto; lia.
Qed.

(** X13. Under a configuration that [validateConfiguration] accepts,
    the request that [getSuggestions] sends is within the documented
    limits for every context: 1 to 10 suggestions, a length of 500 to
    2048, a temperature of 0 to 2, a known model and a context window of
    10 to 200 lines. The outcome of [getSuggestions] therefore depends on
    the service only through its replies to such requests. *)
Theorem request_is_within_limits
    (isValidUrl : string -> bool) (c : Configuration) (userId sessionId : string)
    (context : CodeContext)
    (Hvalid : valid (validateConfiguration isValidUrl c) = true) :
  within_limits (request_of c userId sessionId context) /\
  forall post1 post2 convert startTime endTime,
    (forall r, within_limits r -> post1 r = post2 r) ->
    dispatch_with c userId sessionId post1 convert startTime endTime context
    = dispatch_with c userId sessionId post2 convert startTime endTime context.
Proof.
  pose proof (request_of_limits isValidUrl c userId sessionId context Hvalid) as Hlimits.
  split; [exact Hlimits |].
  intros post1 post2 convert startTime endTime Hsame.
  apply dispatch_with_request. now apply Hsame.
Qed.

Lemma request_is_within_limits_witness :
  within_limits (request_of tuned "user" "session" Scenario.context_before) /\
  forall post1 post2 convert startTime endTime,
    (forall r, within_limits r -> post1 r = post2 r) ->
    dispatch_with tuned "user" "session" post1 convert startTime endTime
      Scenario.context_before
    = dispatch_with tuned "user" "session" post2 convert startTime endTime
        Scenario.context_before.
Proof.
  apply (request_is_within_limits http_or_https tuned "user" "session"
           Scenario.context_before).
  vm_compute. reflexivity.
Defined.

Example tuned_python_request :
  let r := request_of tuned "user" "session" Scenario.context_before in
  req_language r = "python" /\ max_suggestions r = 8 /\ max_length r = 2048 /\
  model (preferences r) = "codebert" /\ context_window (preferences r) = 120.
Proof. vm_compute. repeat split. Qed.

(** X14. [detectLanguage] puts the language of the context in lower
    case and the getters look the language up as it is: the overrides
    configured under a key that is not in lower case never reach a
    request. For a context that names its language, [getSuggestions]
    behaves as if those overrides had been removed. *)
Theorem override_under_mixed_case_key_is_never_used
    (c : Configuration) (key : string) (userId sessionId : string) (context : CodeContext)
    (Hkey : toLowerCase key <> key)
    (Hlanguage : language context <> "") :
  request_of (removeLanguageConfig key c) userId sessionId context
  = request_of c userId sessionId context /\
  forall post convert startTime endTime,
    dispatch_with (removeLanguageConfig key c) userId sessionId post convert
      startTime endTime context
    = dispatch_with c userId sessionId post convert startTime endTime context.
Proof.
  assert (detectLanguage context <> key) as Hne.
  { unfold detectLanguage. destruct (language context) as [| a l] eqn:Hl;
      [contradiction |]. simpl truthy_string. cbv iota.
    intros Heq. apply Hkey. rewrite <- Heq. apply toLowerCase_idempotent. }
  assert (getLanguageConfig (removeLanguageConfig key c) (detectLanguage context)
          = getLanguageConfig c (detectLanguage context)) as Hsame.
  { unfold removeLanguageConfig, getLanguageConfig, member, languages at 1. simpl.
    now rewrite ConfigurationFacts.get_delete_other by exact Hne. }
  assert (request_of (removeLanguageConfig key c) userId sessionId context
          = request_of c userId sessionId context) as Hrequest.
  { unfold request_of, build_request, getMaxLength, getMaxSuggestions, getTemperature,
      getModel, getMaxContextLines, getAutoTrigger, cascade.
    rewrite Hsame. reflexivity. }
  split; [exact Hrequest |].
  intros post convert startTime endTime.
  unfold dispatch_with, getSuggestions, getSuggestions_try.
  fold (request_of (removeLanguageConfig key c) userId sessionId context).
  fold (request_of c userId sessionId context).
  now rewrite Hrequest.
Qed.

Lemma override_under_mixed_case_key_is_never_used_witness :
  request_of (removeLanguageConfig "COBOL" tuned) "user" "session"
    Scenario.context_before
  = request_of tuned "user" "session" Scenario.context_before /\
  forall post convert startTime endTime,
    dispatch_with (removeLanguageConfig "COBOL" tuned) "user" "session" post convert
      startTime endTime Scenario.context_before
    = dispatch_with tuned "user" "session" post convert startTime endTime
        Scenario.context_before.
Proof.
  apply (override_under_mixed_case_key_is_never_used tuned "COBOL" "user" "session"
           Scenario.context_before).
  - vm_compute. discriminate.
  - vm_compute. discriminate.
Defined.

End RequestFacts.

(** ** The provider's language table and its items *)

Module ProviderFacts.

Import CompletionProvider Spec Notions Samples.

Lemma keys_set {V} k (v : V) m :
  JsMap.keys (JsMap.set k v m)
  = if JsMap.has k m then JsMap.keys m else JsMap.keys m ++ [k].
Proof.
  unfold JsMap.has, JsMap.keys.
  induction m as [| [k0 v0] m IH]; [reflexivity |].
  simpl JsMap.set. simpl JsMap.get.
  destruct (String.eqb_spec k k0) as [-> | Hne]; [reflexivity |].
  rewrite !fmap_cons, IH. now destruct (JsMap.get k m).
Qed.

Lemma spread_laid_over {A} (old : A) (supplied : JsObject.Supplied A) (builtin : A) :
  supplied <> JsObject.Cleared ->
  spread old supplied = Some (laid_over supplied (Some old) builtin).
Proof. now destruct supplied. Qed.

Lemma laid_over_builtin {A} (supplied : JsObject.Supplied A) (builtin : A) :
  laid_over supplied (Some builtin) builtin = laid_over supplied None builtin.
Proof. now destruct supplied. Qed.

Lemma overlay_values base config :
  all_values config ->
  overlay base config
  = Some {| maxTokens := laid_over (new_maxTokens config) (Some (maxTokens base)) 100;
            temperature :=
              laid_over (new_temperature config) (Some (temperature base)) (7 # 10)%Q;
            topP := laid_over (new_topP config) (Some (topP base)) (9 # 10)%Q;
            cfg_contextWindow :=
              laid_over (new_contextWindow config) (Some (cfg_contextWindow base)) 1024;
            commentStyle :=
              laid_over (new_commentStyle config) (Some (commentStyle base)) "//";
            cfg_indentStyle :=
              laid_over (new_indentStyle config) (Some (cfg_indentStyle base)) spaces;
            cfg_indentSize :=
              laid_over (new_indentSize config) (Some (cfg_indentSize base)) 4;
            fileExtensions :=
              laid_over (new_fileExtensions config) (Some (fileExtensions base)) [] |}.
Proof.
  intros (H1 & H2 & H3 & H4 & H5 & H6 & H7 & H8). unfold overlay.
  rewrite (spread_laid_over _ _ 100 H1), (spread_laid_over _ _ (7 # 10)%Q H2),
    (spread_laid_over _ _ (9 # 10)%Q H3), (spread_laid_over _ _ 1024 H4),
    (spread_laid_over _ _ "//" H5), (spread_laid_over _ _ spaces H6),
    (spread_laid_over _ _ 4 H7), (spread_laid_over _ _ [] H8).
  reflexivity.
Qed.

(** X15. [updateLanguageConfig] of the provider, with an update none of
    whose properties has the value [undefined]. Afterwards the language
    is supported and each property of its configuration is the value
    that the update gives for it, else the value it had, else, for a
    language that was unknown, the built-in value: 100 tokens,
    temperature 0.7, top-p 0.9, context window 1024, comment style
    [//], indentation by 4 spaces, no file extension. A new language
    goes to the end of [getSupportedLanguages]; the configurations of
    the other languages, the cache, the guard and the statistics are
    untouched. *)
Theorem provider_updateLanguageConfig
    (p : t) (language : string) (config : PartialLanguageConfig)
    (Hvalues : all_values config) :
  exists p' entry,
    updateLanguageConfig language config p = Some p' /\
    isLanguageSupported p' language = true /\
    getLanguageConfig p' language = Some entry /\
    maxTokens entry
    = laid_over (new_maxTokens config) (maxTokens <$> getLanguageConfig p language) 100 /\
    temperature entry
    = laid_over (new_temperature config) (temperature <$> getLanguageConfig p language)
        (7 # 10)%Q /\
    topP entry
    = laid_over (new_topP config) (topP <$> getLanguageConfig p language) (9 # 10)%Q /\
    cfg_contextWindow entry
    = laid_over (new_contextWindow config)
        (cfg_contextWindow <$> getLanguageConfig p language) 1024 /\
    commentStyle entry
    = laid_over (new_commentStyle config) (commentStyle <$> getLanguageConfig p language)
        "//" /\
    cfg_indentStyle entry
    = laid_over (new_indentStyle config) (cfg_indentStyle <$> getLanguageConfig p language)
        spaces /\
    cfg_indentSize entry
    = laid_over (new_indentSize config) (cfg_indentSize <$> getLanguageConfig p language)
        4 /\
    fileExtensions entry
    = laid_over (new_fileExtensions config)
        (fileExtensions <$> getLanguageConfig p language) [] /\
    (forall other, other <> language ->
       getLanguageConfig p' other = getLanguageConfig p other) /\
    getSupportedLanguages p'
    = (if isLanguageSupported p language then getSupportedLanguages p
       else getSupportedLanguages p ++ [language]) /\
    cache p' = cache p /\ isProcessing p' = isProcessing p /\
    statsManager p' = statsManager p.
Proof.
  unfold updateLanguageConfig, isLanguageSupported, getLanguageConfig,
    getSupportedLanguages, JsMap.has.
  destruct (JsMap.get language (languageConfigs p)) as [existing |] eqn:Hget;
    rewrite (overlay_values _ _ Hvalues);
    (eexists; eexists; split; [reflexivity |]); simpl;
    rewrite ConfigurationFacts.get_set_this, keys_set; unfold JsMap.has; rewrite Hget;
    rewrite <- ?laid_over_builtin;
    (split; [reflexivity |]); (split; [reflexivity |]); simpl;
    repeat (split; [reflexivity |]);
    (split; [| repeat split]);
    intros other Hne; now apply ConfigurationFacts.get_set_other.
Qed.

Lemma provider_updateLanguageConfig_witness :
  exists p' entry,
    updateLanguageConfig "cobol" negative_indent (create Scenario.no_statistics) = Some p' /\
    isLanguageSupported p' "cobol" = true /\
    getLanguageConfig p' "cobol" = Some entry /\
    maxTokens entry
    = laid_over (new_maxTokens negative_indent)
        (maxTokens <$> getLanguageConfig (create Scenario.no_statistics) "cobol") 100 /\
    temperature entry
    = laid_over (new_temperature negative_indent)
        (temperature <$> getLanguageConfig (create Scenario.no_statistics) "cobol")
        (7 # 10)%Q /\
    topP entry
    = laid_over (new_topP negative_indent)
        (topP <$> getLanguageConfig (create Scenario.no_statistics) "cobol") (9 # 10)%Q /\
    cfg_contextWindow entry
    = laid_over (new_contextWindow negative_indent)
        (cfg_contextWindow <$> getLanguageConfig (create Scenario.no_statistics) "cobol")
        1024 /\
    commentStyle entry
    = laid_over (new_commentStyle negative_indent)
        (commentStyle <$> getLanguageConfig (create Scenario.no_statistics) "cobol")
        "//" /\
    cfg_indentStyle entry
    = laid_over (new_indentStyle negative_indent)
        (cfg_indentStyle <$> getLanguageConfig (create Scenario.no_statistics) "cobol")
        spaces /\
    cfg_indentSize entry
    = laid_over (new_indentSize negative_indent)
        (cfg_indentSize <$> getLanguageConfig (create Scenario.no_statistics) "cobol")
        4 /\
    fileExtensions entry
    = laid_over (new_fileExtensions negative_indent)
        (fileExtensions <$> getLanguageConfig (create Scenario.no_statistics) "cobol")
        [] /\
    (forall other, other <> "cobol" ->
       getLanguageConfig p' other
       = getLanguageConfig (create Scenario.no_statistics) other) /\
    getSupportedLanguages p'
    = (if isLanguageSupported (create Scenario.no_statistics) "cobol"
       then getSupportedLanguages (create Scenario.no_statistics)
       else getSupportedLanguages (create Scenario.no_statistics) ++ ["cobol"]) /\
    cache p' = cache (create Scenario.no_statistics) /\
    isProcessing p' = isProcessing (create Scenario.no_statistics) /\
    statsManager p' = statsManager (create Scenario.no_statistics).
Proof.
  apply (provider_updateLanguageConfig (create Scenario.no_statistics) "cobol"
           negative_indent).
  unfold all_values, negative_indent. simpl. repeat split; discriminate.
Defined.

Example cobol_added :
  (fun p' => (getSupportedLanguages p', getLanguageConfig p' "cobol"))
    <$> updateLanguageConfig "cobol" negative_indent (create Scenario.no_statistics)
  = Some ([ "python"; "javascript"; "typescript"; "java"; "cpp"; "c"; "go"; "rust";
            "cobol" ],
          Some {| maxTokens := 100; temperature := (7 # 10)%Q; topP := (9 # 10)%Q;
                  cfg_contextWindow := 1024; commentStyle := "//";
                  cfg_indentStyle := spaces; cfg_indentSize := -1;
                  fileExtensions := [] |}).
Proof. vm_compute. reflexivity. Qed.

Example python_misconfigured :
  updateLanguageConfig "python" negative_indent (create Scenario.no_statistics)
  = Some misconfigured.
Proof. reflexivity. Qed.

(** An update with a property given as [undefined] stores an entry
    without that property, which is no [LanguageConfig]. *)
Example undefined_property_is_stored :
  updateLanguageConfig "python"
    {| new_maxTokens := JsObject.Absent; new_temperature := JsObject.Absent;
       new_topP := JsObject.Absent; new_contextWindow := JsObject.Absent;
       new_commentStyle := JsObject.Absent; new_indentStyle := JsObject.Absent;
       new_indentSize := JsObject.Cleared; new_fileExtensions := JsObject.Absent |}
    (create Scenario.no_statistics)
  = None.
Proof. vm_compute. reflexivity. Qed.

(** *** The items *)

Lemma map_index_total {A B} (f : A -> Z -> completion B) xs : forall i,
  (forall x j, x ∈ xs -> exists y, f x j = Normal y) ->
  exists ys,
    map_index f i xs = Normal ys /\
    length ys = length xs /\
    forall n x, xs !! n = Some x ->
      exists y, ys !! n = Some y /\ f x (i + Z.of_nat n) = Normal y.
Proof.
  induction xs as [| x xs IH]; intros i Hf; simpl.
  - exists []. repeat split. intros n x Hx. discriminate Hx.
  - destruct (Hf x i) as [y Hy]; [left |].
    destruct (IH (i + 1)) as (ys & Hys & Hlen & Hnth).
    { intros x' j Hx'. apply Hf. now right. }
    exists (y :: ys). rewrite Hy, Hys. simpl. split; [reflexivity |].
    split; [now rewrite Hlen |].
    intros [| n] x' Hx'; simpl in Hx'.
    + injection Hx' as <-. exists y. split; [reflexivity |].
      now replace (i + Z.of_nat 0) with i by lia.
    + destruct (Hnth n x' Hx') as (y' & Hy' & Hfy). exists y'. split; [exact Hy' |].
      now replace (i + Z.of_nat (S n)) with (i + 1 + Z.of_nat n) by lia.
Qed.

Lemma map_index_throw {A B} (f : A -> Z -> completion B) xs : forall i,
  (exists x, x ∈ xs /\ forall j, exists e, f x j = Throw e) ->
  exists e, map_index f i xs = Throw e.
Proof.
  induction xs as [| x xs IH]; intros i (bad & Hin & Hbad); simpl.
  - inversion Hin.
  - destruct (f x i) as [y | e] eqn:Hx; [| eauto]. simpl.
    destruct (IH (i + 1)) as [e He]; [| rewrite He; eauto].
    exists bad. split; [| exact Hbad].
    apply elem_of_cons in Hin. destruct Hin as [-> | Hin]; [| exact Hin].
    destruct (Hbad i) as [e He]. rewrite He in Hx. discriminate Hx.
Qed.

Lemma new_Position_defined character :
  0 <= character -> new_Position character = Normal character.
Proof.
  intros H. unfold new_Position. destruct (Z.ltb_spec character 0); [lia | reflexivity].
Qed.

Lemma convert_one_presents p context suggestion index :
  (forall c, getLanguageConfig p (language context) = Some c -> fits (text suggestion) c) ->
  (forall given, replaceRange suggestion = Some given ->
                 0 <= range_start given /\ 0 <= range_end given) ->
  exists item,
    convert_one p context suggestion (Z.of_nat index) = Normal item /\
    presents p context index suggestion item.
Proof.
  intros Hfits Hrange.
  destruct (FormatFacts.formatSuggestionText_formatted (text suggestion)
              (getLanguageConfig p (language context)) Hfits) as (out & Hout & Hformatted).
  unfold convert_one. unfold getLanguageConfig in Hout. rewrite Hout.
  cbn [bind].
  assert (exists item_range,
             match replaceRange suggestion with
             | Some given =>
                 start <- new_Position (range_start given) ;;
                 finish <- new_Position (range_end given) ;;
                 Normal (Some (new_Range start finish))
             | None => Normal None
             end = Normal item_range /\
             item_range
             = match replaceRange suggestion with
               | Some given =>
                   Some {| range_start := Z.min (range_start given) (range_end given);
                           range_end := Z.max (range_start given) (range_end given) |}
               | None => None
               end) as (item_range & -> & Hitem_range).
  { destruct (replaceRange suggestion) as [given |]; [| eauto].
    destruct (Hrange given eq_refl) as [Hstart Hend].
    rewrite !new_Position_defined by assumption. cbn [bind]. eauto. }
  cbn [bind]. eexists. split; [reflexivity |].
  unfold presents. cbn.
  split; [reflexivity |]. split.
  { unfold getCompletionItemKind.
    destruct (String.eqb_spec (type suggestion) "single-line") as [-> | _];
      reflexivity. }
  split; [exact Hformatted |]. split; [exact Hitem_range |].
  repeat split.
Qed.

Lemma convertible_lookup p context suggestions suggestion :
  convertible p context suggestions -> suggestion ∈ suggestions ->
  (forall c, getLanguageConfig p (language context) = Some c -> fits (text suggestion) c) /\
  (forall given, replaceRange suggestion = Some given ->
                 0 <= range_start given /\ 0 <= range_end given).
Proof.
  unfold convertible. rewrite Forall_forall. intros Hall Hin. exact (Hall _ Hin).
Qed.

(** X16. [convertToCompletionItems] on suggestions that can be
    converted: each text, formatted for the configuration of the
    language, is still a string of the engine (so the indentation is
    not negative), and no end of a replace range is negative. Then it
    does not throw and returns one item for each suggestion, in the
    order of the suggestions. The item at an index has the text of the
    suggestion at that index as its label; its kind is Snippet for the
    type 'multi-line', Module for 'block', Text for any other; its
    insert text is the text, with every line after the first
    re-indented when there is a configuration and more than one line;
    its range is the replace range with its ends in order, or absent;
    its command is 'aiCodeCompletion.trackAcceptance' with the index,
    the type of the suggestion and the language. *)
Theorem convertToCompletionItems_presents_every_suggestion
    (p : t) (suggestions : list Suggestion) (context : CodeContext)
    (Hconvertible : convertible p context suggestions) :
  exists items,
    convertToCompletionItems p suggestions context = Normal items /\
    length items = length suggestions /\
    forall index suggestion, suggestions !! index = Some suggestion ->
      exists item, items !! index = Some item /\ presents p context index suggestion item.
Proof.
  unfold convertToCompletionItems.
  destruct (map_index_total (convert_one p context) suggestions 0)
    as (items & Hitems & Hlen & Hnth).
  { intros s j Hs.
    destruct (convertible_lookup p context suggestions s Hconvertible Hs)
      as [Hfits Hrange].
    destruct (convert_one_presents p context s 0 Hfits Hrange) as (item & Hitem & _).
    revert Hitem. unfold convert_one.
    destruct (formatSuggestionText _ _) as [out |]; [| discriminate]. cbn [bind].
    destruct (match replaceRange s with Some _ => _ | None => _ end) as [r |];
      [| discriminate].
    cbn [bind]. eauto. }
  exists items. split; [exact Hitems |]. split; [exact Hlen |].
  intros index suggestion Hs.
  destruct (Hnth index suggestion Hs) as (item & Hitem & Hconv).
  exists item. split; [exact Hitem |].
  destruct (convertible_lookup p context suggestions suggestion Hconvertible)
    as [Hfits Hrange]; [now apply list_elem_of_lookup_2 with index |].
  destruct (convert_one_presents p context suggestion index Hfits Hrange)
    as (item' & Hitem' & Hpresents).
  replace (0 + Z.of_nat index) with (Z.of_nat index) in Hconv by lia.
  rewrite Hconv in Hitem'. injection Hitem' as <-. exact Hpresents.
Qed.

Lemma convertToCompletionItems_presents_every_suggestion_witness :
  exists items,
    convertToCompletionItems (create Scenario.no_statistics)
      (suggestions Scenario.service_reply ++ [reversed_range]) Scenario.context_before
    = Normal items /\
    length items = length (suggestions Scenario.service_reply ++ [reversed_range]) /\
    forall index suggestion,
      (suggestions Scenario.service_reply ++ [reversed_range]) !! index = Some suggestion ->
      exists item, items !! index = Some item /\
                   presents (create Scenario.no_statistics) Scenario.context_before
                     index suggestion item.
Proof.
  apply (convertToCompletionItems_presents_every_suggestion
           (create Scenario.no_statistics)
           (suggestions Scenario.service_reply ++ [reversed_range])
           Scenario.context_before).
  unfold convertible.
  let given := eval vm_compute in (suggestions Scenario.service_reply ++ [reversed_range]) in
  change (suggestions Scenario.service_reply ++ [reversed_range]) with given.
  repeat (apply List.Forall_cons;
          [split;
           [intros c Hc; vm_compute in Hc; injection Hc as <-;
            split; vm_compute; discriminate
           | intros given Hgiven; simpl in Hgiven;
             first [discriminate Hgiven | injection Hgiven as <-; simpl; lia]] |]).
  apply List.Forall_nil.
Defined.

(** A replace range given with its ends reversed comes out in order, and
    a negative end is an error that loses the whole list. *)
Example replace_ranges :
  (exists item,
     convert_one (create Scenario.no_statistics) Scenario.context_before reversed_range 0
     = Normal item /\
     kind item = kind_Module /\
     range item = Some {| range_start := 3; range_end := 9 |}) /\
  exists e,
    convertToCompletionItems (create Scenario.no_statistics)
      (suggestions Scenario.service_reply ++ [negative_range]) Scenario.context_before
    = Throw e.
Proof.
  split.
  - eexists. split; [vm_compute; reflexivity |]. split; reflexivity.
  - eexists. vm_compute. reflexivity.
Qed.

Lemma formatSuggestionText_negative text config :
  cfg_indentStyle config = spaces -> cfg_indentSize config < 0 ->
  exists e,
    formatSuggestionText text (Some config)
    = if (1 <? length (split newline text))%nat then Throw e else Normal text.
Proof.
  intros Hstyle Hsize. unfold formatSuggestionText, indentChar, JS.repeat.
  rewrite Hstyle. destruct (Z.ltb_spec (cfg_indentSize config) 0); [| lia].
  eexists. now destruct (1 <? length (split newline text))%nat.
Qed.

(** X17. A language whose indent style is spaces and whose indent size
    is negative, as [updateLanguageConfig] accepts it, has no
    indentation unit: as soon as one suggestion has more than one line,
    [convertToCompletionItems] throws for the whole list, and the
    pipeline returns no item and records a provider error. *)
Theorem negative_indent_size_loses_every_suggestion
    (p : t) (suggestions : list Suggestion) (context : CodeContext)
    (config : LanguageConfig) (suggestion : Suggestion)
    (Hconfig : getLanguageConfig p (language context) = Some config)
    (Hstyle : cfg_indentStyle config = spaces)
    (Hsize : cfg_indentSize config < 0)
    (Hin : suggestion ∈ suggestions)
    (Hlines : multi_line (text suggestion)) :
  (exists e, convertToCompletionItems p suggestions context = Throw e) /\
  snd (return_items p suggestions context) = [] /\
  error_count (fst (return_items p suggestions context)) = error_count p + 1.
Proof.
  assert (exists e, convertToCompletionItems p suggestions context = Throw e)
    as [e Hthrow].
  { unfold convertToCompletionItems. apply map_index_throw.
    exists suggestion. split; [exact Hin |]. intros j.
    unfold convert_one. unfold getLanguageConfig in Hconfig. rewrite Hconfig.
    destruct (formatSuggestionText_negative (text suggestion) _ Hstyle Hsize)
      as [e ->].
    unfold multi_line in Hlines.
    destruct (Nat.ltb_spec 1 (length (split newline (text suggestion)))); [| lia].
    eauto. }
  split; [eauto |].
  unfold return_items. rewrite Hthrow. split; reflexivity.
Qed.

Lemma negative_indent_size_loses_every_suggestion_witness :
  (exists e,
     convertToCompletionItems misconfigured
       (suggestions Scenario.service_reply ++ [block_suggestion]) Scenario.context_before
     = Throw e) /\
  snd (return_items misconfigured
         (suggestions Scenario.service_reply ++ [block_suggestion])
         Scenario.context_before) = [] /\
  error_count (fst (return_items misconfigured
                      (suggestions Scenario.service_reply ++ [block_suggestion])
                      Scenario.context_before))
  = error_count misconfigured + 1.
Proof.
  apply (negative_indent_size_loses_every_suggestion misconfigured
           (suggestions Scenario.service_reply ++ [block_suggestion])
           Scenario.context_before
           (default python_config (overlay python_config negative_indent))
           block_suggestion).
  - vm_compute. reflexivity.
  - reflexivity.
  - simpl. lia.
  - apply elem_of_app. right. apply list_elem_of_singleton. reflexivity.
  - unfold multi_line. vm_compute. lia.
Defined.

Section Cleared.

Variable md5 : string -> string.
Variable extractContext : Document -> Position -> completion CodeContext.

(** X18. [clearCache] empties the cache and touches nothing else, and a
    trigger that follows it is never answered from the cache: it returns
    no item, or suspends on a request to the service. *)
Theorem no_item_is_served_from_a_cleared_cache
    (enabled : bool) (now : Z) (document : Document) (pos : Position) (p : t) :
  cache (clearCache p) = JsMap.empty /\
  languageConfigs (clearCache p) = languageConfigs p /\
  isProcessing (clearCache p) = isProcessing p /\
  statsManager (clearCache p) = statsManager p /\
  match snd (provideCompletionItems md5 extractContext enabled now document pos
               (clearCache p)) with
  | Returned items => items = []
  | Awaiting k => startTime k = now
  end.
Proof.
  repeat split.
  unfold provideCompletionItems.
  destruct enabled; [| reflexivity]. simpl.
  destruct (isProcessing p); [reflexivity |].
  destruct (extractContext document pos) as [extracted | error]; [| reflexivity].
  destruct (isLanguageSupported _ _); reflexivity.
Qed.

End Cleared.

(** *** The context the provider completes *)

Lemma append_cons c a b : String c a +:+ b = String c (a +:+ b).
Proof. reflexivity. Qed.

Lemma join_snoc sep init piece :
  init <> [] -> join sep (init ++ [piece]) = join sep init +:+ String sep piece.
Proof.
  induction init as [| first init IH]; [congruence |]. intros _.
  destruct init as [| second init]; [reflexivity |].
  change (join sep ((first :: second :: init) ++ [piece]))
    with (first +:+ String sep (join sep ((second :: init) ++ [piece]))).
  rewrite IH by discriminate.
  change (join sep (first :: second :: init))
    with (first +:+ String sep (join sep (second :: init))).
  generalize (join sep (second :: init)). intros rest.
  induction first as [| c first IHf]; [reflexivity |].
  rewrite !append_cons. f_equal. exact IHf.
Qed.

Lemma split_last sep s :
  exists init suffix,
    split sep s = init ++ [suffix] /\
    no_char sep suffix = true /\
    s = match init with
        | [] => suffix
        | _ :: _ => join sep init +:+ String sep suffix
        end.
Proof.
  pose proof (StringFacts.split_not_nil sep s) as Hne.
  pose proof (StringFacts.split_pieces_clean sep s) as Hclean.
  pose proof (StringFacts.join_split sep s) as Hjoin.
  revert Hne Hclean Hjoin. generalize (split sep s). intros pieces.
  destruct pieces as [| suffix init _] using rev_ind; intros Hne Hclean Hjoin;
    [congruence |].
  exists init, suffix. split; [reflexivity |]. split.
  - apply Forall_app in Hclean as [_ Hx]. now inversion Hx.
  - rewrite <- Hjoin. destruct init as [| piece init]; [reflexivity |].
    now apply join_snoc.
Qed.

(** X24. The file extension that [enhanceContextWithLanguageInfo] puts
    in the context, and in the fingerprint, is a dot followed by what
    comes after the last dot of the file name; for a file name without a
    dot that is the whole file name. It is absent only for an empty file
    name or one that ends with a dot. The language is the language of the
    document. *)
Theorem file_extension_is_what_follows_the_last_dot
    (p : t) (context : CodeContext) (document : Document) :
  let enhanced := enhanceContextWithLanguageInfo p context document in
  language enhanced = languageId document /\
  match fileExtension enhanced with
  | Some extension =>
      exists suffix,
        extension = "." +:+ suffix /\ suffix <> "" /\ no_char "." suffix = true /\
        (fileName document = suffix \/
         exists stem, fileName document = stem +:+ String "." suffix)
  | None =>
      fileName document = "" \/ exists stem, fileName document = stem +:+ "."
  end.
Proof.
  cbv zeta. split; [reflexivity |].
  unfold enhanceContextWithLanguageInfo. simpl fileExtension.
  destruct (split_last "." (fileName document)) as (init & suffix & Hsplit & Hclean & Hname).
  unfold pop. rewrite Hsplit, last_snoc.
  destruct suffix as [| c suffix]; simpl truthy_string; cbv iota.
  - destruct init as [| first init]; [now left | right; eauto].
  - exists (String c suffix). split; [reflexivity |]. split; [discriminate |].
    split; [exact Hclean |].
    destruct init as [| first init]; [now left | right; eauto].
Qed.

Example extension_of_a_makefile :
  fileExtension (enhanceContextWithLanguageInfo (create Scenario.no_statistics)
                   Scenario.context_before
                   {| languageId := "makefile"; fileName := "/work/Makefile"; lines := [] |})
  = Some "./work/Makefile".
Proof. vm_compute. reflexivity. Qed.

End ProviderFacts.

(** ** The rates *)

Module RateFacts.

Import StatisticsManager Notions Samples.

Lemma omap_replicate_CacheHit {B} (f : StatsCall -> option B) n :
  f CacheHit = None -> omap f (replicate n CacheHit) = [].
Proof. intros Hf. induction n as [| n IH]; simpl; [reflexivity | now rewrite Hf]. Qed.

Lemma cache_hit_calls_replicate n : cache_hit_calls (replicate n CacheHit) = Z.of_nat n.
Proof.
  unfold cache_hit_calls. f_equal.
  induction n as [| n IH]; simpl; [reflexivity | now f_equal].
Qed.

(** X19. The two rates are ratios of call counts. The cache-hit rate
    divides the cache hits, among them the hits in the provider's own
    cache, by the completions, which the hits in the provider's cache
    are not part of; it is therefore not bounded by 100: one completion
    followed by [n] hits in the provider's cache gives a rate of
    [100 * n]. The acceptance rate divides the acceptances by the
    suggestions received. *)
Theorem rates_are_ratios_of_call_counts (now : Z) (calls : list StatsCall) :
  let m := perform_all calls (loadStatistics None now) in
  getCacheHitRate m
  = (if Z.of_nat (length (times_of calls)) =? 0 then Finite 0
     else Finite (inject_Z (cache_hit_calls calls)
                  / inject_Z (Z.of_nat (length (times_of calls))) * inject_Z 100)) /\
  getAcceptanceRate m
  = (if sum (counts_of calls) =? 0 then Finite 0
     else Finite (inject_Z (acceptances calls)
                  / inject_Z (sum (counts_of calls)) * inject_Z 100)) /\
  forall language count time today (n : nat),
    exists rate,
      getCacheHitRate
        (perform_all (Completion language count time false today :: replicate n CacheHit)
           (loadStatistics None now))
      = Finite rate /\
      (rate == inject_Z (100 * Z.of_nat n))%Q.
Proof.
  assert (forall cs,
    getCacheHitRate (perform_all cs (loadStatistics None now))
    = (if Z.of_nat (length (times_of cs)) =? 0 then Finite 0
       else Finite (inject_Z (cache_hit_calls cs)
                    / inject_Z (Z.of_nat (length (times_of cs))) * inject_Z 100)))
    as Hrate.
  { intros cs.
    destruct (StatisticsTraceFacts.perform_all_counters cs (loadStatistics None now))
      as (Hreq & _ & Hhit & _).
    unfold getCacheHitRate. rewrite Hreq, Hhit. simpl. rewrite !Z.add_0_l.
    destruct (Z.of_nat (length (times_of cs)) =? 0) eqn:Hzero; [reflexivity |].
    unfold divide. now rewrite Hzero. }
  cbv zeta. split; [apply Hrate | split].
  - destruct (StatisticsTraceFacts.perform_all_counters calls (loadStatistics None now))
      as (_ & Hsug & _ & Hacc & _).
    unfold getAcceptanceRate. rewrite Hsug, Hacc. simpl. rewrite !Z.add_0_l.
    destruct (sum (counts_of calls) =? 0) eqn:Hzero; [reflexivity |].
    unfold divide. now rewrite Hzero.
  - intros language count time today n. rewrite Hrate.
    assert (times_of (Completion language count time false today :: replicate n CacheHit)
            = [time]) as ->
      by (unfold times_of; simpl; now rewrite omap_replicate_CacheHit).
    assert (cache_hit_calls
              (Completion language count time false today :: replicate n CacheHit)
            = Z.of_nat n) as ->
      by (unfold cache_hit_calls; simpl; apply cache_hit_calls_replicate).
    simpl. eexists. split; [reflexivity |].
    rewrite inject_Z_mult. field.
Qed.

Example five_hundred_percent :
  getCacheHitRate
    (perform_all (Completion "python" 3 250 false "2025-01-01" :: replicate 5 CacheHit)
       (loadStatistics None 0))
  = Finite (inject_Z 5 / inject_Z 1 * inject_Z 100).
Proof. vm_compute. reflexivity. Qed.

End RateFacts.

(** ** The context extractor *)

Module ExtractorFacts.

Import CompletionProvider ContextExtractor Spec Notions Samples.

(** *** The lines before the cursor *)

Lemma lineAt_inside document i text :
  lines document !! i = Some text -> lineAt document (Z.of_nat i) = Normal text.
Proof.
  intros Hi. unfold lineAt. destruct (Z.ltb_spec (Z.of_nat i) 0); [lia |].
  now rewrite Nat2Z.id, Hi.
Qed.

Lemma lineAt_outside document i :
  lineCount document <= i -> exists e, lineAt document i = Throw e.
Proof.
  unfold lineAt, lineCount. intros Hi. destruct (Z.ltb_spec i 0); [eauto |].
  rewrite lookup_ge_None_2 by lia. eauto.
Qed.

Lemma push_lines_inside document rounds : forall i pushed,
  (i + rounds <= length (lines document))%nat ->
  push_lines document (Z.of_nat i) rounds pushed
  = Normal (pushed ++ take rounds (drop i (lines document))).
Proof.
  induction rounds as [| rounds IH]; intros i pushed Hin; simpl.
  - now rewrite take_0, app_nil_r.
  - destruct (lookup_lt_is_Some_2 (lines document) i) as [text Htext]; [lia |].
    rewrite (lineAt_inside document i text Htext). simpl.
    replace (Z.of_nat i + 1) with (Z.of_nat (S i)) by lia.
    rewrite IH by lia. f_equal. rewrite <- app_assoc. f_equal.
    rewrite (drop_S _ _ _ Htext). reflexivity.
Qed.

Lemma push_lines_outside document rounds : forall i pushed,
  (length (lines document) < i + rounds)%nat -> (0 < rounds)%nat ->
  exists e, push_lines document (Z.of_nat i) rounds pushed = Throw e.
Proof.
  induction rounds as [| rounds IH]; intros i pushed Hout Hpos; [lia |]. simpl.
  destruct (lines document !! i) as [text |] eqn:Htext.
  - rewrite (lineAt_inside document i text Htext). simpl.
    replace (Z.of_nat i + 1) with (Z.of_nat (S i)) by lia.
    apply lookup_lt_Some in Htext. apply IH; lia.
  - apply lookup_ge_None in Htext.
    destruct (lineAt_outside document (Z.of_nat i)) as [e ->];
      [unfold lineCount; lia | simpl; eauto].
Qed.

Lemma slice_last_take_drop {A} n k (l : list A) :
  (n <= length l)%nat ->
  take (n - (n - k)) (drop (n - k) l) = slice_last k (take n l).
Proof.
  intros Hn. unfold slice_last. rewrite length_take.
  assert (Init.Nat.min n (length l) = n) as -> by lia.
  rewrite skipn_firstn_comm. reflexivity.
Qed.

Lemma slice_last_slice_last {A} k n (l : list A) :
  (k <= n)%nat -> slice_last k (slice_last n l) = slice_last k l.
Proof.
  intros Hkn. unfold slice_last. rewrite length_drop, drop_drop. f_equal. lia.
Qed.

(** X20. For a cursor line inside the document (or just past its end),
    [getPreviousLines] returns the lines of the document before that
    line, the last fifty of them when there are more, in order; for a
    line further out it throws. The fingerprint of the provider, which
    reads the last ten of these, thus reads the ten lines of the document
    above the cursor. *)
Theorem previous_lines_are_the_fifty_above_the_cursor
    (document : Document) (currentLine : nat) :
  let above := take currentLine (lines document) in
  if (Z.of_nat currentLine <=? lineCount document) then
    getPreviousLines document (Z.of_nat currentLine) = Normal (slice_last 50 above) /\
    (length (slice_last 50 above) <= 50)%nat /\
    slice_last 10 (slice_last 50 above) = slice_last 10 above
  else
    exists e, getPreviousLines document (Z.of_nat currentLine) = Throw e.
Proof.
  cbv zeta. unfold getPreviousLines, maxContextLines, lineCount.
  assert (Z.max 0 (Z.of_nat currentLine - 50) = Z.of_nat (currentLine - 50)) as -> by lia.
  assert (Z.to_nat (Z.of_nat currentLine - Z.of_nat (currentLine - 50))
          = (currentLine - (currentLine - 50))%nat) as -> by lia.
  destruct (Z.leb_spec (Z.of_nat currentLine) (Z.of_nat (length (lines document))))
    as [Hin | Hout].
  - split; [| split].
    + rewrite push_lines_inside by lia. simpl. f_equal.
      apply slice_last_take_drop. lia.
    + unfold slice_last. rewrite length_drop. lia.
    + apply slice_last_slice_last. lia.
  - apply push_lines_outside; lia.
Qed.

Example previous_lines_of_the_session :
  getPreviousLines Scenario.fib_document 10
  = Normal (previousLines Scenario.context_before)
  /\ exists e, getPreviousLines Scenario.fib_document 12 = Throw e.
Proof. split; [vm_compute; reflexivity | vm_compute; eauto]. Qed.

(** *** The imports *)

Lemma scan_line_reported imports text :
  scan_line imports text = imports ++ reported (trim text).
Proof.
  unfold scan_line, reported, matches_import_or_from, matches_import.
  destruct (keyword_then_whitespace "import" (trim text)); simpl.
  - now rewrite <- !app_assoc.
  - destruct (keyword_then_whitespace "from" (trim text)); [reflexivity |].
    now rewrite app_nil_r.
Qed.

Lemma foldl_scan_line texts : forall imports,
  foldl scan_line imports texts = imports ++ concat (map (fun text => reported (trim text)) texts).
Proof.
  induction texts as [| text texts IH]; intros imports; simpl.
  - now rewrite app_nil_r.
  - now rewrite IH, scan_line_reported, <- app_assoc.
Qed.

(** X21. [extractImports] reads the first fifty lines of the document
    and nothing beyond them. Of these, trimmed, it reports a line that
    starts with [import] and whitespace three times in a row, since the
    line matches each of the three patterns, a line that starts with
    [from] and whitespace once, and no other line; the order is that of
    the document. *)
Theorem imports_are_reported_three_times (document : Document) :
  extractImports document
  = concat (map (fun text => reported (trim text)) (take 50 (lines document))) /\
  forall line, line ∈ extractImports document ->
    matches_import_or_from line = true /\
    exists text, text ∈ take 50 (lines document) /\ line = trim text.
Proof.
  assert (extractImports document
          = concat (map (fun text => reported (trim text)) (take 50 (lines document))))
    as Hclosed.
  { unfold extractImports. rewrite foldl_scan_line, app_nil_l. f_equal. f_equal.
    destruct (Nat.le_gt_cases 50 (length (lines document))) as [Hle | Hgt].
    - now assert (Nat.min 50 (length (lines document)) = 50%nat) as -> by lia.
    - assert (Nat.min 50 (length (lines document)) = length (lines document)) as -> by lia.
      rewrite !take_ge by lia. reflexivity. }
  split; [exact Hclosed |].
  intros line Hline. rewrite Hclosed in Hline.
  apply list_elem_of_In, in_concat in Hline. destruct Hline as (chunk & Hchunk & Hin).
  apply in_map_iff in Hchunk. destruct Hchunk as (text & <- & Htext).
  apply list_elem_of_In in Htext.
  unfold reported, matches_import_or_from, matches_import in *.
  destruct (keyword_then_whitespace "import" (trim text)) eqn:Himport; simpl in *.
  - assert (line = trim text) as -> by (destruct Hin as [<- | [<- | [<- | []]]]; reflexivity).
    rewrite Himport. split; [reflexivity | eauto].
  - destruct (keyword_then_whitespace "from" (trim text)) eqn:Hfrom; [| destruct Hin].
    destruct Hin as [<- | []]. rewrite Himport, Hfrom. split; [reflexivity | eauto].
Qed.

Example imports_of_the_module :
  extractImports with_imports
  = [ "import os"; "import os"; "import os"; "from typing import List" ].
Proof. vm_compute. reflexivity. Qed.

(** *** The parameters *)

Lemma every_no_char sep s : no_char sep s = every (fun c => negb (Ascii.eqb c sep)) s.
Proof. induction s as [| c s IH]; simpl; [reflexivity | now rewrite IH]. Qed.

Lemma every_skip_whitespace test s :
  every test s = true -> every test (skip_whitespace s) = true.
Proof.
  induction s as [| c s IH]; simpl; [reflexivity |].
  intros H. destruct (is_whitespace c); [| exact H].
  apply andb_prop in H. now apply IH.
Qed.

Lemma every_trimEnd test s : every test s = true -> every test (trimEnd s) = true.
Proof.
  induction s as [| c s IH]; simpl; [reflexivity |].
  intros H. apply andb_prop in H as [Hc Hs]. specialize (IH Hs).
  destruct (trimEnd s) as [| d kept].
  - destruct (is_whitespace c); simpl; [reflexivity | now rewrite Hc].
  - simpl in *. now rewrite Hc, IH.
Qed.

Lemma every_before_separator test s :
  every test s = true -> every test (before_separator s) = true.
Proof.
  induction s as [| c s IH]; simpl; [reflexivity |].
  intros H. apply andb_prop in H as [Hc Hs].
  destruct (is_separator c); simpl; [reflexivity | now rewrite Hc, IH].
Qed.

Lemma before_separator_clean s :
  every (fun c => negb (is_separator c)) (before_separator s) = true.
Proof.
  induction s as [| c s IH]; simpl; [reflexivity |].
  destruct (is_separator c) eqn:Hc; simpl; [reflexivity | now rewrite Hc, IH].
Qed.

Lemma every_both f g s :
  every f s = true -> every g s = true -> every (fun c => f c && g c) s = true.
Proof.
  induction s as [| c s IH]; simpl; [reflexivity |].
  intros Hf Hg. apply andb_prop in Hf as [-> Hf]. apply andb_prop in Hg as [-> Hg].
  now rewrite IH.
Qed.

(** X22. [parseParameters] returns at most one name for each of the
    pieces between the commas of its argument, and none for a blank
    argument; every name it returns is non-empty and holds no comma, no
    colon and no whitespace. *)
Theorem parameter_names_are_clean (paramString : string) :
  (trim paramString = "" -> parseParameters paramString = []) /\
  (length (parseParameters paramString) <= length (split "," paramString))%nat /\
  forall name, name ∈ parseParameters paramString ->
    name <> "" /\ every name_unit name = true.
Proof.
  unfold parseParameters. split; [| split].
  - now intros ->.
  - destruct (negb (truthy_string (trim paramString))); simpl; [lia |].
    etransitivity; [apply filter_length_le | now rewrite length_map].
  - intros name Hname.
    destruct (negb (truthy_string (trim paramString))); [inversion Hname |].
    apply list_elem_of_In, filter_In in Hname. destruct Hname as [Hname Htruthy].
    split; [now destruct name |].
    apply in_map_iff in Hname. destruct Hname as (piece & <- & Hpiece).
    pose proof (StringFacts.split_pieces_clean "," paramString) as Hclean.
    rewrite Forall_forall in Hclean.
    apply list_elem_of_In in Hpiece. specialize (Hclean piece Hpiece).
    rewrite every_no_char in Hclean.
    unfold name_unit. apply every_both; [| apply before_separator_clean].
    apply every_before_separator. unfold trim.
    now apply every_trimEnd, every_skip_whitespace.
Qed.

Example parameters_of_main :
  parseParameters "argv: List[str], verbose = False, *rest,, int count"
  = [ "argv"; "verbose"; "*rest"; "int" ].
Proof. vm_compute. reflexivity. Qed.

End ExtractorFacts.

(** ** The text behind the cache key *)

Module SeparationFacts.
Import Json CompletionProvider Notions.
#[local] Arguments String.append !_ _ / : simpl nomatch.

Lemma append_assoc a b c : (a +:+ b) +:+ c = a +:+ (b +:+ c).
Proof. induction a as [| x a IH]; simpl; [reflexivity | now rewrite IH]. Qed.

Lemma append_inv_last a : forall b x, a +:+ String x "" = b +:+ String x "" -> a = b.
Proof.
  induction a as [| c a IH]; intros [| d b] x; simpl; intros H.
  - reflexivity.
  - injection H as -> H. destruct b; discriminate H.
  - injection H as -> H. destruct a; discriminate H.
  - injection H as -> H. f_equal. now apply IH with x.
Qed.

Lemma unescape_escape c r : unescape (escape c +:+ r) = Some (c, r).
Proof. destruct c as [[] [] [] [] [] [] [] []]; reflexivity. Qed.

Lemma escape_inj c c' r r' : escape c +:+ r = escape c' +:+ r' -> c = c' /\ r = r'.
Proof.
  intros H. apply (f_equal unescape) in H. rewrite !unescape_escape in H.
  now injection H.
Qed.

Lemma escape_not_quote c r r' : escape c +:+ r <> String double_quote r'.
Proof.
  intros H. pose proof (f_equal unescape H) as Hc. rewrite unescape_escape in Hc.
  simpl in Hc. injection Hc as -> _. discriminate H.
Qed.

Lemma escape_all_inj s : forall s' r r',
  escape_all s +:+ String double_quote r = escape_all s' +:+ String double_quote r' ->
  s = s' /\ r = r'.
Proof.
  induction s as [| c s IH]; intros [| c' s'] r r'; simpl; rewrite ?append_assoc; intros H.
  - now injection H.
  - symmetry in H. now apply escape_not_quote in H.
  - now apply escape_not_quote in H.
  - apply escape_inj in H as [-> H]. apply IH in H as [-> ->]. now split.
Qed.

Lemma quote_inj s s' r r' : quote s +:+ r = quote s' +:+ r' -> s = s' /\ r = r'.
Proof.
  unfold quote. simpl. rewrite !append_assoc. simpl. intros [= H].
  now apply escape_all_inj.
Qed.


Lemma commas_cons piece rest :
  commas (piece :: rest)
  = piece +:+ match rest with [] => "" | _ :: _ => String "," (commas rest) end.
Proof.
  destruct rest; simpl; [| reflexivity].
  induction piece as [| c piece IH]; simpl; [reflexivity | now rewrite <- IH].
Qed.

Lemma quoted_list_inj xs : forall ys r r',
  commas (map quote xs) +:+ String "]" r = commas (map quote ys) +:+ String "]" r' ->
  xs = ys /\ r = r'.
Proof.
  induction xs as [| x xs IH]; intros [| y ys] r r'.
  - simpl. now intros [= ->].
  - simpl map. rewrite commas_cons. unfold quote at 1. simpl. discriminate.
  - simpl map. rewrite commas_cons. unfold quote at 1. simpl. discriminate.
  - simpl map. rewrite !commas_cons, !append_assoc. intros H.
    apply quote_inj in H as [-> H].
    destruct xs as [| x' xs], ys as [| y' ys].
    + simpl in H. now injection H as ->.
    + simpl in H. discriminate H.
    + simpl in H. discriminate H.
    + change (String "," (commas (map quote (x' :: xs))) +:+ String "]" r
              = String "," (commas (map quote (y' :: ys))) +:+ String "]" r') in H.
      cbn [String.append] in H. injection H as H.
      destruct (IH (y' :: ys) r r' H) as [-> ->]. now split.
Qed.

Lemma elements_strings xs :
  (fix elements (vs : list value) : list string :=
     match vs with
     | [] => []
     | x :: rest => stringify x :: elements rest
     end) (map Str xs)
  = map quote xs.
Proof. induction xs as [| x xs IH]; simpl; [reflexivity | now rewrite IH]. Qed.

Lemma stringify_strings xs :
  stringify (strings xs) = String "[" (commas (map quote xs) +:+ "]").
Proof. unfold strings. simpl. now rewrite elements_strings. Qed.

Lemma strings_inj xs ys r r' :
  stringify (strings xs) +:+ r = stringify (strings ys) +:+ r' -> xs = ys /\ r = r'.
Proof.
  rewrite !stringify_strings. simpl. rewrite !append_assoc. simpl. intros [= H].
  now apply quoted_list_inj.
Qed.


Ltac normalise H :=
  repeat (progress (rewrite ?append_assoc in H; cbn [String.append] in H)).

Ltac peel H :=
  repeat (match type of H with
          | String _ _ = String _ _ => injection H as H
          end).

Lemma function_inj f g k k' :
  stringify (json_of_FunctionContext f) +:+ k
  = stringify (json_of_FunctionContext g) +:+ k' ->
  f = g /\ k = k'.
Proof.
  destruct f as [n ps rt], g as [n' ps' rt'].
  unfold json_of_FunctionContext. simpl fn_name. simpl fn_parameters. simpl fn_returnType.
  intros H.
  destruct rt as [t |], rt' as [t' |]; simpl in H; normalise H; peel H.
  all: apply escape_all_inj in H as [-> H]; peel H.
  all: rewrite !elements_strings in H.
  all: apply quoted_list_inj in H as [-> H]; try discriminate H; peel H.
  - normalise H. apply escape_all_inj in H as [-> H]. peel H. now subst.
  - now subst.
Qed.


Lemma class_inj f g k k' :
  stringify (json_of_ClassContext f) +:+ k
  = stringify (json_of_ClassContext g) +:+ k' ->
  f = g /\ k = k'.
Proof.
  destruct f as [n ms ps], g as [n' ms' ps'].
  unfold json_of_ClassContext. simpl cls_name. simpl cls_methods. simpl cls_properties.
  intros H. simpl in H. normalise H. peel H.
  apply escape_all_inj in H as [-> H]. peel H.
  rewrite !elements_strings in H.
  apply quoted_list_inj in H as [-> H]. peel H.
  apply quoted_list_inj in H as [-> H]. peel H. now subst.
Qed.

Lemma nullable_inj {A} (json : A -> value) (a b : option A) k k' :
  (forall x, exists rest, stringify (json x) = String "{" rest) ->
  (forall x y r r', stringify (json x) +:+ r = stringify (json y) +:+ r' -> x = y /\ r = r') ->
  stringify (default Null (json <$> a)) +:+ k = stringify (default Null (json <$> b)) +:+ k' ->
  a = b /\ k = k'.
Proof.
  intros Hbrace Hinj. destruct a as [x |], b as [y |]; simpl.
  - intros H. apply Hinj in H as [-> ->]. now split.
  - destruct (Hbrace x) as [rest ->]. discriminate.
  - destruct (Hbrace y) as [rest ->]. discriminate.
  - now intros [= ->].
Qed.

Lemma stringify_Obj props :
  stringify (Obj props) = String "{" (commas (members props) +:+ "}").
Proof.
  simpl. do 2 f_equal.
Qed.

Lemma indent_name_inj s s' : indent_name s = indent_name s' -> s = s'.
Proof. destruct s, s'; simpl; congruence. Qed.

Lemma cons_inj c x y : String c x = String c y -> x = y.
Proof. now intros [= ->]. Qed.

(** One step in reading two texts side by side. *)
Ltac crack H :=
  lazymatch type of H with
  | quote _ +:+ _ = quote _ +:+ _ =>
      let E := fresh "E" in
      apply quote_inj in H as [E H];
      first [ discriminate E | apply indent_name_inj in E; subst | subst | clear E ]
  | String ?c _ = String ?c _ => apply cons_inj in H
  | String _ _ = String _ _ => discriminate H
  | String _ _ = quote _ +:+ _ => discriminate H
  | quote _ +:+ _ = String _ _ => discriminate H
  | _ =>
      first [ progress (rewrite ?append_assoc in H; cbn [String.append] in H)
            | progress (cbn [stringify] in H) ]
  end.

(** The optional members at the end of the fingerprint's object
    literal. *)
Lemma optional_members_inj fe st sz fe' st' sz' :
  let after ms := match ms with [] => "" | _ :: _ => String "," (commas ms) end in
  after (members [ ("fileExtension", Str <$> fe);
                   ("indentStyle", (fun s => Str (indent_name s)) <$> st);
                   ("indentSize", Num <$> sz) ]) +:+ "}"
  = after (members [ ("fileExtension", Str <$> fe');
                     ("indentStyle", (fun s => Str (indent_name s)) <$> st');
                     ("indentSize", Num <$> sz') ]) +:+ "}" ->
  fe = fe' /\ st = st' /\ sz = sz'.
Proof.
  destruct fe as [e |], fe' as [e' |], st as [s |], st' as [s' |],
           sz as [n |], sz' as [n' |];
    cbn [members fmap option_fmap option_map]; cbv zeta beta iota; rewrite ?commas_cons;
    intros H; repeat crack H.
  all: try (apply append_inv_last, pretty_Z_inj in H; subst).
  all: repeat split.
Qed.


Lemma members_app ps qs : members (ps ++ qs) = members ps ++ members qs.
Proof.
  induction ps as [| [k [x |]] ps IH]; simpl; [reflexivity | now rewrite IH | exact IH].
Qed.

Lemma function_brace f : exists rest, stringify (json_of_FunctionContext f) = String "{" rest.
Proof. unfold json_of_FunctionContext. rewrite stringify_Obj. eauto. Qed.

Lemma class_brace c : exists rest, stringify (json_of_ClassContext c) = String "{" rest.
Proof. unfold json_of_ClassContext. rewrite stringify_Obj. eauto. Qed.

Ltac norm H := rewrite ?append_assoc in H; cbn [String.append] in H.

(** The text that is hashed determines every field of the projection. *)
Lemma projection_text_inj a b :
  stringify (hash_projection a) = stringify (hash_projection b) -> same_projection a b.
Proof.
  unfold hash_projection, same_projection.
  set (fa := default Null (json_of_FunctionContext <$> functionContext a)).
  set (fb := default Null (json_of_FunctionContext <$> functionContext b)).
  set (ca := default Null (json_of_ClassContext <$> classContext a)).
  set (cb := default Null (json_of_ClassContext <$> classContext b)).
  set (la := strings (slice_last 10 (previousLines a))).
  set (lb := strings (slice_last 10 (previousLines b))).
  match goal with
  | |- stringify (Obj (?m1 :: ?m2 :: ?m3 :: ?m4 :: ?m5 :: ?opts))
       = stringify (Obj (?n1 :: ?n2 :: ?n3 :: ?n4 :: ?n5 :: ?opts')) -> _ =>
      change (stringify (Obj ([m1; m2; m3; m4; m5] ++ opts))
              = stringify (Obj ([n1; n2; n3; n4; n5] ++ opts')) ->
              currentLine a = currentLine b /\
              slice_last 10 (previousLines a) = slice_last 10 (previousLines b) /\
              language a = language b /\
              functionContext a = functionContext b /\
              classContext a = classContext b /\
              fileExtension a = fileExtension b /\
              indentStyle a = indentStyle b /\ indentSize a = indentSize b)
  end.
  rewrite !stringify_Obj, !members_app.
  set (oa := members [ ("fileExtension", Str <$> fileExtension a); _; _ ]).
  set (ob := members [ ("fileExtension", Str <$> fileExtension b); _; _ ]).
  cbn [members app]. rewrite !commas_cons.
  intros H. apply cons_inj in H.
  norm H. apply quote_inj in H as [_ H].
  norm H. apply cons_inj in H. cbn [stringify] in H.
  norm H. apply quote_inj in H as [Hline H].
  norm H. apply cons_inj in H.
  norm H. apply quote_inj in H as [_ H].
  norm H. apply cons_inj in H. subst la lb.
  norm H. apply strings_inj in H as [Hlines H].
  norm H. apply cons_inj in H.
  norm H. apply quote_inj in H as [_ H].
  norm H. apply cons_inj in H. cbn [stringify] in H.
  norm H. apply quote_inj in H as [Hlanguage H].
  norm H. apply cons_inj in H.
  norm H. apply quote_inj in H as [_ H].
  norm H. apply cons_inj in H. subst fa fb.
  norm H.
  apply (nullable_inj json_of_FunctionContext _ _ _ _ function_brace function_inj) in H
    as [Hfunction H].
  norm H. apply cons_inj in H.
  norm H. apply quote_inj in H as [_ H].
  norm H. apply cons_inj in H. subst ca cb.
  norm H.
  apply (nullable_inj json_of_ClassContext _ _ _ _ class_brace class_inj) in H
    as [Hclass H].
  subst oa ob.
  apply optional_members_inj in H as (Hextension & Hstyle & Hsize).
  repeat split; assumption.
Qed.


(** X23. The text that [generateContextHash] hashes determines the
    projection: two contexts give the same text exactly when they agree
    on the current line, the last ten previous lines, the language, the
    function and class contexts, the file extension and the indentation.
    Two contexts therefore share a cache key only when they agree on
    these fields or the digest collides on their two texts. *)
Theorem cache_key_separates_projections (md5 : string -> string) (a b : CodeContext) :
  (stringify (hash_projection a) = stringify (hash_projection b) <-> same_projection a b) /\
  (generateContextHash md5 a = generateContextHash md5 b ->
   same_projection a b \/
   (stringify (hash_projection a) <> stringify (hash_projection b) /\
    md5 (stringify (hash_projection a)) = md5 (stringify (hash_projection b)))).
Proof.
  split.
  - split; [apply projection_text_inj |].
    intros Hsame. f_equal. now apply FingerprintFacts.hash_projection_agrees.
  - unfold generateContextHash. intros Hkey.
    destruct (decide (stringify (hash_projection a) = stringify (hash_projection b)))
      as [Htext | Htext].
    + left. now apply projection_text_inj.
    + right. now split.
Qed.

End SeparationFacts.

(** ** Where the entries of the cache come from *)

Module CacheHistoryFacts.

Import CompletionProvider Spec Notions.

Section History.

Variable md5 : string -> string.
Variable extractContext : Document -> Position -> completion CodeContext.
Variable m0 : StatisticsManager.t.

(** What the schedule keeps true beside [invariant]: the language table
    is the one of the constructor, every suspended invocation was
    triggered, and every entry of the cache was fetched. *)
Let traced (events : list Event) (s : System) : Prop :=
  languageConfigs (provider s) = initializeLanguageConfigs /\
  Forall (fun k => requested extractContext m0 events (codeContext k) /\
                   pending_hash k = generateContextHash md5 (codeContext k))
         (in_flight s) /\
  Forall (fetched_for md5 extractContext m0 events) (cache (provider s)).

Lemma requested_later events e context :
  requested extractContext m0 events context ->
  requested extractContext m0 (events ++ [e]) context.
Proof.
  intros (enabled & now & document & pos & extracted & Hin & Hrest).
  exists enabled, now, document, pos, extracted.
  split; [apply elem_of_app; now left | exact Hrest].
Qed.

Lemma fetched_later events e entry :
  fetched_for md5 extractContext m0 events entry ->
  fetched_for md5 extractContext m0 (events ++ [e]) entry.
Proof.
  intros (Hstatus & (context & Hreq & Hkey) & index & now & today & Hin).
  split; [exact Hstatus |]. split.
  - exists context. split; [now apply requested_later | exact Hkey].
  - exists index, now, today. apply elem_of_app. now left.
Qed.

Lemma enhance_table p p' extracted document :
  languageConfigs p = languageConfigs p' ->
  enhanceContextWithLanguageInfo p extracted document
  = enhanceContextWithLanguageInfo p' extracted document.
Proof. unfold enhanceContextWithLanguageInfo. now intros ->. Qed.

Lemma Forall_delete_index {A} (P : A -> Prop) i (l : list A) :
  Forall P l -> Forall P (delete i l).
Proof.
  intros Hl. revert i. induction Hl as [| x l Hx Hl IH]; intros [| i]; simpl;
    try constructor; auto.
Qed.

Lemma traced_step events s e :
  traced events s -> traced (events ++ [e]) (run_event md5 extractContext e s).
Proof.
  intros (Htable & Hflight & Hcache).
  assert (Forall (fun k => requested extractContext m0 (events ++ [e]) (codeContext k) /\
                           pending_hash k = generateContextHash md5 (codeContext k))
                 (in_flight s)) as Hflight'.
  { eapply Forall_impl; [exact Hflight |]. intros k [Hreq Hhash].
    split; [now apply requested_later | exact Hhash]. }
  assert (Forall (fetched_for md5 extractContext m0 (events ++ [e])) (cache (provider s)))
    as Hcache'.
  { eapply Forall_impl; [exact Hcache |]. intros entry. apply fetched_later. }
  destruct e as [enabled now document pos | index now today awaited].
  - simpl.
    pose proof (PipelineFacts.provide_cache md5 extractContext enabled now document pos
                  (provider s)) as [Hc Ht].
    destruct (provideCompletionItems md5 extractContext enabled now document pos (provider s))
      as [p' [items | k]] eqn:E; simpl in Hc, Ht; unfold traced; simpl; rewrite Hc, Ht.
    + repeat split; assumption.
    + split; [exact Htable |]. split; [| exact Hcache'].
      apply Forall_app. split; [exact Hflight' |]. constructor; [| constructor].
      apply PipelineFacts.provide_awaiting in E
        as (_ & _ & _ & _ & Hhash & _ & _ & extracted & Hextract & Hcontext).
      split; [| exact Hhash].
      exists enabled, now, document, pos, extracted.
      split; [apply elem_of_app; right; apply list_elem_of_singleton; reflexivity |].
      split; [exact Hextract |].
      rewrite Hcontext. apply enhance_table. exact Htable.
  - simpl. destruct (in_flight s !! index) as [k |] eqn:Hk;
      [| repeat split; assumption].
    pose proof (PipelineFacts.resume_cache now today k awaited (provider s)) as Hc.
    pose proof (PipelineFacts.resume_languageConfigs now today k awaited (provider s)) as Ht.
    destruct (provideCompletionItems_resume now today k awaited (provider s)) as [p' items].
    simpl in Hc, Ht. unfold traced. simpl. rewrite Hc, Ht.
    split; [exact Htable |]. split; [now apply Forall_delete_index |].
    destruct awaited as [response | error]; [| exact Hcache'].
    destruct (String.eqb_spec (status response) "success") as [Hs | Hs]; [| exact Hcache'].
    unfold cache_response. apply CacheFacts.cleanupCache_Forall.
    apply JsMapFacts.Forall_set; [exact Hcache' |].
    rewrite Forall_forall in Hflight'.
    destruct (Hflight' k) as [Hreq Hhash]; [now apply list_elem_of_lookup_2 with index |].
    split; [exact Hs |]. split.
    + exists (codeContext k). split; [exact Hreq | exact Hhash].
    + exists index, now, today. apply elem_of_app. right.
      apply list_elem_of_singleton. reflexivity.
Qed.

Lemma traced_run events :
  traced events (run md5 extractContext events (start m0)).
Proof.
  induction events as [| e events IH] using rev_ind.
  - repeat split; constructor.
  - unfold run. rewrite foldl_app. simpl. now apply traced_step.
Qed.

(** X26. The cache holds nothing that was not fetched. In every state
    the schedule can reach from the provider of the constructor, every
    entry of the cache is a response with status ['success'] with which
    the service answered an invocation of the run, stored under the
    fingerprint of the context that a trigger of the run extracted and
    enhanced; and the language table is still the one of the
    constructor. *)
Theorem cache_entries_were_fetched_for_their_key (events : list Event) :
  let s := run md5 extractContext events (start m0) in
  Forall (fetched_for md5 extractContext m0 events) (cache (provider s)) /\
  languageConfigs (provider s) = initializeLanguageConfigs.
Proof.
  cbv zeta. destruct (traced_run events) as (Htable & _ & Hcache). now split.
Qed.

End History.

Example session_cache_entry :
  cache (provider (run Md5.md5 Scenario.line_extractor Scenario.session
                     (start Scenario.no_statistics)))
  = [ (pending_hash Scenario.first_pending, Scenario.service_reply) ].
Proof. vm_compute. reflexivity. Qed.

End CacheHistoryFacts.
